(** * Binance AI agents: decision pipeline, execution gate, performance tracker

    A shallow embedding of the TypeScript sources
      - lib/services/trading-signals    (calculateRiskScore, analyzeSignals)
      - lib/huggingface.ts              (query wrappers and the four local heuristics)
      - the trade analysis API route    (GET: the overall fallback flag)
      - lib/services/trading-service.ts (TradingService.executeTrade and its
                                         private helpers)
      - lib/services/model-tracking.ts  (the recording calls, the accessors,
                                         clearAllData)
      - lib/market-data.ts              (calculateRSI, calculateEMA,
                                         calculateMACD, calculateIndicators)

    Conventions of the embedding.
      - A JavaScript number is a rational [Q]; where the source can produce
        NaN ([Number.parseFloat]) the value is an [option Q] with [None] for
        NaN.  Arithmetic is exact: rounding of IEEE doubles is not modelled.
      - A JavaScript string is a list of characters ([list ascii]); case
        mapping and white space are those of the ASCII range.
      - An awaited remote call is replaced by what it delivered
        ([Some response]) or by its failure ([None]); the exchange client is
        an oracle over the requests made so far, and every request is logged.
      - The clock and the random generator are inputs.                      *)

From Stdlib Require Import QArith Qminmax Qround Qabs String Ascii Bool Arith ZArith Lia Lqa.
From Stdlib Require Import Numbers.DecimalString.
From Stdlib Require Import List Sorting.Permutation Sorting.Sorted.
Import ListNotations.

Set Implicit Arguments.

(* ------------------------------------------------------------------ *)
(** ** JavaScript text primitives                                      *)
(* ------------------------------------------------------------------ *)

Module JS.

Definition str := list ascii.

(** String literal of the source. *)
Definition lit (s : string) : str := list_ascii_of_string s.

Definition code (c : ascii) : nat := nat_of_ascii c.

(** White space of [\s] and of [String.prototype.trim] (ASCII range). *)
Definition isSpace (c : ascii) : bool :=
  let n := code c in
  ((9 <=? n) && (n <=? 13)) || (n =? 32).

Definition isDigit (c : ascii) : bool :=
  let n := code c in (48 <=? n) && (n <=? 57).

Definition toLower (c : ascii) : ascii :=
  let n := code c in
  if (65 <=? n) && (n <=? 90) then ascii_of_nat (n + 32) else c.

Definition toUpper (c : ascii) : ascii :=
  let n := code c in
  if (97 <=? n) && (n <=? 122) then ascii_of_nat (n - 32) else c.

Definition toLowerCase (s : str) : str := map toLower s.
Definition toUpperCase (s : str) : str := map toUpper s.

Definition str_eqb (a b : str) : bool :=
  if list_eq_dec ascii_dec a b then true else false.

(** [s.startsWith(p)] *)
Fixpoint startsWith (p s : str) : bool :=
  match p, s with
  | [], _ => true
  | _ :: _, [] => false
  | a :: p', b :: s' => Ascii.eqb a b && startsWith p' s'
  end.

(** [s.includes(needle)] *)
Fixpoint includes (needle s : str) : bool :=
  startsWith needle s ||
  match s with
  | [] => false
  | _ :: s' => includes needle s'
  end.

(** [arr.includes(x)] on an array of strings. *)
Definition arrayIncludes (x : str) (arr : list str) : bool :=
  existsb (str_eqb x) arr.

Fixpoint dropWhile (p : ascii -> bool) (s : str) : str :=
  match s with
  | [] => []
  | c :: s' => if p c then dropWhile p s' else s
  end.

Fixpoint takeWhile (p : ascii -> bool) (s : str) : str :=
  match s with
  | [] => []
  | c :: s' => if p c then c :: takeWhile p s' else []
  end.

(** [s.trim()] *)
Definition trim (s : str) : str :=
  rev (dropWhile isSpace (rev (dropWhile isSpace s))).

(** [s.split(/[...]+/)] for a character class [sep]: the pieces between the
    maximal runs of separator characters.  A leading (trailing) run leaves an
    empty first (last) piece, and the empty string splits into one empty
    piece, as ECMAScript's RegExp split does when the pattern cannot match
    the empty string. *)
Fixpoint splitRunsAux (sep : ascii -> bool) (cur : str) (inRun : bool) (s : str)
  : list str :=
  match s with
  | [] => [rev cur]
  | c :: s' =>
      if sep c then
        if inRun then splitRunsAux sep [] true s'
        else rev cur :: splitRunsAux sep [] true s'
      else splitRunsAux sep (c :: cur) false s'
  end.

Definition splitRuns (sep : ascii -> bool) (s : str) : list str :=
  splitRunsAux sep [] false s.

(** [arr.length === 0], [s.length === 0] *)
Definition isEmpty {A} (l : list A) : bool :=
  match l with [] => true | _ => false end.

(** [arr.join(sep)] *)
Fixpoint join (sep : str) (l : list str) : str :=
  match l with
  | [] => []
  | [x] => x
  | x :: rest => x ++ sep ++ join sep rest
  end.

(** Decimal numeral of a natural number, as [`${n}`] prints an integer. *)
Definition natToString (n : nat) : str :=
  lit (NilEmpty.string_of_uint (Nat.to_uint n)).

Definition NToString (n : N) : str :=
  lit (NilEmpty.string_of_uint (N.to_uint n)).

End JS.
Import JS.

(* ------------------------------------------------------------------ *)
(** ** Numbers                                                         *)
(* ------------------------------------------------------------------ *)

Definition Qltb (x y : Q) : bool := negb (Qle_bool y x).
Definition Qgtb (x y : Q) : bool := Qltb y x.

(** A count or an array length as a number. *)
Definition ofNat (n : nat) : Q := inject_Z (Z.of_nat n).

(** [Math.min] and [Math.max] on two finite numbers. *)
Definition Math_min (x y : Q) : Q := if Qle_bool x y then x else y.
Definition Math_max (x y : Q) : Q := if Qle_bool x y then y else x.

(* ------------------------------------------------------------------ *)
(** ** Risk scorer (trading-signals: calculateRiskScore)               *)
(* ------------------------------------------------------------------ *)

Record MarketData := mkMarketData {
  rsi : Q;
  macd : Q;
  signal : Q;
  volume : Q;
  price : Q
}.

Definition calculateRiskScore (marketData : MarketData) (sentimentScore : Q) : Q :=
  let riskScore := 0.5 in
  let riskScore :=
    if Qgtb (rsi marketData) 70 then riskScore + 0.1
    else if Qltb (rsi marketData) 30 then riskScore - 0.1
    else riskScore in
  let riskScore :=
    if Qgtb (macd marketData) (signal marketData) then riskScore - 0.05
    else riskScore + 0.05 in
  let riskScore :=
    if Qgtb (volume marketData) 1000000 then riskScore + 0.05
    else riskScore in
  let riskScore := riskScore + (sentimentScore - 0.5) * 0.2 in
  Math_max 0 (Math_min 1 riskScore).

(** The formula as the specification words it: independent adjustments
    summed onto 0.5, then clamped. *)
Definition spec_adjust (cond : bool) (delta : Q) : Q := if cond then delta else 0.

Definition spec_clamp01 (x : Q) : Q := Qmax 0 (Qmin 1 x).

Definition riskScoreSpec (m : MarketData) (sentiment : Q) : Q :=
  spec_clamp01
    (0.5
     + spec_adjust (Qgtb (rsi m) 70) 0.1
     - spec_adjust (Qltb (rsi m) 30) 0.1
     + (if Qgtb (macd m) (signal m) then - 0.05 else 0.05)
     + spec_adjust (Qgtb (volume m) 1000000) 0.05
     + (sentiment - 0.5) * 0.2).

Definition scenarioSnapshot : MarketData :=
  mkMarketData 75 0.1 0.05 2000000 50000.

(* ------------------------------------------------------------------ *)
(** ** Performance tracker (model-tracking.ts)                         *)
(* ------------------------------------------------------------------ *)

Module Tracker.

Inductive ModelType := tapas | distilbert | flant5 | bart.

Definition ModelType_eqb (a b : ModelType) : bool :=
  match a, b with
  | tapas, tapas | distilbert, distilbert | flant5, flant5 | bart, bart => true
  | _, _ => false
  end.

Record ModelPrediction := mkPrediction {
  p_id : str;
  p_timestamp : Q;
  p_modelType : ModelType;
  p_input : str;
  p_output : str;
  p_latency : Q;
  p_success : bool;
  p_error : option str
}.

(** [Omit<ModelPrediction, "id">] *)
Record PredictionInput := mkPredictionInput {
  i_timestamp : Q;
  i_modelType : ModelType;
  i_input : str;
  i_output : str;
  i_latency : Q;
  i_success : bool;
  i_error : option str
}.

Record ModelOutcome := mkOutcome {
  o_predictionId : str;
  o_timestamp : Q;
  o_correct : bool;
  o_actualOutcome : str;
  o_notes : option str
}.

Record ModelPerformanceMetrics := mkMetrics {
  m_modelType : ModelType;
  m_totalPredictions : nat;
  m_successRate : Q;
  m_averageLatency : Q;
  m_accuracy : option Q;
  m_lastUsed : Q;
  m_errorRate : Q
}.

Inductive Status := connected | disconnected | degraded | unknown.

Record ConnectionStatus := mkConnectionStatus {
  c_modelType : ModelType;
  c_status : Status;
  c_lastChecked : Q;
  c_responseTime : Q;
  c_errorMessage : option str
}.

(** [Omit<ConnectionStatus, "lastChecked">] *)
Record StatusInput := mkStatusInput {
  s_modelType : ModelType;
  s_status : Status;
  s_responseTime : Q;
  s_errorMessage : option str
}.

Record ModelPerformanceData := mkStore {
  predictions : list ModelPrediction;
  outcomes : list ModelOutcome;
  metrics : list ModelPerformanceMetrics;
  connectionStatus : list ConnectionStatus
}.

(** The module-level [serverStore] as the module initialises it. *)
Definition serverStore0 : ModelPerformanceData := mkStore [] [] [] [].

Definition models : list ModelType := [tapas; distilbert; flant5; bart].

Definition initializeConnectionStatus : list ConnectionStatus :=
  map (fun model => mkConnectionStatus model unknown 0 0 None) models.

Definition initializeMetrics : list ModelPerformanceMetrics :=
  map (fun model => mkMetrics model 0 0 0 None 0 0) models.

Definition initializeStore (s : ModelPerformanceData) : ModelPerformanceData :=
  let s :=
    if isEmpty (connectionStatus s)
    then mkStore (predictions s) (outcomes s) (metrics s) initializeConnectionStatus
    else s in
  if isEmpty (metrics s)
  then mkStore (predictions s) (outcomes s) initializeMetrics (connectionStatus s)
  else s.

(** [arr.findIndex(p)]; [None] stands for [-1]. *)
Fixpoint findIndex {A} (p : A -> bool) (l : list A) : option nat :=
  match l with
  | [] => None
  | x :: l' => if p x then Some 0%nat else option_map S (findIndex p l')
  end.

(** [arr[i] = x] for an index inside the array. *)
Fixpoint setAt {A} (i : nat) (x : A) (l : list A) : list A :=
  match l, i with
  | [], _ => []
  | _ :: l', O => x :: l'
  | y :: l', S i' => y :: setAt i' x l'
  end.

(** [arr.slice(-n)] *)
Definition sliceLast {A} (n : nat) (l : list A) : list A :=
  skipn (length l - n) l.

Definition updateMetric (metric : ModelPerformanceMetrics) (prediction : PredictionInput)
  : ModelPerformanceMetrics :=
  let totalPredictions := S (m_totalPredictions metric) in
  let successCount :=
    m_successRate metric * ofNat (m_totalPredictions metric)
    + (if i_success prediction then 1 else 0) in
  let totalLatency :=
    m_averageLatency metric * ofNat (m_totalPredictions metric)
    + i_latency prediction in
  mkMetrics (m_modelType metric)
            totalPredictions
            (successCount / ofNat totalPredictions)
            (totalLatency / ofNat totalPredictions)
            (m_accuracy metric)
            (i_timestamp prediction)
            ((ofNat totalPredictions - successCount) / ofNat totalPredictions).

(** [recordPrediction]; [id] is the identifier the source builds from the
    clock and the random generator. *)
Definition recordPrediction (prediction : PredictionInput) (id : str)
  (s : ModelPerformanceData) : ModelPerformanceData * str :=
  let s := initializeStore s in
  let newPrediction :=
    mkPrediction id (i_timestamp prediction) (i_modelType prediction)
      (i_input prediction) (i_output prediction) (i_latency prediction)
      (i_success prediction) (i_error prediction) in
  let preds := predictions s ++ [newPrediction] in
  let mets :=
    match findIndex (fun m => ModelType_eqb (m_modelType m) (i_modelType prediction))
                    (metrics s) with
    | Some metricIndex =>
        match nth_error (metrics s) metricIndex with
        | Some metric => setAt metricIndex (updateMetric metric prediction) (metrics s)
        | None => metrics s
        end
    | None => metrics s
    end in
  let preds :=
    if (1000 <? length preds)%nat then sliceLast 1000 preds else preds in
  (mkStore preds (outcomes s) mets (connectionStatus s), id).

Definition withAccuracy (metric : ModelPerformanceMetrics) (a : option Q)
  : ModelPerformanceMetrics :=
  mkMetrics (m_modelType metric) (m_totalPredictions metric) (m_successRate metric)
            (m_averageLatency metric) a (m_lastUsed metric) (m_errorRate metric).

Definition recordOutcome (outcome : ModelOutcome) (s : ModelPerformanceData)
  : ModelPerformanceData :=
  let s := initializeStore s in
  let outs := outcomes s ++ [outcome] in
  let mets :=
    match find (fun p => str_eqb (p_id p) (o_predictionId outcome)) (predictions s) with
    | Some prediction =>
        match findIndex (fun m => ModelType_eqb (m_modelType m) (p_modelType prediction))
                        (metrics s) with
        | Some metricIndex =>
            match nth_error (metrics s) metricIndex with
            | Some metric =>
                let outcomes' :=
                  filter (fun o =>
                            existsb (fun p => str_eqb (p_id p) (o_predictionId o)
                                              && ModelType_eqb (p_modelType p)
                                                               (p_modelType prediction))
                                    (predictions s))
                         outs in
                let correctOutcomes := length (filter o_correct outcomes') in
                setAt metricIndex
                  (withAccuracy metric
                     (if (0 <? length outcomes')%nat
                      then Some (ofNat correctOutcomes / ofNat (length outcomes'))
                      else None))
                  (metrics s)
            | None => metrics s
            end
        | None => metrics s
        end
    | None => metrics s
    end in
  let outs := if (1000 <? length outs)%nat then sliceLast 1000 outs else outs in
  mkStore (predictions s) outs mets (connectionStatus s).

(** [updateConnectionStatus]; [now] is the reading of [Date.now()]. *)
Definition updateConnectionStatus (status : StatusInput) (now : Q)
  (s : ModelPerformanceData) : ModelPerformanceData :=
  let s := initializeStore s in
  match findIndex (fun c => ModelType_eqb (c_modelType c) (s_modelType status))
                  (connectionStatus s) with
  | Some index =>
      mkStore (predictions s) (outcomes s) (metrics s)
        (setAt index
           (mkConnectionStatus (s_modelType status) (s_status status) now
              (s_responseTime status) (s_errorMessage status))
           (connectionStatus s))
  | None => s
  end.

(** A call of one of the module's mutating exports. *)
Inductive Op :=
| RecordPrediction (prediction : PredictionInput) (id : str)
| RecordOutcome (outcome : ModelOutcome)
| UpdateConnectionStatus (status : StatusInput) (now : Q).

Definition step (s : ModelPerformanceData) (op : Op) : ModelPerformanceData :=
  match op with
  | RecordPrediction p id => fst (recordPrediction p id s)
  | RecordOutcome o => recordOutcome o s
  | UpdateConnectionStatus st now => updateConnectionStatus st now s
  end.

(** The store after a sequence of calls on a freshly loaded module. *)
Definition run (ops : list Op) : ModelPerformanceData :=
  fold_left step ops serverStore0.

(** Every prediction the calls recorded, oldest first. *)
Fixpoint recordedPredictions (ops : list Op) : list ModelPrediction :=
  match ops with
  | [] => []
  | RecordPrediction p id :: ops' =>
      mkPrediction id (i_timestamp p) (i_modelType p) (i_input p) (i_output p)
        (i_latency p) (i_success p) (i_error p) :: recordedPredictions ops'
  | _ :: ops' => recordedPredictions ops'
  end.

Fixpoint recordedOutcomes (ops : list Op) : list ModelOutcome :=
  match ops with
  | [] => []
  | RecordOutcome o :: ops' => o :: recordedOutcomes ops'
  | _ :: ops' => recordedOutcomes ops'
  end.

(** Number of recorded predictions of a capability, and of its successes. *)
Definition countOf (t : ModelType) (ops : list Op) : nat :=
  length (filter (fun p => ModelType_eqb (p_modelType p) t) (recordedPredictions ops)).

Definition successesOf (t : ModelType) (ops : list Op) : nat :=
  length (filter (fun p => ModelType_eqb (p_modelType p) t && p_success p)
                 (recordedPredictions ops)).

End Tracker.

(* ------------------------------------------------------------------ *)
(** ** Execution gate (trading-service.ts: TradingService)             *)
(* ------------------------------------------------------------------ *)

Module Gate.

Inductive Side := BUY | SELL.

(** The action parameter, ["BUY" | "SELL" | "HOLD"]. *)
Inductive Action := Trade (side : Side) | HOLD.

Definition isHold (a : Action) : bool :=
  match a with HOLD => true | Trade _ => false end.

Inductive OrderType := MARKET | LIMIT | STOP_LOSS_LIMIT | TAKE_PROFIT_LIMIT.

Inductive OrderStatus :=
  NEW | PARTIALLY_FILLED | FILLED | CANCELED | PENDING_CANCEL | REJECTED | EXPIRED.

Inductive PositionSide := BOTH | LONG | SHORT.

(** [Order]; the action a caller passed is stored in [side] as it is. *)
Record Order := mkOrder {
  id : str;
  symbol : str;
  side : Action;
  type : OrderType;
  status : OrderStatus;
  quantity : Q;
  price : option Q;
  stopPrice : option Q;
  executedQty : Q;
  executedPrice : option Q;
  commission : option Q;
  commissionAsset : option str;
  timestamp : N;
  clientOrderId : option str;
  reduceOnly : option bool;
  positionSide : option PositionSide
}.

Record TradeExecutionResult := mkResult {
  success : bool;
  orderId : option str;
  errorMessage : option str;
  order : option Order
}.

Record AccountBalance := mkBalance {
  asset : str;
  free : Q;
  locked : Q;
  total : Q
}.

Record RiskParameters := mkRisk {
  maxPositionSize : Q;
  maxLeverage : Q;
  stopLossPercent : Q;
  takeProfitPercent : Q;
  maxDailyLoss : Q;
  maxDrawdownPercent : Q
}.

(** [TradingConfig], without the fields only the futures service reads. *)
Record TradingConfig := mkConfig {
  enabled : bool;
  testMode : bool;
  riskParameters : RiskParameters;
  allowedSymbols : list str
}.

Record MarketOrder := mkMarketOrder {
  mo_symbol : str;
  mo_side : Side;
  mo_quantity : Q
}.

(** [StopLossOrder] and [TakeProfitOrder] have the same fields. *)
Record StopOrder := mkStopOrder {
  so_symbol : str;
  so_side : Side;
  so_quantity : Q;
  so_stopPrice : Q;
  so_price : Q
}.

(** A request sent to the exchange client. *)
Inductive ExchangeCall :=
| GetBalances
| GetCurrentPrice (symbol : str)
| PlaceMarketOrder (o : MarketOrder)
| PlaceStopLossOrder (o : StopOrder)
| PlaceTakeProfitOrder (o : StopOrder).

(** The exchange client [BinanceApi]: the answer to each request, given the
    requests made before it.  [inl msg] is a rejected promise carrying an
    error with that message. *)
Record Exchange := mkExchange {
  getBalances : list ExchangeCall -> str + list AccountBalance;
  getCurrentPrice : list ExchangeCall -> str -> str + Q;
  placeMarketOrder : list ExchangeCall -> MarketOrder -> str + TradeExecutionResult;
  placeStopLossOrder : list ExchangeCall -> StopOrder -> str + TradeExecutionResult;
  placeTakeProfitOrder : list ExchangeCall -> StopOrder -> str + TradeExecutionResult
}.

Record Env := mkEnv {
  exchange : Exchange;
  (** the k-th reading of [Date.now()] *)
  dateNow : nat -> N
}.

(** What a run has done so far: the exchange requests, oldest first, and the
    number of clock readings. *)
Record World := mkWorld {
  calls : list ExchangeCall;
  clockReads : nat
}.

Definition world0 : World := mkWorld [] 0.

(** Computations that read the environment, extend the world and either
    return or throw an error message. *)
Definition M (A : Type) : Type := Env -> World -> (str + A) * World.

Definition ret {A} (a : A) : M A := fun _ w => (inr a, w).

Definition bind {A B} (m : M A) (k : A -> M B) : M B :=
  fun env w =>
    match m env w with
    | (inr a, w') => k a env w'
    | (inl msg, w') => (inl msg, w')
    end.

Definition try_catch {A} (m : M A) (handler : str -> M A) : M A :=
  fun env w =>
    match m env w with
    | (inr a, w') => (inr a, w')
    | (inl msg, w') => handler msg env w'
    end.

Notation "x <- m ;; k" := (bind m (fun x => k))
  (at level 61, m at next level, right associativity).

Definition request {A} (c : ExchangeCall)
  (answer : Exchange -> list ExchangeCall -> str + A) : M A :=
  fun env w =>
    (answer (exchange env) (calls w), mkWorld (calls w ++ [c]) (clockReads w)).

Definition api_getBalances : M (list AccountBalance) :=
  request GetBalances getBalances.

Definition api_getCurrentPrice (symbol : str) : M Q :=
  request (GetCurrentPrice symbol) (fun ex h => getCurrentPrice ex h symbol).

Definition api_placeMarketOrder (o : MarketOrder) : M TradeExecutionResult :=
  request (PlaceMarketOrder o) (fun ex h => placeMarketOrder ex h o).

Definition api_placeStopLossOrder (o : StopOrder) : M TradeExecutionResult :=
  request (PlaceStopLossOrder o) (fun ex h => placeStopLossOrder ex h o).

Definition api_placeTakeProfitOrder (o : StopOrder) : M TradeExecutionResult :=
  request (PlaceTakeProfitOrder o) (fun ex h => placeTakeProfitOrder ex h o).

Definition Date_now : M N :=
  fun env w => (inr (dateNow env (clockReads w)), mkWorld (calls w) (S (clockReads w))).

(** The private fields of a [TradingService] instance. *)
Record TradingService := mkService {
  config : TradingConfig;
  dailyPnL : Q;
  initialBalance : Q;
  currentDrawdown : Q
}.

Definition failure (msg : str) : TradeExecutionResult :=
  mkResult false None (Some msg) None.

Definition isUSDT (b : AccountBalance) : bool := str_eqb (asset b) (lit "USDT").

Definition calculatePositionSize (svc : TradingService)
  (availableBalance confidence : Q) : Q :=
  let positionSize := maxPositionSize (riskParameters (config svc)) in
  let positionSize := positionSize * confidence in
  let positionSize := Math_min positionSize availableBalance in
  inject_Z (Qfloor (positionSize * 100)) / 100.

(** [checkRiskParameters].  The assignment to [this.currentDrawdown] is left
    out: no method reads that field. *)
Definition checkRiskParameters (svc : TradingService) : M bool :=
  let risk := riskParameters (config svc) in
  try_catch
    (if Qltb (dailyPnL svc) (- maxDailyLoss risk) then ret false
     else
       balances <- api_getBalances ;;
       match find isUSDT balances with
       | Some usdtBalance =>
           if Qgtb (initialBalance svc) 0 then
             let currentDrawdown := 1 - total usdtBalance / initialBalance svc in
             if Qgtb currentDrawdown (maxDrawdownPercent risk / 100)
             then ret false else ret true
           else ret true
       | None => ret true
       end)
    (fun _ => ret false).

(** A promise that was created and not awaited. *)
Inductive Promise (A : Type) := promised (outcome : str + A).

(** Calling an async function without [await]: it runs up to its first
    suspension, where [checkRiskParameters] has sent its one request; the
    outcome stays inside the promise, and the caller goes on. *)
Definition startAsync {A} (m : M A) : M (Promise A) :=
  fun env w => let '(r, w') := m env w in (inr (promised r), w').

(** [!p] for a promise object [p]: an object is truthy. *)
Definition notPromise {A} (p : Promise A) : bool := false.

Definition placeStopLossAndTakeProfit (svc : TradingService)
  (symbol : str) (side : Side) (quantity entryPrice : Q) : M unit :=
  let risk := riskParameters (config svc) in
  try_catch
    (let stopLossPercent := stopLossPercent risk / 100 in
     let takeProfitPercent := takeProfitPercent risk / 100 in
     match side with
     | BUY =>
         let stopLossPrice := entryPrice * (1 - stopLossPercent) in
         let takeProfitPrice := entryPrice * (1 + takeProfitPercent) in
         _ <- api_placeStopLossOrder
                (mkStopOrder symbol SELL quantity stopLossPrice (stopLossPrice * 0.99)) ;;
         _ <- api_placeTakeProfitOrder
                (mkStopOrder symbol SELL quantity takeProfitPrice (takeProfitPrice * 0.99)) ;;
         ret tt
     | SELL =>
         let stopLossPrice := entryPrice * (1 + stopLossPercent) in
         let takeProfitPrice := entryPrice * (1 - takeProfitPercent) in
         _ <- api_placeStopLossOrder
                (mkStopOrder symbol BUY quantity stopLossPrice (stopLossPrice * 1.01)) ;;
         _ <- api_placeTakeProfitOrder
                (mkStopOrder symbol BUY quantity takeProfitPrice (takeProfitPrice * 1.01)) ;;
         ret tt
     end)
    (fun _ => ret tt).

Definition testOrder (id symbol : str) (action : Action) (timestamp : N) : Order :=
  mkOrder id symbol action MARKET FILLED 0 None None 0 None None None
          timestamp None None None.

Definition executeTrade (svc : TradingService)
  (symbol : str) (action : Action) (confidence : Q) : M TradeExecutionResult :=
  let cfg := config svc in
  if negb (enabled cfg) || isHold action then
    ret (failure (if negb (enabled cfg)
                  then lit "Trading is disabled in configuration"
                  else lit "Action is HOLD, no trade executed"))
  else if negb (arrayIncludes symbol (allowedSymbols cfg)) then
    ret (failure (lit "Symbol " ++ symbol ++ lit " is not in the allowed symbols list"))
  else
    try_catch
      (if testMode cfg then
         t1 <- Date_now ;;
         t2 <- Date_now ;;
         t3 <- Date_now ;;
         ret (mkResult true
                (Some (lit "test_" ++ NToString t1))
                None
                (Some (testOrder (lit "test_" ++ NToString t2) symbol action t3)))
       else
         verdict <- startAsync (checkRiskParameters svc) ;;
         if notPromise verdict then
           ret (failure (lit "Trade rejected due to risk parameters"))
         else
           balances <- api_getBalances ;;
           match find isUSDT balances with
           | None => ret (failure (lit "Insufficient USDT balance"))
           | Some usdtBalance =>
               if Qle_bool (free usdtBalance) 0 then
                 ret (failure (lit "Insufficient USDT balance"))
               else
                 let positionSize :=
                   calculatePositionSize svc (free usdtBalance) confidence in
                 currentPrice <- api_getCurrentPrice symbol ;;
                 let quantity := positionSize / currentPrice in
                 match action with
                 | Trade s =>
                     result <- api_placeMarketOrder (mkMarketOrder symbol s quantity) ;;
                     match success result, order result with
                     | true, Some o =>
                         _ <- placeStopLossAndTakeProfit svc symbol s
                                (executedQty o) currentPrice ;;
                         ret result
                     | _, _ => ret result
                     end
                 | HOLD => ret (failure (lit "Invalid action"))
                 end
           end)
      (fun msg => ret (failure msg)).

(** Running a call from an untouched world. *)
Definition runCall {A} (m : M A) (env : Env) : (str + A) * World := m env world0.

End Gate.

(* ------------------------------------------------------------------ *)
(** ** Numbers in text                                                 *)
(* ------------------------------------------------------------------ *)

(** The two ECMAScript conversions from a number to text that the sources
    use: [x.toFixed(d)] and the conversion behind template literals and
    [x.toString()].  They are built-ins of the language; the pipeline is
    defined over any pair of them. *)
Class NumberFormat := {
  toFixed : nat -> Q -> str;
  numberToString : Q -> str
}.

(** The line feed of ["\n"]. *)
Definition nl : str := ["010"%char].

(** A number that may be NaN, inside a template literal. *)
Definition showNumber {F : NumberFormat} (x : option Q) : str :=
  match x with
  | Some q => numberToString q
  | None => lit "NaN"
  end.

(** Comparisons on numbers that may be NaN: false as soon as one side is. *)
Definition gtN (x y : option Q) : bool :=
  match x, y with
  | Some a, Some b => Qgtb a b
  | _, _ => false
  end.

Definition ltN (x y : option Q) : bool := gtN y x.

Definition charIs (a : ascii) (c : ascii) : bool := Ascii.eqb c a.

Definition digitVal (c : ascii) : Z := Z.of_nat (code c - 48).

Definition digitsToZ (ds : str) : Z :=
  fold_left (fun acc c => 10 * acc + digitVal c)%Z ds 0%Z.

(** [Number.parseFloat] on text without exponent part and other than
    "Infinity": optional white space, an optional sign, then the longest
    prefix of the form digits, digits.digits, digits. or .digits; NaN when
    there is no digit. *)
Definition parseFloat (s : str) : option Q :=
  let s := dropWhile isSpace s in
  let '(negative, s) :=
    match s with
    | c :: r => if charIs "-" c then (true, r)
                else if charIs "+" c then (false, r)
                else (false, s)
    | [] => (false, s)
    end in
  let intPart := takeWhile isDigit s in
  let rest := dropWhile isDigit s in
  let fracPart :=
    match rest with
    | c :: r => if charIs "." c then takeWhile isDigit r else []
    | [] => []
    end in
  if isEmpty intPart && isEmpty fracPart then None
  else
    let v := inject_Z (digitsToZ intPart)
             + inject_Z (digitsToZ fracPart) / inject_Z (10 ^ Z.of_nat (length fracPart)) in
    Some (if negative then - v else v).

(* ------------------------------------------------------------------ *)
(** ** Local heuristics (huggingface.ts: the fallback functions)       *)
(* ------------------------------------------------------------------ *)

Definition orElse {A} (a b : option A) : option A :=
  match a with
  | Some _ => a
  | None => b
  end.

(** [s.match(/KEY REST/)?.[1]] for a literal [key] followed by a deterministic
    remainder [rest] that yields the captured group: the leftmost position at
    which both match. *)
Fixpoint matchAfter (key : str) (rest : str -> option str) (s : str) : option str :=
  match (if startsWith key s then rest (skipn (length key) s) else None) with
  | Some captured => Some captured
  | None =>
      match s with
      | [] => None
      | _ :: s' => matchAfter key rest s'
      end
  end.

(** The group [([...]+)]: the longest non-empty run of characters of the class. *)
Definition capture (cls : ascii -> bool) (s : str) : option str :=
  let run := takeWhile cls s in
  if isEmpty run then None else Some run.

(** [:?\s*([...]+)] *)
Definition restColon (cls : ascii -> bool) (s : str) : option str :=
  let s := match s with
           | c :: r => if charIs ":" c then r else s
           | [] => s
           end in
  capture cls (dropWhile isSpace s).

(** [\s+(?:is|of|at|=)\s*([...]+)] *)
Definition restWord (cls : ascii -> bool) (s : str) : option str :=
  match s with
  | c :: _ =>
      if isSpace c then
        let s := dropWhile isSpace s in
        let afterWord :=
          if startsWith (lit "is") s then Some (skipn 2 s)
          else if startsWith (lit "of") s then Some (skipn 2 s)
          else if startsWith (lit "at") s then Some (skipn 2 s)
          else if startsWith (lit "=") s then Some (skipn 1 s)
          else None in
        match afterWord with
        | Some s => capture cls (dropWhile isSpace s)
        | None => None
        end
      else None
  | [] => None
  end.

(** [[\d.]] and [[-\d.]] *)
Definition isUnsignedChar (c : ascii) : bool := isDigit c || charIs "." c.
Definition isSignedChar (c : ascii) : bool := charIs "-" c || isDigit c || charIs "." c.

(** [Number.parseFloat(p.match(/key:?\s*(..)/)?.[1] || p.match(/key\s+(?:is|of|at|=)\s*(..)/)?.[1] || dflt)];
    a captured group is never empty, hence truthy. *)
Definition extractNumber (key : str) (cls : ascii -> bool) (dflt : str)
  (promptLower : str) : option Q :=
  parseFloat
    (match orElse (matchAfter key (restColon cls) promptLower)
                  (matchAfter key (restWord cls) promptLower) with
     | Some captured => captured
     | None => dflt
     end).

Record Indicators := mkIndicators {
  ind_rsi : option Q;
  ind_macd : option Q;
  ind_signal : option Q;
  ind_risk : option Q
}.

Definition extractIndicators (promptLower : str) : Indicators :=
  mkIndicators
    (extractNumber (lit "rsi") isUnsignedChar (lit "50") promptLower)
    (extractNumber (lit "macd") isSignedChar (lit "0") promptLower)
    (extractNumber (lit "signal") isSignedChar (lit "0") promptLower)
    (extractNumber (lit "risk") isUnsignedChar (lit "0.5") promptLower).

Record MarketConditions := mkConditions {
  volatile : bool;
  trending : bool;
  uptrend : bool;
  downtrend : bool;
  sideways : bool
}.

Definition detectConditions (promptLower : str) : MarketConditions :=
  mkConditions
    (includes (lit "volatile") promptLower || includes (lit "volatility") promptLower)
    (includes (lit "trending") promptLower || includes (lit "trend") promptLower)
    (includes (lit "uptrend") promptLower || includes (lit "bullish") promptLower)
    (includes (lit "downtrend") promptLower || includes (lit "bearish") promptLower)
    (includes (lit "sideways") promptLower || includes (lit "range") promptLower).

(** [Object.entries(marketConditions).filter(([_, d]) => d).map(([c, _]) => c)] *)
Definition detectedConditions (mc : MarketConditions) : list str :=
  map fst
    (filter snd
       [(lit "volatile", volatile mc); (lit "trending", trending mc);
        (lit "uptrend", uptrend mc); (lit "downtrend", downtrend mc);
        (lit "sideways", sideways mc)]).

Record DecisionResult := mkDecision {
  decision : str;
  d_reasoning : str
}.

(** [reasoning += `- ${decisionReason}\n`; return { decision, reasoning }] *)
Definition decide (decision decisionReason reasoning : str) : DecisionResult :=
  mkDecision decision (reasoning ++ lit "- " ++ decisionReason ++ nl).

Definition fallbackDecisionMaking {F : NumberFormat} (prompt : str) : DecisionResult :=
  let promptLower := toLowerCase prompt in
  let reasoning := lit "Trading decision reasoning:" ++ nl in
  let indicators := extractIndicators promptLower in
  let reasoning :=
    reasoning ++ lit "- Extracted indicators: RSI=" ++ showNumber (ind_rsi indicators)
    ++ lit ", MACD=" ++ showNumber (ind_macd indicators)
    ++ lit ", Signal=" ++ showNumber (ind_signal indicators)
    ++ lit ", Risk=" ++ showNumber (ind_risk indicators) ++ nl in
  let marketConditions := detectConditions promptLower in
  let detected := detectedConditions marketConditions in
  let reasoning :=
    if (0 <? length detected)%nat
    then reasoning ++ lit "- Detected market conditions: "
         ++ join (lit ", ") detected ++ nl
    else reasoning ++ lit "- No specific market conditions detected" ++ nl in
  (* 1. High risk override *)
  if gtN (ind_risk indicators) (Some 0.7) then
    decide (lit "HOLD")
      (lit "High risk level (> 0.7) detected, recommending HOLD as a conservative approach")
      reasoning
  (* 2. RSI-based decisions *)
  else if gtN (ind_rsi indicators) (Some 70) then
    decide (lit "SELL")
      (lit "RSI > 70 indicates overbought conditions, suggesting SELL") reasoning
  else if ltN (ind_rsi indicators) (Some 30) then
    decide (lit "BUY")
      (lit "RSI < 30 indicates oversold conditions, suggesting BUY") reasoning
  else
    (* 3. MACD-based decisions: a result, or the reasoning to go on with *)
    let macdStep : DecisionResult + str :=
      if gtN (ind_macd indicators) (Some 0)
         && gtN (ind_macd indicators) (ind_signal indicators) then
        if ltN (ind_risk indicators) (Some 0.5) then
          inl (decide (lit "BUY")
                 (lit "MACD is positive and above signal line with acceptable risk, suggesting BUY")
                 reasoning)
        else
          inr (reasoning
               ++ lit "- MACD is bullish but risk is elevated, continuing analysis" ++ nl)
      else if ltN (ind_macd indicators) (Some 0)
              && ltN (ind_macd indicators) (ind_signal indicators) then
        inl (decide (lit "SELL")
               (lit "MACD is negative and below signal line, suggesting SELL") reasoning)
      else inr reasoning in
    match macdStep with
    | inl result => result
    | inr reasoning =>
        (* 4. Market condition based decisions *)
        if volatile marketConditions && gtN (ind_risk indicators) (Some 0.5) then
          decide (lit "HOLD")
            (lit "Market is volatile with moderate to high risk, suggesting HOLD") reasoning
        else if uptrend marketConditions && ltN (ind_risk indicators) (Some 0.6) then
          decide (lit "BUY")
            (lit "Market is in uptrend with acceptable risk, suggesting BUY") reasoning
        else if downtrend marketConditions then
          decide (lit "SELL") (lit "Market is in downtrend, suggesting SELL") reasoning
        else if sideways marketConditions then
          decide (lit "HOLD") (lit "Market is moving sideways, suggesting HOLD") reasoning
        else
          mkDecision (lit "HOLD")
            (reasoning ++ lit "- No strong signals detected, defaulting to HOLD" ++ nl)
    end.

Record SentimentResult := mkSentiment {
  score : Q;
  s_reasoning : str
}.

Definition positiveKeywords : list (str * Q) :=
  [(lit "bullish", 0.8); (lit "uptrend", 0.7); (lit "buy", 0.6); (lit "growth", 0.6);
   (lit "increase", 0.5); (lit "gain", 0.5); (lit "profit", 0.5); (lit "positive", 0.5);
   (lit "strong", 0.4); (lit "opportunity", 0.4); (lit "support", 0.3);
   (lit "recovery", 0.3); (lit "momentum", 0.3)].

Definition negativeKeywords : list (str * Q) :=
  [(lit "bearish", 0.8); (lit "downtrend", 0.7); (lit "sell", 0.6); (lit "decline", 0.6);
   (lit "decrease", 0.5); (lit "loss", 0.5); (lit "negative", 0.5); (lit "weak", 0.4);
   (lit "risk", 0.4); (lit "resistance", 0.3); (lit "correction", 0.3);
   (lit "volatile", 0.3)].

(** One of the two keyword loops: the running score of the list, the running
    total weight and the matched words. *)
Definition scanKeywords (keywords : list (str * Q)) (lowerText : str)
  (start : Q * Q * list str) : Q * Q * list str :=
  fold_left
    (fun st kw =>
       let '(sc, totalWeight, matched) := st in
       if includes (fst kw) lowerText
       then (sc + snd kw, totalWeight + snd kw, matched ++ [fst kw])
       else st)
    keywords start.

Definition fallbackSentimentAnalysis {F : NumberFormat} (text : str) : SentimentResult :=
  let lowerText := toLowerCase text in
  let '(positiveScore, totalWeight, matchedPositive) :=
    scanKeywords positiveKeywords lowerText (0, 0, []) in
  let '(negativeScore, totalWeight, matchedNegative) :=
    scanKeywords negativeKeywords lowerText (0, totalWeight, []) in
  if Qeq_bool totalWeight 0 then
    mkSentiment 0.5
      (lit "No clear sentiment indicators found in the text. Assigning neutral sentiment.")
  else
    let score := positiveScore / (positiveScore + negativeScore) in
    let reasoning := lit "Sentiment analysis based on keyword matching:" ++ nl in
    let reasoning :=
      if (0 <? length matchedPositive)%nat
      then reasoning ++ lit "- Positive indicators: "
           ++ join (lit ", ") matchedPositive ++ nl
      else reasoning in
    let reasoning :=
      if (0 <? length matchedNegative)%nat
      then reasoning ++ lit "- Negative indicators: "
           ++ join (lit ", ") matchedNegative ++ nl
      else reasoning in
    let reasoning :=
      reasoning ++ lit "- Overall sentiment: "
      ++ (if Qltb score 0.4 then lit "Negative"
          else if Qgtb score 0.6 then lit "Positive" else lit "Neutral")
      ++ lit " (" ++ toFixed 1 (score * 100) ++ lit "%)" in
    mkSentiment score reasoning.

Record SummaryResult := mkSummary {
  summary : str;
  b_reasoning : str
}.

Definition isTerminator (c : ascii) : bool :=
  charIs "." c || charIs "!" c || charIs "?" c.

(** [text.split(/[.!?]+/).filter((s) => s.trim().length > 0)] *)
Definition sentencesOf (text : str) : list str :=
  filter (fun s => (0 <? length (trim s))%nat) (splitRuns isTerminator text).

Definition stopWords : list str :=
  [lit "the"; lit "and"; lit "that"; lit "this"; lit "with"; lit "for"; lit "was";
   lit "were"; lit "from"; lit "have"; lit "has"].

(** [sentence.toLowerCase().split(/\s+/)] *)
Definition wordsOf (sentence : str) : list str :=
  splitRuns isSpace (toLowerCase sentence).

(** A value held by the object [wordFrequency]: a count, or the text that
    adding 1 to an inherited member produces. *)
Inductive Count :=
| Number (n : nat)
| Text (s : str).

(** The own properties of [wordFrequency], in creation order. *)
Definition Frequencies := list (str * Count).

(** What a plain object inherits under an all-lower-case name (the words are
    lower-cased), converted to text as an addition converts it:
    [String(Object)], as Node prints a native function, and
    [String(Object.prototype)]. *)
Definition inheritedMember (word : str) : option str :=
  if str_eqb word (lit "constructor")
  then Some (lit "function Object() { [native code] }")
  else if str_eqb word (lit "__proto__") then Some (lit "[object Object]")
  else None.

Fixpoint getOwn (word : str) (f : Frequencies) : option Count :=
  match f with
  | [] => None
  | (w, v) :: f' => if str_eqb w word then Some v else getOwn word f'
  end.

(** [wordFrequency[word]]: the own property, else the inherited member;
    [None] is undefined. *)
Definition getFreq (word : str) (f : Frequencies) : option Count :=
  match getOwn word f with
  | Some v => Some v
  | None => option_map Text (inheritedMember word)
  end.

(** Whether a value is truthy. *)
Definition truthy (v : option Count) : bool :=
  match v with
  | Some (Number n) => (0 <? n)%nat
  | Some (Text s) => negb (isEmpty s)
  | None => false
  end.

(** [v || 0] *)
Definition orZero (v : option Count) : Count :=
  match v with
  | Some c => if truthy v then c else Number 0
  | None => Number 0
  end.

(** [a + b]: the sum of two numbers, and the concatenation as soon as one
    side is a text. *)
Definition jsAdd (a b : Count) : Count :=
  match a, b with
  | Number x, Number y => Number (x + y)
  | Number x, Text t => Text (natToString x ++ t)
  | Text s, Number y => Text (s ++ natToString y)
  | Text s, Text t => Text (s ++ t)
  end.

Fixpoint setOwn (word : str) (v : Count) (f : Frequencies) : Frequencies :=
  match f with
  | [] => [(word, v)]
  | (w, u) :: f' => if str_eqb w word then (w, v) :: f' else (w, u) :: setOwn word v f'
  end.

(** [wordFrequency[word] = v]; the assignment to __proto__ of a value that
    is not an object has no effect. *)
Definition setFreq (word : str) (v : Count) (f : Frequencies) : Frequencies :=
  if str_eqb word (lit "__proto__") then f else setOwn word v f.

Definition countWord (f : Frequencies) (word : str) : Frequencies :=
  if (3 <? length word)%nat && negb (arrayIncludes word stopWords)
  then setFreq word (jsAdd (orZero (getFreq word f)) (Number 1)) f
  else f.

Definition wordFrequencyOf (sentences : list str) : Frequencies :=
  fold_left (fun f sentence => fold_left countWord (wordsOf sentence) f) sentences [].

(** A property name that is an array index: the canonical numeral of an
    integer below 2^32 - 1.  Such properties are enumerated first, in
    ascending numeric order. *)
Definition isArrayIndex (k : str) : bool :=
  negb (isEmpty k) && forallb isDigit k
  && (str_eqb k (lit "0") || negb (startsWith (lit "0") k))
  && (digitsToZ k <=? 4294967294)%Z.

(** [arr.sort(cmp)], a stable sort; [le x y] says that [cmp(x, y) <= 0]. *)
Fixpoint insertBy {A} (le : A -> A -> bool) (x : A) (l : list A) : list A :=
  match l with
  | [] => [x]
  | y :: l' => if le x y then x :: y :: l' else y :: insertBy le x l'
  end.

Definition sortBy {A} (le : A -> A -> bool) (l : list A) : list A :=
  fold_right (insertBy le) [] l.

(** [Object.entries(o)] *)
Definition objectEntries (o : Frequencies) : Frequencies :=
  sortBy (fun a b => (digitsToZ (fst a) <=? digitsToZ (fst b))%Z)
         (filter (fun e => isArrayIndex (fst e)) o)
  ++ filter (fun e => negb (isArrayIndex (fst e))) o.

(** [`${count}`] *)
Definition showCount (c : Count) : str :=
  match c with
  | Number n => natToString n
  | Text s => s
  end.

(** Whether [b[1] - a[1] <= 0].  The difference is NaN as soon as one side
    is a text (each text that arises holds letters), and the sort reads a
    NaN as +0. *)
Definition byCount (a b : str * Count) : bool :=
  match snd a, snd b with
  | Number x, Number y => (y <=? x)%nat
  | _, _ => true
  end.

(** A scored sentence; the score [None] is NaN. *)
Record Scored := mkScored {
  sentence : str;
  sc_score : option Q;
  index : nat
}.

(** The score of a sentence: the sum of the values found for its words,
    divided by the number of words.  A sum that has become a text (each
    text that arises holds letters) divides to NaN. *)
Definition sentenceScore (wordFrequency : Frequencies) (sentence : str) : option Q :=
  let words := wordsOf sentence in
  let score :=
    fold_left
      (fun score word =>
         match getFreq word wordFrequency with
         | Some v => if truthy (Some v) then jsAdd score v else score
         | None => score
         end)
      words (Number 0) in
  match score with
  | Number n => Some (ofNat n / ofNat (length words))
  | Text _ => None
  end.

(** Whether [b.score - a.score <= 0], a NaN being read as +0 by the sort. *)
Definition byScore (a b : Scored) : bool :=
  match sc_score a, sc_score b with
  | Some x, Some y => Qle_bool y x
  | _, _ => true
  end.

(** Whether [a.index - b.index <= 0]. *)
Definition byIndex (a b : Scored) : bool := (index a <=? index b)%nat.

(** [score.toFixed(2)] *)
Definition showScore {F : NumberFormat} (score : option Q) : str :=
  match score with
  | Some q => toFixed 2 q
  | None => lit "NaN"
  end.

Fixpoint mapFrom {A B} (f : A -> nat -> B) (i : nat) (l : list A) : list B :=
  match l with
  | [] => []
  | x :: l' => f x i :: mapFrom f (S i) l'
  end.

(** [sentences.map((sentence, index) => ...)] *)
Definition sentenceScores (sentences : list str) : list Scored :=
  let wordFrequency := wordFrequencyOf sentences in
  mapFrom (fun sentence index =>
             mkScored sentence (sentenceScore wordFrequency sentence) index)
          0 sentences.

(** [Math.min(3, Math.ceil(sentences.length / 3))] *)
Definition numSentences (sentences : list str) : nat :=
  Nat.min 3 (Z.to_nat (Qceiling (ofNat (length sentences) / 3))).

(** [sentenceScores.sort((a, b) => b.score - a.score).slice(0, numSentences)].
    When a score is NaN the comparison function is not consistent and
    ECMAScript leaves the order to the implementation; the order below is
    then one of the admissible ones. *)
Definition topSentences (sentences : list str) : list Scored :=
  firstn (numSentences sentences) (sortBy byScore (sentenceScores sentences)).

(** [topSentences.sort((a, b) => a.index - b.index)] *)
Definition selectedSentences (sentences : list str) : list Scored :=
  sortBy byIndex (topSentences sentences).

(** [items.map((item) => item.trim()).join(". ") + "."] *)
Definition assemble (items : list str) : str :=
  join (lit ". ") (map trim items) ++ lit ".".

Definition fallbackSummarization {F : NumberFormat} (text : str) : SummaryResult :=
  let sentences := sentencesOf text in
  let reasoning := lit "Summarization reasoning:" ++ nl in
  match sentences with
  | [] =>
      mkSummary (lit "No content to summarize.")
        (reasoning ++ lit "- No content to summarize" ++ nl)
  | [only] =>
      mkSummary (trim only)
        (reasoning ++ lit "- Text contains only one sentence, returning as is" ++ nl)
  | first :: _ =>
      if (2 <? length sentences)%nat then
        let reasoning :=
          reasoning ++ lit "- Text contains " ++ natToString (length sentences)
          ++ lit " sentences, using frequency-based extraction" ++ nl in
        let wordFrequency := wordFrequencyOf sentences in
        let reasoning :=
          reasoning ++ lit "- Identified "
          ++ natToString (length (objectEntries wordFrequency))
          ++ lit " unique keywords" ++ nl in
        let topKeywords :=
          map (fun e => fst e ++ lit " (" ++ showCount (snd e) ++ lit ")")
              (firstn 5 (sortBy byCount (objectEntries wordFrequency))) in
        let reasoning :=
          reasoning ++ lit "- Top keywords: " ++ join (lit ", ") topKeywords ++ nl in
        let reasoning :=
          reasoning ++ lit "- Selected top " ++ natToString (numSentences sentences)
          ++ lit " sentences by relevance score" ++ nl in
        let reasoning :=
          reasoning ++ lit "- Sentence scores: "
          ++ join (lit ", ")
               (map (fun s => lit "#" ++ natToString (index s + 1) ++ lit " ("
                              ++ showScore (sc_score s) ++ lit ")")
                    (topSentences sentences))
          ++ nl in
        let summary := assemble (map sentence (selectedSentences sentences)) in
        let reasoning :=
          reasoning
          ++ lit "- Arranged selected sentences in original order for coherence" ++ nl in
        mkSummary summary reasoning
      else
        let reasoning :=
          reasoning ++ lit "- Text is short, using first and last sentence extraction"
          ++ nl in
        mkSummary (trim first ++ lit ". " ++ trim (last sentences []) ++ lit ".") reasoning
  end.

(** A formatter for exact decimals: [toFixed] rounds the decimal expansion
    half up, and a number prints as its integer part followed by up to twenty
    fraction digits.  It agrees with ECMAScript on the short decimals of the
    examples below. *)
Definition ZToString (z : Z) : str := NToString (Z.to_N z).

Definition digitChar (d : Z) : ascii := ascii_of_nat (48 + Z.to_nat d).

Fixpoint fractionDigits (fuel : nat) (r : Q) : str :=
  match fuel with
  | O => []
  | S fuel' =>
      if Qeq_bool r 0 then []
      else
        let d := Qfloor (r * 10) in
        digitChar d :: fractionDigits fuel' (r * 10 - inject_Z d)
  end.

Definition exactToFixed (d : nat) (q : Q) : str :=
  let scaled := Qabs q * inject_Z (10 ^ Z.of_nat d) in
  let n := Qfloor (scaled + (1 # 2)) in
  let digits := ZToString n in
  let digits := repeat "0"%char (S d - length digits) ++ digits in
  (if Qltb q 0 then lit "-" else [])
  ++ firstn (length digits - d) digits
  ++ (if (d =? 0)%nat then [] else lit "." ++ skipn (length digits - d) digits).

Definition exactToString (q : Q) : str :=
  let a := Qabs q in
  let whole := Qfloor a in
  let fraction := fractionDigits 20 (a - inject_Z whole) in
  (if Qltb q 0 then lit "-" else [])
  ++ ZToString whole
  ++ (if isEmpty fraction then [] else lit "." ++ fraction).

Definition exactDecimal : NumberFormat :=
  {| toFixed := exactToFixed; numberToString := exactToString |}.

(** [Record<string, string[]>]: the columns in creation order. *)
Definition Table := list (str * list str).

Record TapasResult := mkTapas {
  answer : str;
  t_reasoning : str
}.

(** The bodies of the five query intents of [fallbackTableAnalysis]
    (maximum, minimum, average, RSI rule, MACD crossover).  Each receives the
    lower-cased query, the table and the reasoning written so far, and either
    returns a result or hands back the reasoning with which the function
    goes on to its default answer.  No property below depends on them. *)
Class TableHandlers := {
  onMaximum : str -> Table -> str -> TapasResult + str;
  onMinimum : str -> Table -> str -> TapasResult + str;
  onAverage : str -> Table -> str -> TapasResult + str;
  onRsi : str -> Table -> str -> TapasResult + str;
  onMacd : str -> Table -> str -> TapasResult + str
}.

Definition fallbackTableAnalysis {T : TableHandlers} (query : str) (table : Table)
  : TapasResult :=
  let lowerQuery := toLowerCase query in
  let reasoning := lit "Table analysis reasoning:" ++ nl in
  let has (w : str) := includes w lowerQuery in
  let outcome : TapasResult + str :=
    if has (lit "highest") || has (lit "maximum") || has (lit "max") then
      onMaximum lowerQuery table reasoning
    else if has (lit "lowest") || has (lit "minimum") || has (lit "min") then
      onMinimum lowerQuery table reasoning
    else if has (lit "average") || has (lit "mean") || has (lit "avg") then
      onAverage lowerQuery table reasoning
    else if has (lit "rsi") && (has (lit "buy") || has (lit "sell") || has (lit "hold")) then
      onRsi lowerQuery table reasoning
    else if has (lit "macd") && (has (lit "buy") || has (lit "sell") || has (lit "hold")) then
      onMacd lowerQuery table reasoning
    else inr reasoning in
  match outcome with
  | inl result => result
  | inr reasoning =>
      mkTapas (lit "HOLD")
        (reasoning
         ++ lit "- Could not determine specific analysis type from query" ++ nl
         ++ lit "- Defaulting to HOLD recommendation as a conservative approach" ++ nl)
  end.

(* ------------------------------------------------------------------ *)
(** ** Inference client wrappers (huggingface.ts: the query functions) *)
(* ------------------------------------------------------------------ *)

(** What an awaited call produced: a value, or a thrown error. *)
Inductive Attempt (A : Type) :=
| Returned (a : A)
| Threw.
Arguments Returned {A} a.
Arguments Threw {A}.

Record TapasResponse := mkTapasResponse {
  r_answer : str;
  r_coordinates : list (list nat);
  r_cells : option (list str);
  r_aggregator : str
}.

Record LabelScore := mkLabelScore {
  label : str;
  l_score : Q
}.

(** The remote capabilities during one analysis: for each endpoint, the
    well-formed response [queryHuggingFace] or [fetch] delivered, or [None]
    when the call failed (missing token, HTTP error, time-out, malformed
    body). *)
Record Remote := mkRemote {
  tapasBaseWtq : option TapasResponse;
  tapasLargeWtq : option TapasResponse;
  tapasBase : option TapasResponse;
  distilbertSst2 : option (list (list LabelScore));
  bartLargeCnn : option str;
  deepseekHuggingFace : option str;
  deepseekChat : option str
}.

(** [x || dflt] on a string. *)
Definition orText (x dflt : str) : str := if isEmpty x then dflt else x.

Definition tapasReasoningText (header : string) (r : TapasResponse) : str :=
  let reasoning := lit header ++ nl in
  if (0 <? length (r_coordinates r))%nat then
    reasoning
    ++ lit "- Selected cells: "
    ++ orText (match r_cells r with
               | Some cells => join (lit ", ") cells
               | None => []
               end) (lit "N/A") ++ nl
    ++ lit "- Aggregation method: " ++ orText (r_aggregator r) (lit "None") ++ nl
    ++ lit "- Final answer: " ++ r_answer r ++ nl
  else reasoning ++ lit "- Direct answer: " ++ r_answer r ++ nl.

Definition queryTapas {T : TableHandlers} (remote : Remote) (query : str) (table : Table)
  : Attempt TapasResult :=
  match tapasBaseWtq remote with
  | Some r =>
      Returned (mkTapas (r_answer r) (tapasReasoningText "Table analysis from Tapas model:" r))
  | None =>
      match tapasLargeWtq remote with
      | Some r =>
          Returned (mkTapas (r_answer r)
                      (tapasReasoningText "Table analysis from alternative Tapas model:" r))
      | None =>
          match tapasBase remote with
          | Some r =>
              Returned (mkTapas (r_answer r)
                          (tapasReasoningText "Table analysis from last resort Tapas model:" r))
          | None => Returned (fallbackTableAnalysis query table)
          end
      end
  end.

Definition hasLabel (l : string) (item : LabelScore) : bool :=
  str_eqb (label item) (lit l).

Definition queryDistilBERT {F : NumberFormat} (remote : Remote) (text : str)
  : Attempt SentimentResult :=
  match distilbertSst2 remote with
  | Some response =>
      let first := hd [] response in
      let positiveItem := find (hasLabel "POSITIVE") first in
      let negativeItem := find (hasLabel "NEGATIVE") first in
      let positiveScore :=
        match positiveItem with
        | Some item => if Qeq_bool (l_score item) 0 then 0.5 else l_score item
        | None => 0.5
        end in
      let reasoning :=
        match positiveItem, negativeItem with
        | Some pos, Some neg =>
            lit "Sentiment analysis from DistilBERT model:" ++ nl
            ++ lit "- Positive sentiment: " ++ toFixed 1 (l_score pos * 100) ++ lit "%" ++ nl
            ++ lit "- Negative sentiment: " ++ toFixed 1 (l_score neg * 100) ++ lit "%" ++ nl
            ++ lit "- Overall assessment: "
            ++ (if Qgtb positiveScore 0.6 then lit "Positive"
                else if Qltb positiveScore 0.4 then lit "Negative" else lit "Neutral")
        | _, _ => lit "Sentiment analysis completed, but detailed scores unavailable."
        end in
      Returned (mkSentiment positiveScore reasoning)
  | None => Returned (fallbackSentimentAnalysis text)
  end.

(** The decision token of the first line of a model's answer. *)
Definition decisionFromContent (content : str) : DecisionResult :=
  let firstLine := toUpperCase (takeWhile (fun c => negb (charIs "010" c)) content) in
  let decision :=
    if includes (lit "BUY") firstLine then lit "BUY"
    else if includes (lit "SELL") firstLine then lit "SELL"
    else if includes (lit "HOLD") firstLine then lit "HOLD"
    else lit "HOLD" in
  mkDecision decision content.

Definition queryDeepSeek {F : NumberFormat} (remote : Remote) (prompt : str)
  : Attempt DecisionResult :=
  match (match deepseekHuggingFace remote with
         | Some generated_text =>
             if isEmpty generated_text then None else Some generated_text
         | None => None
         end) with
  | Some generated_text => Returned (decisionFromContent (trim generated_text))
  | None =>
      match deepseekChat remote with
      | Some content => Returned (decisionFromContent (trim content))
      | None => Returned (fallbackDecisionMaking prompt)
      end
  end.

Definition queryFLANT5 {F : NumberFormat} (remote : Remote) (prompt : str)
  : Attempt DecisionResult :=
  match queryDeepSeek remote prompt with
  | Returned r => Returned r
  | Threw => Returned (fallbackDecisionMaking prompt)
  end.

Definition queryBART {F : NumberFormat} (remote : Remote) (text : str)
  : Attempt SummaryResult :=
  match bartLargeCnn remote with
  | Some summary_text =>
      Returned (mkSummary summary_text
        (lit "Summarization performed by BART model, which uses a neural network trained on millions of documents to extract key information while maintaining context and coherence."))
  | None => Returned (fallbackSummarization text)
  end.

(* ------------------------------------------------------------------ *)
(** ** Signal analysis pipeline (trading-signals: analyzeSignals)      *)
(* ------------------------------------------------------------------ *)

Record NewsData := mkNews {
  headlines : list str;
  summaries : list str
}.

(** [ModelResults]; a flag holds the truth value of what the source stores. *)
Record ModelResults := mkResults {
  r_decision : str;
  riskScore : Q;
  tapasReasoning : str;
  sentimentReasoning : str;
  decisionReasoning : str;
  summaryReasoning : str;
  tapasUsingFallback : bool;
  sentimentUsingFallback : bool;
  decisionUsingFallback : bool;
  summaryUsingFallback : bool
}.

Definition convertMarketDataToTable {F : NumberFormat} (marketData : MarketData) : Table :=
  [(lit "Indicator", [lit "RSI"; lit "MACD"; lit "Signal"; lit "Volume"; lit "Price"]);
   (lit "Value",
    [numberToString (rsi marketData); numberToString (macd marketData);
     numberToString (signal marketData); numberToString (volume marketData);
     numberToString (price marketData)])].

Definition defaultResult : ModelResults :=
  mkResults (lit "HOLD") 0.5
    (lit "Unable to analyze market data.")
    (lit "Unable to analyze news sentiment.")
    (lit "Using default conservative position due to analysis errors.")
    (lit "No summary available due to analysis errors.")
    true true true true.

Definition tapasQuestion : str :=
  lit "Based on the technical indicators, should I buy, sell, or hold?".

(** [newsData.headlines.join(" ") + " " + newsData.summaries.join(" ")] *)
Definition newsText (newsData : NewsData) : str :=
  join (lit " ") (headlines newsData) ++ lit " " ++ join (lit " ") (summaries newsData).

(** The one-line prompt handed to [fallbackDecisionMaking]. *)
Definition indicatorLine {F : NumberFormat} (marketData : MarketData) : str :=
  lit "RSI=" ++ toFixed 2 (rsi marketData)
  ++ lit ", MACD=" ++ toFixed 2 (macd marketData)
  ++ lit ", Signal=" ++ toFixed 2 (signal marketData)
  ++ lit ", Volume=" ++ numberToString (volume marketData)
  ++ lit ", Price=" ++ numberToString (price marketData).

(** The market narrative handed to the summarisers. *)
Definition narrative {F : NumberFormat} (marketData : MarketData) (sentimentScore : Q) : str :=
  lit "Market Analysis: RSI is " ++ toFixed 2 (rsi marketData) ++ lit " which is "
  ++ (if Qgtb (rsi marketData) 70 then lit "overbought"
      else if Qltb (rsi marketData) 30 then lit "oversold" else lit "neutral")
  ++ lit ". "
  ++ lit "MACD is "
  ++ (if Qgtb (macd marketData) (signal marketData) then lit "above" else lit "below")
  ++ lit " the signal line. "
  ++ lit "The current price is " ++ numberToString (price marketData)
  ++ lit " with a volume of " ++ numberToString (volume marketData) ++ lit ". "
  ++ lit "Recent news sentiment is "
  ++ (if Qgtb sentimentScore 0.6 then lit "positive"
      else if Qltb sentimentScore 0.4 then lit "negative" else lit "neutral")
  ++ lit ".".

(** The prompt of the decision model: a template literal whose lines after
    the first are indented by six blanks. *)
Definition decisionPrompt {F : NumberFormat} (marketData : MarketData)
  (tapasAnswer : str) (sentimentScore : Q) : str :=
  let indent := lit "      " in
  lit "Given the following information, should I buy, sell, or hold?" ++ nl
  ++ indent ++ nl
  ++ indent ++ lit "Technical Indicators:" ++ nl
  ++ indent ++ lit "- RSI: " ++ toFixed 2 (rsi marketData) ++ nl
  ++ indent ++ lit "- MACD: " ++ toFixed 2 (macd marketData) ++ nl
  ++ indent ++ lit "- Signal: " ++ toFixed 2 (signal marketData) ++ nl
  ++ indent ++ lit "- Current Price: " ++ numberToString (price marketData) ++ nl
  ++ indent ++ lit "- Volume: " ++ numberToString (volume marketData) ++ nl
  ++ indent ++ nl
  ++ indent ++ lit "Market Analysis:" ++ nl
  ++ indent ++ lit "- " ++ tapasAnswer ++ nl
  ++ indent ++ nl
  ++ indent ++ lit "News Sentiment:" ++ nl
  ++ indent ++ lit "- Sentiment Score: " ++ toFixed 2 sentimentScore
  ++ lit " (0=negative, 1=positive)" ++ nl
  ++ indent ++ nl
  ++ indent ++ lit "Risk Level:" ++ nl
  ++ indent ++ lit "- " ++ toFixed 2 (calculateRiskScore marketData sentimentScore)
  ++ lit " (0=low risk, 1=high risk)" ++ nl
  ++ indent.

(** [r.reasoning && r.reasoning.includes("Fallback")], as a truth value. *)
Definition mentionsFallback (reasoning : str) : bool :=
  negb (isEmpty reasoning) && includes (lit "Fallback") reasoning.

Definition analyzeSignals {F : NumberFormat} {T : TableHandlers}
  (remote : Remote) (marketData : MarketData) (newsData : NewsData)
  (useFallback : bool) : ModelResults :=
  if useFallback then
    let table := convertMarketDataToTable marketData in
    let tapasResult := fallbackTableAnalysis tapasQuestion table in
    let sentimentResult := fallbackSentimentAnalysis (newsText newsData) in
    let flantResult := fallbackDecisionMaking (indicatorLine marketData) in
    let bartResult := fallbackSummarization (narrative marketData (score sentimentResult)) in
    mkResults (decision flantResult)
      (calculateRiskScore marketData (score sentimentResult))
      (t_reasoning tapasResult) (s_reasoning sentimentResult)
      (d_reasoning flantResult) (b_reasoning bartResult)
      true true true true
  else
    let table := convertMarketDataToTable marketData in
    (* Step 1 *)
    let '(tapasResult, tapasUsingFallback) :=
      match queryTapas remote tapasQuestion table with
      | Returned r => (r, mentionsFallback (t_reasoning r))
      | Threw => (fallbackTableAnalysis tapasQuestion table, true)
      end in
    (* Step 2 *)
    let '(sentimentResult, sentimentUsingFallback) :=
      match queryDistilBERT remote (newsText newsData) with
      | Returned r => (r, mentionsFallback (s_reasoning r))
      | Threw => (fallbackSentimentAnalysis (newsText newsData), true)
      end in
    (* Step 3 *)
    let '(flantResult, decisionUsingFallback) :=
      match queryFLANT5 remote
              (decisionPrompt marketData (answer tapasResult) (score sentimentResult)) with
      | Returned r => (r, mentionsFallback (d_reasoning r))
      | Threw => (fallbackDecisionMaking (indicatorLine marketData), true)
      end in
    (* Step 4 *)
    let '(bartResult, summaryUsingFallback) :=
      match queryBART remote
              (narrative marketData (score sentimentResult) ++ lit " "
               ++ lit "The trading decision is to " ++ decision flantResult ++ lit ".") with
      | Returned r => (r, mentionsFallback (b_reasoning r))
      | Threw =>
          (fallbackSummarization (narrative marketData (score sentimentResult)), true)
      end in
    let riskScore := calculateRiskScore marketData (score sentimentResult) in
    mkResults (decision flantResult) riskScore
      (t_reasoning tapasResult) (s_reasoning sentimentResult)
      (d_reasoning flantResult) (b_reasoning bartResult)
      tapasUsingFallback sentimentUsingFallback decisionUsingFallback
      summaryUsingFallback.

(* ------------------------------------------------------------------ *)
(** ** Trade analysis route (GET)                                      *)
(* ------------------------------------------------------------------ *)

Definition mockMarketData : MarketData := mkMarketData 55 0.2 0.1 1500000 65000.

Definition mockNewsData : NewsData :=
  mkNews
    [lit "Bitcoin shows strong momentum as institutional adoption increases";
     lit "Market analysts predict continued growth for major cryptocurrencies"]
    [lit "Institutional investors continue to show interest in Bitcoin, driving prices higher.";
     lit "Technical indicators suggest a bullish trend for Bitcoin in the coming weeks."].

Record TradeAnalysis := mkAnalysis {
  a_symbol : str;
  a_action : str;
  a_risk : Q;
  a_modelResults : ModelResults;
  a_useFallback : bool
}.

(** The success path of [GET]; [symbolParam] and [fallbackParam] are the
    query parameters [symbol] and [fallback] when present. *)
Definition GET {F : NumberFormat} {T : TableHandlers}
  (remote : Remote) (symbolParam fallbackParam : option str) : TradeAnalysis :=
  let symbol := match symbolParam with
                | Some v => orText v (lit "BTCUSDT")
                | None => lit "BTCUSDT"
                end in
  let useFallback := match fallbackParam with
                     | Some v => str_eqb v (lit "true")
                     | None => false
                     end in
  let modelResults := analyzeSignals remote mockMarketData mockNewsData useFallback in
  mkAnalysis symbol (r_decision modelResults) (riskScore modelResults) modelResults
    (useFallback
     || tapasUsingFallback modelResults
     || sentimentUsingFallback modelResults
     || decisionUsingFallback modelResults
     || summaryUsingFallback modelResults).

(* ------------------------------------------------------------------ *)
(** ** The rule cascade and the summary, as the specification words them *)
(* ------------------------------------------------------------------ *)

(** An ordered list of rules: the first rule whose condition holds gives the
    decision, and the default applies when none does. *)
Definition firstMatch (rules : list (bool * str)) (dflt : str) : str :=
  match find fst rules with
  | Some rule => snd rule
  | None => dflt
  end.

(** The cascade of the decision heuristic in its fixed order: (a) risk
    override, (b) RSI bands, (c) MACD against zero and the signal line,
    (d) market-condition keywords; (e) is the default HOLD. *)
Definition cascadeRules (i : Indicators) (mc : MarketConditions) : list (bool * str) :=
  [ (gtN (ind_risk i) (Some 0.7), lit "HOLD");
    (gtN (ind_rsi i) (Some 70), lit "SELL");
    (ltN (ind_rsi i) (Some 30), lit "BUY");
    (gtN (ind_macd i) (Some 0) && gtN (ind_macd i) (ind_signal i)
     && ltN (ind_risk i) (Some 0.5), lit "BUY");
    (ltN (ind_macd i) (Some 0) && ltN (ind_macd i) (ind_signal i), lit "SELL");
    (volatile mc && gtN (ind_risk i) (Some 0.5), lit "HOLD");
    (uptrend mc && ltN (ind_risk i) (Some 0.6), lit "BUY");
    (downtrend mc, lit "SELL");
    (sideways mc, lit "HOLD") ].

(** The MACD rule as the claim states it: once the risk and RSI rules have
    not fired, MACD above the signal line with risk < 0.5 gives BUY, and MACD
    below the signal line gives SELL. *)
Definition macdRuleAsStated : Prop :=
  forall (F : NumberFormat) (prompt : str),
    let i := extractIndicators (toLowerCase prompt) in
    gtN (ind_risk i) (Some 0.7) = false ->
    gtN (ind_rsi i) (Some 70) = false ->
    ltN (ind_rsi i) (Some 30) = false ->
    (gtN (ind_macd i) (ind_signal i) = true -> ltN (ind_risk i) (Some 0.5) = true ->
     decision (fallbackDecisionMaking prompt) = lit "BUY")
    /\ (ltN (ind_macd i) (ind_signal i) = true ->
        decision (fallbackDecisionMaking prompt) = lit "SELL").

(** Strictly increasing positions. *)
Fixpoint increasing (l : list nat) : Prop :=
  match l with
  | [] => True
  | i :: l' => (match l' with [] => True | j :: _ => (i < j)%nat end) /\ increasing l'
  end.

(** The sentence at a position. *)
Definition sentenceAt (sentences : list str) (i : nat) : str := nth i sentences [].

(** The relevance of a sentence as the specification words it.  A word
    counts when it is longer than three characters and no stop word; the
    frequency of a word is the number of its occurrences among the words of
    all sentences; the relevance of a sentence is the sum of the
    frequencies of its words that count, divided by the number of its
    words. *)
Definition isKeyword (word : str) : bool :=
  (3 <? length word)%nat && negb (arrayIncludes word stopWords).

Definition occurrences (word : str) (sentences : list str) : nat :=
  length (filter (str_eqb word) (concat (map wordsOf sentences))).

Definition relevance (sentences : list str) (sentence : str) : Q :=
  ofNat (fold_right Nat.add 0%nat
           (map (fun word => if isKeyword word then occurrences word sentences
                             else 0%nat)
                (wordsOf sentence)))
  / ofNat (length (wordsOf sentence)).

Definition scoreAt (sentences : list str) (i : nat) : Q :=
  relevance sentences (sentenceAt sentences i).

(** No word of the sentences is a name that a plain object inherits. *)
Definition plainWords (sentences : list str) : bool :=
  forallb (fun sentence =>
             forallb (fun word => match inheritedMember word with
                                  | Some _ => false
                                  | None => true
                                  end)
                     (wordsOf sentence))
          sentences.

(** A single-sentence input is returned verbatim, as the claim states it. *)
Definition singleSentenceVerbatim : Prop :=
  forall (F : NumberFormat) (text : str),
    length (sentencesOf text) = 1%nat ->
    summary (fallbackSummarization text) = text.

(** Every remote capability out of reach, as when no API token is set. *)
Definition remoteDown : Remote := mkRemote None None None None None None None.

(** Text without the capital letter F, the first letter of the word the
    pipeline looks for in a reasoning text. *)
Definition freeOfF (s : str) : bool := forallb (fun c => negb (charIs "F" c)) s.

(* ------------------------------------------------------------------ *)
(** ** Invariants and orders used by the proofs                        *)
(* ------------------------------------------------------------------ *)

(** What the incremental update maintains for the metric of capability [t]. *)
Definition metricGood (t : Tracker.ModelType) (ops : list Tracker.Op) (m : Tracker.ModelPerformanceMetrics) : Prop :=
  Tracker.m_modelType m = t
  /\ Tracker.m_totalPredictions m = Tracker.countOf t ops
  /\ Tracker.m_successRate m * ofNat (Tracker.countOf t ops) == ofNat (Tracker.successesOf t ops)
  /\ Tracker.m_errorRate m * ofNat (Tracker.countOf t ops)
     == ofNat (Tracker.countOf t ops) - ofNat (Tracker.successesOf t ops).

Definition metricsGood (ops : list Tracker.Op) (l : list Tracker.ModelPerformanceMetrics) : Prop :=
  exists a b c d,
    l = [a; b; c; d]
    /\ metricGood Tracker.tapas ops a /\ metricGood Tracker.distilbert ops b
    /\ metricGood Tracker.flant5 ops c /\ metricGood Tracker.bart ops d.

Definition trackerInv (ops : list Tracker.Op) (s : Tracker.ModelPerformanceData) : Prop :=
  (ops = [] /\ Tracker.metrics s = []) \/ metricsGood ops (Tracker.metrics s).

Definition decisionTokens : list str := [lit "BUY"; lit "SELL"; lit "HOLD"].

Definition keysFreeOfF (f : Frequencies) : Prop :=
  Forall (fun e => freeOfF (fst e) = true /\ freeOfF (showCount (snd e)) = true) f.

(** A word that is no name a plain object inherits. *)
Definition plainWord (word : str) : Prop := inheritedMember word = None.

(** A scored sentence whose score is a number. *)
Definition scored (x : Scored) : Prop := exists q, sc_score x = Some q.

(** Text without full stop, exclamation mark and question mark. *)
Definition noTerminator (s : str) : bool :=
  forallb (fun c => negb (isTerminator c)) s.

(** A table of counts: every value is a positive number. *)
Definition countsOnly (f : Frequencies) : Prop :=
  Forall (fun e => exists n, snd e = Number n /\ (0 < n)%nat) f.

(** The number held for a word, 0 when there is none. *)
Definition countIn (word : str) (f : Frequencies) : nat :=
  match getOwn word f with
  | Some (Number n) => n
  | _ => 0%nat
  end.

(* ------------------------------------------------------------------ *)
(** ** Execution gate: the requests of a live trade                    *)
(* ------------------------------------------------------------------ *)

Module GateScript.
Import Gate.

(** The side that closes a position opened on [s]. *)
Definition closingSide (s : Side) : Side :=
  match s with BUY => SELL | SELL => BUY end.

(** The stop-loss and take-profit orders that protect an entry on side [s]. *)
Definition stopLossFor (risk : RiskParameters) (symbol : str) (s : Side)
  (quantity entryPrice : Q) : StopOrder :=
  let stop :=
    match s with
    | BUY => entryPrice * (1 - stopLossPercent risk / 100)
    | SELL => entryPrice * (1 + stopLossPercent risk / 100)
    end in
  mkStopOrder symbol (closingSide s) quantity stop
    (match s with BUY => stop * 0.99 | SELL => stop * 1.01 end).

Definition takeProfitFor (risk : RiskParameters) (symbol : str) (s : Side)
  (quantity entryPrice : Q) : StopOrder :=
  let stop :=
    match s with
    | BUY => entryPrice * (1 + takeProfitPercent risk / 100)
    | SELL => entryPrice * (1 - takeProfitPercent risk / 100)
    end in
  mkStopOrder symbol (closingSide s) quantity stop
    (match s with BUY => stop * 0.99 | SELL => stop * 1.01 end).

(** Whether the daily-loss test of [checkRiskParameters] answers before any
    request is made. *)
Definition dailyLossBreached (svc : TradingService) : bool :=
  Qltb (dailyPnL svc) (- maxDailyLoss (riskParameters (config svc))).

(** The longest sequence of requests a live trade can make: the balance
    request of the risk check (unless the daily-loss test answered first),
    the balance and price requests of the sizing, the market order, and the
    two protective orders. *)
Definition liveScript (svc : TradingService) (symbol : str) (s : Side)
  (quantity price executed : Q) : list ExchangeCall :=
  (if dailyLossBreached svc then [] else [GetBalances])
  ++ [GetBalances; GetCurrentPrice symbol;
      PlaceMarketOrder (mkMarketOrder symbol s quantity);
      PlaceStopLossOrder
        (stopLossFor (riskParameters (config svc)) symbol s executed price);
      PlaceTakeProfitOrder
        (takeProfitFor (riskParameters (config svc)) symbol s executed price)].

Definition isMarketOrder (c : ExchangeCall) : bool :=
  match c with PlaceMarketOrder _ => true | _ => false end.

Definition isOrder (c : ExchangeCall) : bool :=
  match c with
  | PlaceMarketOrder _ | PlaceStopLossOrder _ | PlaceTakeProfitOrder _ => true
  | _ => false
  end.

End GateScript.

(* ------------------------------------------------------------------ *)
(** ** Performance tracker: accessors and reset                        *)
(* ------------------------------------------------------------------ *)

Module TrackerAccess.
Import Tracker.

(** The accessors initialise the store before they read it; each returns
    its answer and the store it leaves. *)
Definition getModelMetrics (modelType : ModelType) (s : ModelPerformanceData)
  : option ModelPerformanceMetrics * ModelPerformanceData :=
  let s := initializeStore s in
  (find (fun m => ModelType_eqb (m_modelType m) modelType) (metrics s), s).

Definition getConnectionStatus (modelType : ModelType) (s : ModelPerformanceData)
  : option ConnectionStatus * ModelPerformanceData :=
  let s := initializeStore s in
  (find (fun c => ModelType_eqb (c_modelType c) modelType) (connectionStatus s), s).

(** [getRecentPredictions(modelType, limit)] for a limit that is a natural
    number: filter, stable sort by descending timestamp, first [limit]. *)
Definition getRecentPredictions (modelType : ModelType) (limit : nat)
  (s : ModelPerformanceData) : list ModelPrediction * ModelPerformanceData :=
  let s := initializeStore s in
  (firstn limit
     (sortBy (fun a b => Qle_bool (p_timestamp b) (p_timestamp a))
        (filter (fun p => ModelType_eqb (p_modelType p) modelType) (predictions s))),
   s).

(** The store [clearAllData] installs. *)
Definition clearAllData : ModelPerformanceData :=
  mkStore [] [] initializeMetrics initializeConnectionStatus.

(** Sum of the latencies, and time stamp of the latest, of the recorded
    predictions of a capability. *)
Definition latencySumOf (t : ModelType) (ops : list Op) : Q :=
  fold_left (fun acc p => acc + p_latency p)
    (filter (fun p => ModelType_eqb (p_modelType p) t) (recordedPredictions ops)) 0.

Definition lastTimestampOf (t : ModelType) (ops : list Op) : Q :=
  last (map p_timestamp
          (filter (fun p => ModelType_eqb (p_modelType p) t) (recordedPredictions ops)))
       0.

(** What the latency part of the incremental update maintains. *)
Definition metricTimed (t : ModelType) (ops : list Op) (m : ModelPerformanceMetrics)
  : Prop :=
  m_modelType m = t
  /\ m_totalPredictions m = countOf t ops
  /\ m_averageLatency m * ofNat (countOf t ops) == latencySumOf t ops
  /\ m_lastUsed m = lastTimestampOf t ops.

(** The status calls of a sequence that concern a capability, latest last. *)
Fixpoint statusUpdatesOf (t : ModelType) (ops : list Op) : list ConnectionStatus :=
  match ops with
  | [] => []
  | UpdateConnectionStatus st now :: ops' =>
      if ModelType_eqb (s_modelType st) t
      then mkConnectionStatus (s_modelType st) (s_status st) now
             (s_responseTime st) (s_errorMessage st) :: statusUpdatesOf t ops'
      else statusUpdatesOf t ops'
  | _ :: ops' => statusUpdatesOf t ops'
  end.

(** The status record a sequence of calls leaves for a capability. *)
Definition currentStatus (ops : list Op) (t : ModelType) : ConnectionStatus :=
  last (statusUpdatesOf t ops) (mkConnectionStatus t unknown 0 0 None).

End TrackerAccess.

(** The characters of a printed finite number: digits, the decimal point,
    the signs and the exponent mark. *)
Definition isNumberChar (c : ascii) : bool :=
  isDigit c || charIs "." c || charIs "-" c || charIs "+" c || charIs "e" c.

Definition numberText (s : str) : bool := forallb isNumberChar s.

(** Total weight of the keywords of a list that occur in a text. *)
Definition weightFound (keywords : list (str * Q)) (lowerText : str) : Q :=
  fold_right Qplus 0
    (map snd (filter (fun kw => includes (fst kw) lowerText) keywords)).

(* ------------------------------------------------------------------ *)
(** ** Technical indicators (market-data.ts)                           *)
(* ------------------------------------------------------------------ *)

(** The indicator functions over exact rationals, for periods that are
    positive integers and arrays of finite numbers (no exception is raised
    on such inputs, so the catch blocks are not entered). *)
Module MarketSeries.

(** [Array(n).fill(x)] *)
Definition fill {A} (n : nat) (x : A) : list A := repeat x n.

(** [changes[i - 1] = closePrices[i] - closePrices[i - 1]] *)
Fixpoint changesOf (closePrices : list Q) : list Q :=
  match closePrices with
  | previous :: rest =>
      match rest with
      | current :: _ => (current - previous) :: changesOf rest
      | [] => []
      end
  | [] => []
  end.

(** [rs = avgGain / (avgLoss === 0 ? 0.001 : avgLoss); rsi = 100 - 100 / (1 + rs)] *)
Definition rsiOf (avgGain avgLoss : Q) : Q :=
  let rs := avgGain / (if Qeq_bool avgLoss 0 then 0.001 else avgLoss) in
  100 - 100 / (1 + rs).

(** The first loop: sums of the gains and of the losses. *)
Definition sumGainsLosses (changes : list Q) : Q * Q :=
  fold_left
    (fun acc change =>
       if Qgtb change 0 then (fst acc + change, snd acc)
       else (fst acc, snd acc + Qabs change))
    changes (0, 0).

(** The last loop: the smoothed averages and the value pushed at each step. *)
Fixpoint smoothedRSI (period : nat) (avgGain avgLoss : Q) (changes : list Q)
  : list Q :=
  match changes with
  | [] => []
  | change :: rest =>
      let currentGain := if Qgtb change 0 then change else 0 in
      let currentLoss := if Qltb change 0 then Qabs change else 0 in
      let avgGain := (avgGain * (ofNat period - 1) + currentGain) / ofNat period in
      let avgLoss := (avgLoss * (ofNat period - 1) + currentLoss) / ofNat period in
      rsiOf avgGain avgLoss :: smoothedRSI period avgGain avgLoss rest
  end.

Definition calculateRSI (closePrices : list Q) (period : nat) : list Q :=
  if (length closePrices <=? period)%nat then fill (length closePrices) 50
  else
    let changes := changesOf closePrices in
    let sums := sumGainsLosses (firstn period changes) in
    let avgGain := fst sums / ofNat period in
    let avgLoss := snd sums / ofNat period in
    let rsi := rsiOf avgGain avgLoss in
    (50 :: fill (period - 1) 50) ++ [rsi]
    ++ smoothedRSI period avgGain avgLoss (skipn period changes).

(** [ema.push(data[i] * multiplier + ema[i - 1] * (1 - multiplier))] *)
Fixpoint emaTail (multiplier previous : Q) (data : list Q) : list Q :=
  match data with
  | [] => []
  | x :: rest =>
      let e := x * multiplier + previous * (1 - multiplier) in
      e :: emaTail multiplier e rest
  end.

Definition calculateEMA (data : list Q) (period : nat) : list Q :=
  if (length data <? period)%nat then fill (length data) 0
  else
    let multiplier := 2 / (ofNat period + 1) in
    let sum := fold_left Qplus (firstn period data) 0 in
    fill (period - 1) 0 ++ [sum / ofNat period]
    ++ emaTail multiplier (sum / ofNat period) (skipn period data).

Record MACD := mkMACD {
  macdLine : list Q;
  signalLine : list Q;
  histogramLine : list Q
}.

(** [for (let i = 0; i < n; i++) out.push(f(i))] *)
Definition tabulate {A} (n : nat) (f : nat -> A) : list A := map f (seq 0 n).

Definition calculateMACD (closePrices : list Q)
  (fastPeriod slowPeriod signalPeriod : nat) : MACD :=
  let n := length closePrices in
  if (n <? Nat.max fastPeriod slowPeriod + signalPeriod)%nat
  then mkMACD (fill n 0) (fill n 0) (fill n 0)
  else
    let fastEMA := calculateEMA closePrices fastPeriod in
    let slowEMA := calculateEMA closePrices slowPeriod in
    let macdLine :=
      tabulate n (fun i => if (i <? slowPeriod - 1)%nat then 0
                           else nth i fastEMA 0 - nth i slowEMA 0) in
    let signalLine := calculateEMA macdLine signalPeriod in
    let histogram :=
      tabulate n (fun i => if (i <? slowPeriod + signalPeriod - 2)%nat then 0
                           else nth i macdLine 0 - nth i signalLine 0) in
    mkMACD macdLine signalLine histogram.

(** A kline as the exchange delivers it: the open time is a number, the
    prices and the volume are decimal strings. *)
Record Candle := mkCandle {
  k_openTime : Q;
  k_open : str;
  k_high : str;
  k_low : str;
  k_close : str;
  k_volume : str
}.

(** The [MarketData] of [lib/types]. *)
Record Bar := mkBar {
  b_timestamp : Q;
  b_open : Q;
  b_high : Q;
  b_low : Q;
  b_close : Q;
  b_volume : Q;
  b_rsi : Q;
  b_macd : Q;
  b_signal : Q;
  b_histogram : Q
}.

(** [x || dflt] on a number that may be NaN. *)
Definition orNumber (x : option Q) (dflt : Q) : Q :=
  match x with
  | Some q => if Qeq_bool q 0 then dflt else q
  | None => dflt
  end.

(** [isNaN(closePrice) ? 0 : closePrice] *)
Definition closePricesOf (data : list Candle) : list Q :=
  map (fun candle => match parseFloat (k_close candle) with
                     | Some closePrice => closePrice
                     | None => 0
                     end) data.

Definition calculateIndicators (data : list Candle) : list Bar :=
  if isEmpty data then []
  else
    let closePrices := closePricesOf data in
    let rsiValues := calculateRSI closePrices 14 in
    let macdData := calculateMACD closePrices 12 26 9 in
    map (fun '(candle, index) =>
           mkBar (orNumber (Some (k_openTime candle)) 0)
                 (orNumber (parseFloat (k_open candle)) 0)
                 (orNumber (parseFloat (k_high candle)) 0)
                 (orNumber (parseFloat (k_low candle)) 0)
                 (orNumber (parseFloat (k_close candle)) 0)
                 (orNumber (parseFloat (k_volume candle)) 0)
                 (orNumber (nth_error rsiValues index) 50)
                 (orNumber (nth_error (macdLine macdData) index) 0)
                 (orNumber (nth_error (signalLine macdData) index) 0)
                 (orNumber (nth_error (histogramLine macdData) index) 0))
        (combine data (seq 0 (length data))).

End MarketSeries.

(* ================================================================== *)
(** * Properties                                                       *)
(* ================================================================== *)

Lemma Qltb_lt (x y : Q) : Qltb x y = true <-> x < y.
Proof.
  unfold Qltb. rewrite negb_true_iff.
  split; intro H.
  - apply Qnot_le_lt. intro Hle. apply Qle_bool_iff in Hle. congruence.
  - destruct (Qle_bool y x) eqn:E; [|reflexivity].
    apply Qle_bool_iff in E. exfalso. apply (Qlt_not_le _ _ H E).
Qed.

Lemma Qltb_ge (x y : Q) : Qltb x y = false <-> y <= x.
Proof.
  unfold Qltb. rewrite negb_false_iff. apply Qle_bool_iff.
Qed.

Lemma Math_min_Qmin (x y : Q) : Math_min x y == Qmin x y.
Proof.
  unfold Math_min. destruct (Qle_bool x y) eqn:E.
  - apply Qle_bool_iff in E. symmetry. apply Q.min_l. exact E.
  - assert (H : y <= x).
    { apply Qlt_le_weak. apply Qnot_le_lt. intro Hle.
      apply Qle_bool_iff in Hle. congruence. }
    symmetry. apply Q.min_r. exact H.
Qed.

Lemma Math_max_Qmax (x y : Q) : Math_max x y == Qmax x y.
Proof.
  unfold Math_max. destruct (Qle_bool x y) eqn:E.
  - apply Qle_bool_iff in E. symmetry. apply Q.max_r. exact E.
  - assert (H : y <= x).
    { apply Qlt_le_weak. apply Qnot_le_lt. intro Hle.
      apply Qle_bool_iff in Hle. congruence. }
    symmetry. apply Q.max_l. exact H.
Qed.

Lemma Math_max_lower (x y : Q) : x <= Math_max x y.
Proof.
  unfold Math_max. destruct (Qle_bool x y) eqn:E.
  - apply Qle_bool_iff in E. exact E.
  - apply Qle_refl.
Qed.

Lemma Math_min_upper (x y : Q) : Math_min x y <= x.
Proof.
  unfold Math_min. destruct (Qle_bool x y) eqn:E.
  - apply Qle_refl.
  - apply Qlt_le_weak. apply Qnot_le_lt. intro Hle.
    apply Qle_bool_iff in Hle. congruence.
Qed.

Lemma Math_max_01 (y : Q) : y <= 1 -> 0 <= Math_max 0 y <= 1.
Proof.
  intro Hy. split; [apply Math_max_lower|].
  unfold Math_max. destruct (Qle_bool 0 y); [exact Hy | discriminate].
Qed.

Lemma calculateRiskScore_range (m : MarketData) (s : Q) :
  0 <= calculateRiskScore m s <= 1.
Proof.
  unfold calculateRiskScore. apply Math_max_01. apply Math_min_upper.
Qed.

(** C1. The risk scorer computes the documented formula (0.5, plus 0.1 when
    RSI > 70, minus 0.1 when RSI < 30, minus 0.05 when MACD > signal and plus
    0.05 otherwise, plus 0.05 when volume > 1,000,000, plus
    (sentiment - 0.5) * 0.2, clamped to [0,1]) for every snapshot and
    sentiment, and yields 0.6 on the scenario snapshot with neutral
    sentiment. *)
Theorem C1_risk_score_formula :
  (forall (m : MarketData) (sentiment : Q),
      calculateRiskScore m sentiment == riskScoreSpec m sentiment)
  /\ calculateRiskScore scenarioSnapshot 0.5 == 0.6.
Proof.
  split.
  - intros m s. unfold calculateRiskScore, riskScoreSpec, spec_clamp01.
    rewrite Math_max_Qmax.
    apply Q.max_compat; [reflexivity|].
    rewrite Math_min_Qmin.
    apply Q.min_compat; [reflexivity|].
    unfold spec_adjust.
    destruct (Qgtb (rsi m) 70) eqn:Hhi; destruct (Qltb (rsi m) 30) eqn:Hlo;
      destruct (Qgtb (macd m) (signal m));
      destruct (Qgtb (volume m) 1000000);
      try ring.
    all: exfalso; unfold Qgtb in Hhi;
      apply Qltb_lt in Hhi; apply Qltb_lt in Hlo; lra.
  - vm_compute. reflexivity.
Qed.

(* ------------------------------------------------------------------ *)
(** ** Performance tracker                                             *)
(* ------------------------------------------------------------------ *)

Section TrackerFacts.
Import Tracker.

Lemma sliceLast_length {A} (n : nat) (l : list A) :
  length (sliceLast n l) = Nat.min n (length l).
Proof. unfold sliceLast. rewrite length_skipn. lia. Qed.

Lemma sliceLast_suffix {A} (n : nat) (l : list A) :
  firstn (length l - n) l ++ sliceLast n l = l.
Proof. unfold sliceLast. apply firstn_skipn. Qed.

(** Appending to a capped log and trimming it again keeps the most recent
    [n] entries of the whole history. *)
Lemma sliceLast_push {A} (n : nat) (history : list A) (x : A) :
  let log := sliceLast n history ++ [x] in
  (if (n <? length log)%nat then sliceLast n log else log)
  = sliceLast n (history ++ [x]).
Proof.
  cbv zeta. unfold sliceLast.
  rewrite !length_app, length_skipn. cbn [length].
  destruct (Nat.le_gt_cases n (length history)) as [Hle|Hgt].
  - replace (n <? length history - (length history - n) + 1)%nat with true
      by (symmetry; apply Nat.ltb_lt; lia).
    rewrite (skipn_app (length history + 1 - n)).
    rewrite (skipn_app _ (skipn _ _)), length_skipn, skipn_skipn.
    f_equal; f_equal; lia.
  - replace (n <? length history - (length history - n) + 1)%nat with false
      by (symmetry; apply Nat.ltb_ge; lia).
    replace (length history - n)%nat with 0%nat by lia.
    replace (length history + 1 - n)%nat with 0%nat by lia.
    reflexivity.
Qed.

Lemma initializeStore_predictions s :
  predictions (initializeStore s) = predictions s.
Proof.
  unfold initializeStore.
  destruct (isEmpty (connectionStatus s)); cbn;
    match goal with |- context [isEmpty ?m] => destruct (isEmpty m) end;
    reflexivity.
Qed.

Lemma initializeStore_outcomes s :
  outcomes (initializeStore s) = outcomes s.
Proof.
  unfold initializeStore.
  destruct (isEmpty (connectionStatus s)); cbn;
    match goal with |- context [isEmpty ?m] => destruct (isEmpty m) end;
    reflexivity.
Qed.

Lemma run_snoc ops op : run (ops ++ [op]) = step (run ops) op.
Proof. unfold run. rewrite fold_left_app. reflexivity. Qed.

Lemma recordedPredictions_app ops1 ops2 :
  recordedPredictions (ops1 ++ ops2)
  = recordedPredictions ops1 ++ recordedPredictions ops2.
Proof.
  induction ops1 as [|[p id|o|st now] ops1 IH]; cbn; rewrite ?IH; reflexivity.
Qed.

Lemma recordedOutcomes_app ops1 ops2 :
  recordedOutcomes (ops1 ++ ops2)
  = recordedOutcomes ops1 ++ recordedOutcomes ops2.
Proof.
  induction ops1 as [|[p id|o|st now] ops1 IH]; cbn; rewrite ?IH; reflexivity.
Qed.

Lemma updateConnectionStatus_logs st now s :
  predictions (updateConnectionStatus st now s) = predictions s
  /\ outcomes (updateConnectionStatus st now s) = outcomes s.
Proof.
  unfold updateConnectionStatus.
  destruct (findIndex _ _); cbn;
    rewrite ?initializeStore_predictions, ?initializeStore_outcomes; auto.
Qed.

Lemma run_logs ops :
  predictions (run ops) = sliceLast 1000 (recordedPredictions ops)
  /\ outcomes (run ops) = sliceLast 1000 (recordedOutcomes ops).
Proof.
  induction ops as [|op ops IH] using rev_ind.
  - split; reflexivity.
  - destruct IH as [IHp IHo]. rewrite run_snoc.
    rewrite recordedPredictions_app, recordedOutcomes_app.
    destruct op as [p id|o|st now]; cbn [step recordedPredictions recordedOutcomes].
    + rewrite app_nil_r. split.
      * unfold recordPrediction. cbn [fst predictions].
        rewrite initializeStore_predictions, IHp.
        apply sliceLast_push.
      * unfold recordPrediction. cbn [fst outcomes].
        rewrite initializeStore_outcomes. exact IHo.
    + rewrite app_nil_r. split.
      * unfold recordOutcome. cbn [predictions].
        rewrite initializeStore_predictions. exact IHp.
      * unfold recordOutcome. cbn [outcomes].
        rewrite initializeStore_outcomes, IHo.
        apply sliceLast_push.
    + rewrite !app_nil_r.
      destruct (updateConnectionStatus_logs st now (run ops)) as [-> ->].
      auto.
Qed.

(** C9. After any sequence of recordPrediction, recordOutcome and
    updateConnectionStatus calls on a fresh module, the prediction log and
    the outcome log hold at most 1,000 records each, and what they hold is
    the most recent part of everything recorded, in insertion order: the
    evicted records are the oldest ones. *)
Theorem C9_logs_capped_oldest_evicted (ops : list Op) :
  (length (predictions (run ops)) <= 1000)%nat
  /\ (length (outcomes (run ops)) <= 1000)%nat
  /\ length (predictions (run ops))
     = Nat.min 1000 (length (recordedPredictions ops))
  /\ length (outcomes (run ops))
     = Nat.min 1000 (length (recordedOutcomes ops))
  /\ (exists evicted,
         recordedPredictions ops = evicted ++ predictions (run ops))
  /\ (exists evicted,
         recordedOutcomes ops = evicted ++ outcomes (run ops)).
Proof.
  destruct (run_logs ops) as [Hp Ho]. rewrite Hp, Ho.
  rewrite !sliceLast_length.
  repeat split; try lia.
  - eexists. symmetry. apply sliceLast_suffix.
  - eexists. symmetry. apply sliceLast_suffix.
Qed.

Lemma ofNat_S n : ofNat (S n) == ofNat n + 1.
Proof.
  unfold ofNat. rewrite Nat2Z.inj_succ. unfold Z.succ.
  rewrite inject_Z_plus. reflexivity.
Qed.

Lemma ofNat_nonneg n : 0 <= ofNat n.
Proof.
  unfold ofNat. change 0 with (inject_Z 0). rewrite <- Zle_Qle. lia.
Qed.

Lemma ofNat_pos n : (1 <= n)%nat -> 0 < ofNat n.
Proof.
  intro H. unfold ofNat. change 0 with (inject_Z 0). rewrite <- Zlt_Qlt. lia.
Qed.

Lemma initializeStore_metrics ops s :
  trackerInv ops s -> metricsGood ops (metrics (initializeStore s)).
Proof.
  intros [[-> Hm]|Hgood].
  - unfold initializeStore.
    assert (E : forall s', metrics s' = [] ->
               metrics (if isEmpty (metrics s')
                        then mkStore (predictions s') (outcomes s') initializeMetrics
                                     (connectionStatus s')
                        else s') = initializeMetrics).
    { intros s' H. rewrite H. reflexivity. }
    rewrite E.
    + exists (mkMetrics tapas 0 0 0 None 0 0), (mkMetrics distilbert 0 0 0 None 0 0),
             (mkMetrics flant5 0 0 0 None 0 0), (mkMetrics bart 0 0 0 None 0 0).
      split; [reflexivity|].
      repeat split; cbn; reflexivity.
    + destruct (isEmpty (connectionStatus s)); cbn; exact Hm.
  - unfold initializeStore.
    destruct Hgood as (a & b & c & d & Hl & Hrest).
    assert (E : forall s', metrics s' = [a; b; c; d] ->
               metrics (if isEmpty (metrics s')
                        then mkStore (predictions s') (outcomes s') initializeMetrics
                                     (connectionStatus s')
                        else s') = [a; b; c; d]).
    { intros s' H. rewrite H. cbn. exact H. }
    rewrite E.
    + exists a, b, c, d. auto.
    + destruct (isEmpty (connectionStatus s)); cbn; exact Hl.
Qed.

Lemma countOf_snoc_prediction t ops p id :
  countOf t (ops ++ [RecordPrediction p id])
  = (countOf t ops + (if ModelType_eqb (i_modelType p) t then 1 else 0))%nat.
Proof.
  unfold countOf. rewrite recordedPredictions_app, filter_app, length_app.
  cbn. destruct (ModelType_eqb (i_modelType p) t); reflexivity.
Qed.

Lemma successesOf_snoc_prediction t ops p id :
  successesOf t (ops ++ [RecordPrediction p id])
  = (successesOf t ops
     + (if ModelType_eqb (i_modelType p) t && i_success p then 1 else 0))%nat.
Proof.
  unfold successesOf. rewrite recordedPredictions_app, filter_app, length_app.
  cbn. destruct (ModelType_eqb (i_modelType p) t && i_success p); reflexivity.
Qed.

Lemma counts_snoc_other t ops op :
  (forall p id, op <> RecordPrediction p id) ->
  countOf t (ops ++ [op]) = countOf t ops
  /\ successesOf t (ops ++ [op]) = successesOf t ops.
Proof.
  intro H. unfold countOf, successesOf. rewrite recordedPredictions_app.
  destruct op as [p id|o|st now]; [exfalso; eapply H; reflexivity| |];
    cbn; rewrite app_nil_r; auto.
Qed.

Lemma metricGood_other t ops p id m :
  ModelType_eqb (i_modelType p) t = false ->
  metricGood t ops m -> metricGood t (ops ++ [RecordPrediction p id]) m.
Proof.
  intros Hne (Ht & Hn & Hs & He).
  unfold metricGood.
  rewrite countOf_snoc_prediction, successesOf_snoc_prediction, Hne.
  cbn. rewrite !Nat.add_0_r. auto.
Qed.

Lemma metricGood_update t ops p id m :
  ModelType_eqb (i_modelType p) t = true ->
  metricGood t ops m ->
  metricGood t (ops ++ [RecordPrediction p id]) (updateMetric m p).
Proof.
  intros Heq (Ht & Hn & Hs & He).
  unfold metricGood.
  rewrite countOf_snoc_prediction, successesOf_snoc_prediction, Heq.
  cbn [andb updateMetric m_modelType m_totalPredictions m_successRate m_errorRate].
  rewrite Hn.
  replace (countOf t ops + 1)%nat with (S (countOf t ops)) by lia.
  assert (Hpos : ~ ofNat (S (countOf t ops)) == 0).
  { intro H0. pose proof (ofNat_pos (n := S (countOf t ops)) ltac:(lia)) as Hp.
    rewrite H0 in Hp. apply (Qlt_irrefl 0 Hp). }
  assert (Hsucc : ofNat (successesOf t ops + (if i_success p then 1 else 0))
                  == m_successRate m * ofNat (countOf t ops)
                     + (if i_success p then 1 else 0)).
  { rewrite Hs. destruct (i_success p).
    - replace (successesOf t ops + 1)%nat with (S (successesOf t ops)) by lia.
      apply ofNat_S.
    - rewrite Nat.add_0_r. ring. }
  repeat split; auto.
  - rewrite Hsucc. field. exact Hpos.
  - rewrite Hsucc. field. exact Hpos.
Qed.

Lemma metricGood_ext t ops ops' m :
  countOf t ops' = countOf t ops ->
  successesOf t ops' = successesOf t ops ->
  metricGood t ops m -> metricGood t ops' m.
Proof.
  intros Hc Hs H. unfold metricGood in *. rewrite Hc, Hs. exact H.
Qed.

Lemma metricGood_withAccuracy t ops m a :
  metricGood t ops m -> metricGood t ops (withAccuracy m a).
Proof. intro H. exact H. Qed.

Lemma recordPrediction_metrics ops s p id :
  trackerInv ops s ->
  metricsGood (ops ++ [RecordPrediction p id])
              (metrics (fst (recordPrediction p id s))).
Proof.
  intro Hinv. apply initializeStore_metrics in Hinv.
  destruct Hinv as (a & b & c & d & Hl & Ha & Hb & Hc & Hd).
  unfold recordPrediction. cbn [fst metrics]. rewrite Hl.
  pose proof Ha as (Ta & _). pose proof Hb as (Tb & _).
  pose proof Hc as (Tc & _). pose proof Hd as (Td & _).
  cbn [findIndex]. rewrite Ta, Tb, Tc, Td.
  destruct (i_modelType p) eqn:Hp; cbn.
  - exists (updateMetric a p), b, c, d. split; [reflexivity|].
    refine (conj _ (conj _ (conj _ _)));
      [apply metricGood_update | apply metricGood_other
       | apply metricGood_other | apply metricGood_other];
      try rewrite Hp; auto.
  - exists a, (updateMetric b p), c, d. split; [reflexivity|].
    refine (conj _ (conj _ (conj _ _)));
      [apply metricGood_other | apply metricGood_update
       | apply metricGood_other | apply metricGood_other];
      try rewrite Hp; auto.
  - exists a, b, (updateMetric c p), d. split; [reflexivity|].
    refine (conj _ (conj _ (conj _ _)));
      [apply metricGood_other | apply metricGood_other
       | apply metricGood_update | apply metricGood_other];
      try rewrite Hp; auto.
  - exists a, b, c, (updateMetric d p). split; [reflexivity|].
    refine (conj _ (conj _ (conj _ _)));
      [apply metricGood_other | apply metricGood_other
       | apply metricGood_other | apply metricGood_update];
      try rewrite Hp; auto.
Qed.

Lemma metricsGood_ext ops ops' l :
  (forall t, countOf t ops' = countOf t ops) ->
  (forall t, successesOf t ops' = successesOf t ops) ->
  metricsGood ops l -> metricsGood ops' l.
Proof.
  intros Hc Hs (a & b & c & d & Hl & Ha & Hb & Hcc & Hd).
  exists a, b, c, d.
  split; [exact Hl|].
  refine (conj _ (conj _ (conj _ _))); eapply metricGood_ext; eauto.
Qed.

Lemma recordOutcome_metrics ops s o :
  trackerInv ops s ->
  metricsGood ops (metrics (recordOutcome o s)).
Proof.
  intro Hinv. apply initializeStore_metrics in Hinv.
  destruct Hinv as (a & b & c & d & Hl & Ha & Hb & Hc & Hd).
  unfold recordOutcome. cbn [metrics]. rewrite Hl.
  destruct (find _ (predictions (initializeStore s))) as [prediction|].
  2:{ exists a, b, c, d. auto. }
  pose proof Ha as (Ta & _). pose proof Hb as (Tb & _).
  pose proof Hc as (Tc & _). pose proof Hd as (Td & _).
  cbn [findIndex]. rewrite Ta, Tb, Tc, Td.
  destruct (p_modelType prediction); cbn [ModelType_eqb option_map nth_error setAt].
  - eexists _, b, c, d. split; [reflexivity|].
    refine (conj _ (conj _ (conj _ _))); auto.
  - eexists a, _, c, d. split; [reflexivity|].
    refine (conj _ (conj _ (conj _ _))); auto.
  - eexists a, b, _, d. split; [reflexivity|].
    refine (conj _ (conj _ (conj _ _))); auto.
  - eexists a, b, c, _. split; [reflexivity|].
    refine (conj _ (conj _ (conj _ _))); auto.
Qed.

Lemma updateConnectionStatus_metrics st now s :
  metrics (updateConnectionStatus st now s) = metrics (initializeStore s).
Proof.
  unfold updateConnectionStatus. destruct (findIndex _ _); reflexivity.
Qed.

Lemma run_metrics ops : trackerInv ops (run ops).
Proof.
  induction ops as [|op ops IH] using rev_ind.
  - left. split; reflexivity.
  - right. rewrite run_snoc.
    destruct op as [p id|o|st now]; cbn [step].
    + apply recordPrediction_metrics, IH.
    + eapply metricsGood_ext; [| |apply recordOutcome_metrics, IH];
        intro t; apply counts_snoc_other; discriminate.
    + rewrite updateConnectionStatus_metrics.
      eapply metricsGood_ext; [| |apply initializeStore_metrics, IH];
        intro t; apply counts_snoc_other; discriminate.
Qed.

Lemma metricGood_rates t ops m :
  metricGood t ops m ->
  (1 <= m_totalPredictions m)%nat ->
  m_successRate m + m_errorRate m == 1
  /\ m_successRate m == ofNat (successesOf t ops) / ofNat (countOf t ops).
Proof.
  intros (Ht & Hn & Hs & He) Hpos. rewrite Hn in Hpos.
  assert (Hnz : ~ ofNat (countOf t ops) == 0).
  { intro H0. pose proof (ofNat_pos Hpos) as Hp. rewrite H0 in Hp.
    apply (Qlt_irrefl 0 Hp). }
  split.
  - apply (Qmult_inj_r _ _ (ofNat (countOf t ops)) Hnz).
    rewrite Qmult_plus_distr_l, Hs, He. ring.
  - rewrite <- Hs. field. exact Hnz.
Qed.

(** C10. After any sequence of tracker calls on a fresh module, every
    capability metric with at least one recorded prediction has
    successRate + errorRate = 1, its totalPredictions is the number of
    predictions recorded for the capability, and its successRate is the
    fraction of those predictions that succeeded (exact arithmetic). *)
Theorem C10_success_and_error_rates (ops : list Op) (m : ModelPerformanceMetrics) :
  In m (metrics (run ops)) ->
  (1 <= m_totalPredictions m)%nat ->
  m_successRate m + m_errorRate m == 1
  /\ m_totalPredictions m = countOf (m_modelType m) ops
  /\ m_successRate m
     == ofNat (successesOf (m_modelType m) ops) / ofNat (countOf (m_modelType m) ops).
Proof.
  intros Hin Hpos.
  destruct (run_metrics ops) as [[_ Hnil]|(a & b & c & d & Hl & Ha & Hb & Hc & Hd)].
  - rewrite Hnil in Hin. destruct Hin.
  - rewrite Hl in Hin. cbn in Hin.
    assert (G : exists t, metricGood t ops m).
    { destruct Hin as [<-|[<-|[<-|[<-|[]]]]]; eauto. }
    destruct G as (t & G).
    pose proof G as (Ht & Hn & _). rewrite Ht.
    destruct (metricGood_rates G Hpos) as [H1 H2]. auto.
Qed.

End TrackerFacts.

Lemma C10_success_and_error_rates_witness :
  let p1 := Tracker.mkPredictionInput 1 Tracker.tapas (lit "q") (lit "Success") 120 true None in
  let p2 := Tracker.mkPredictionInput 2 Tracker.tapas (lit "q") (lit "Error: x") 80 false
              (Some (lit "x")) in
  let ops := [Tracker.RecordPrediction p1 (lit "pred_1");
              Tracker.RecordPrediction p2 (lit "pred_2")] in
  let m := hd (Tracker.mkMetrics Tracker.bart 0 0 0 None 0 0)
              (Tracker.metrics (Tracker.run ops)) in
  Tracker.m_successRate m + Tracker.m_errorRate m == 1
  /\ Tracker.m_totalPredictions m = Tracker.countOf (Tracker.m_modelType m) ops
  /\ Tracker.m_successRate m
     == ofNat (Tracker.successesOf (Tracker.m_modelType m) ops)
        / ofNat (Tracker.countOf (Tracker.m_modelType m) ops).
Proof.
  cbv zeta.
  apply C10_success_and_error_rates.
  - vm_compute. left. reflexivity.
  - vm_compute. lia.
Defined.

(* ------------------------------------------------------------------ *)
(** ** Execution gate                                                  *)
(* ------------------------------------------------------------------ *)

Section GateFacts.
Import Gate.

(** C6. With trading enabled, a HOLD action is answered by
    success = false and the message "Action is HOLD, no trade executed";
    the world is left as it was, so no exchange request is sent.  Nothing
    is assumed about the symbol, the test-mode switch or the risk
    parameters: the HOLD test comes before those checks. *)
Theorem C6_hold_is_rejected_first
  (svc : TradingService) (symbol : str) (confidence : Q) (env : Env) (w : World) :
  enabled (config svc) = true ->
  executeTrade svc symbol HOLD confidence env w
  = (inr (mkResult false None (Some (lit "Action is HOLD, no trade executed")) None), w).
Proof.
  intro Hen. unfold executeTrade. rewrite Hen. reflexivity.
Qed.

Lemma C6_hold_is_rejected_first_witness :
  let cfg := mkConfig true false (mkRisk 100 1 2 4 200 10) [lit "BTCUSDT"] in
  let svc := mkService cfg 0 1000 0 in
  let ex := mkExchange (fun _ => inl (lit "down")) (fun _ _ => inl (lit "down"))
              (fun _ _ => inl (lit "down")) (fun _ _ => inl (lit "down"))
              (fun _ _ => inl (lit "down")) in
  runCall (executeTrade svc (lit "DOGEUSDT") HOLD 0.9) (mkEnv ex (fun k => N.of_nat k))
  = (inr (mkResult false None (Some (lit "Action is HOLD, no trade executed")) None),
     world0).
Proof.
  cbv zeta. unfold runCall.
  apply C6_hold_is_rejected_first. reflexivity.
Defined.

(** C7. With trading enabled, a BUY or SELL action, an allowed symbol and
    test mode on, the call succeeds with an order id that starts with
    "test_" and a simulated MARKET order for that symbol and side whose
    status is FILLED and whose executed quantity equals its quantity; the
    exchange requests of the world are unchanged, so the exchange client is
    not invoked. *)
Theorem C7_test_mode_simulates
  (svc : TradingService) (symbol : str) (s : Side) (confidence : Q)
  (env : Env) (w : World) :
  enabled (config svc) = true ->
  arrayIncludes symbol (allowedSymbols (config svc)) = true ->
  testMode (config svc) = true ->
  exists r oid o w',
    executeTrade svc symbol (Trade s) confidence env w = (inr r, w')
    /\ calls w' = calls w
    /\ success r = true
    /\ errorMessage r = None
    /\ orderId r = Some oid
    /\ startsWith (lit "test_") oid = true
    /\ order r = Some o
    /\ Gate.symbol o = symbol /\ side o = Trade s /\ type o = MARKET
    /\ status o = FILLED /\ executedQty o == quantity o.
Proof.
  intros Hen Hsym Htest.
  unfold executeTrade. rewrite Hen, Hsym, Htest. cbn.
  unfold try_catch, bind, Date_now, ret. cbn.
  do 4 eexists.
  split; [reflexivity|].
  cbn. repeat split.
Qed.

Lemma C7_test_mode_simulates_witness :
  let cfg := mkConfig true true (mkRisk 100 1 2 4 200 10) [lit "BTCUSDT"; lit "ETHUSDT"] in
  let svc := mkService cfg 0 1000 0 in
  let ex := mkExchange (fun _ => inl (lit "down")) (fun _ _ => inl (lit "down"))
              (fun _ _ => inl (lit "down")) (fun _ _ => inl (lit "down"))
              (fun _ _ => inl (lit "down")) in
  exists r oid o w',
    executeTrade svc (lit "ETHUSDT") (Trade BUY) 0.8 (mkEnv ex (fun k => 1700000000000 + N.of_nat k)%N) world0
    = (inr r, w')
    /\ calls w' = calls world0
    /\ success r = true
    /\ errorMessage r = None
    /\ orderId r = Some oid
    /\ startsWith (lit "test_") oid = true
    /\ order r = Some o
    /\ Gate.symbol o = lit "ETHUSDT" /\ side o = Trade BUY /\ type o = MARKET
    /\ status o = FILLED /\ executedQty o == quantity o.
Proof.
  cbv zeta.
  apply C7_test_mode_simulates; reflexivity.
Defined.

End GateFacts.

(* ------------------------------------------------------------------ *)
(** ** Decision heuristic                                              *)
(* ------------------------------------------------------------------ *)

Section DecisionFacts.
Context {F : NumberFormat}.

Lemma decision_decide d why reasoning : decision (decide d why reasoning) = d.
Proof. reflexivity. Qed.

(** The decision of the heuristic, rule by rule. *)
Lemma fallbackDecisionMaking_cascade (prompt : str) :
  decision (fallbackDecisionMaking prompt)
  = firstMatch (cascadeRules (extractIndicators (toLowerCase prompt))
                             (detectConditions (toLowerCase prompt)))
               (lit "HOLD").
Proof.
  unfold fallbackDecisionMaking, firstMatch, cascadeRules.
  set (i := extractIndicators (toLowerCase prompt)).
  set (mc := detectConditions (toLowerCase prompt)).
  cbv zeta. cbn [find fst snd].
  destruct (gtN (ind_risk i) (Some 0.7)); [reflexivity|].
  destruct (gtN (ind_rsi i) (Some 70)); [reflexivity|].
  destruct (ltN (ind_rsi i) (Some 30)); [reflexivity|].
  destruct (gtN (ind_macd i) (Some 0)) eqn:Hpos.
  - destruct (gtN (ind_macd i) (ind_signal i)); cbn [andb].
    + destruct (ltN (ind_risk i) (Some 0.5)); [reflexivity|].
      assert (Hneg : ltN (ind_macd i) (Some 0) = false).
      { unfold ltN, gtN in *. destruct (ind_macd i) as [m|]; [|reflexivity].
        unfold Qgtb in *. apply Qltb_lt in Hpos. apply Qltb_ge. lra. }
      rewrite Hneg. cbn [andb].
      destruct (volatile mc && gtN (ind_risk i) (Some 0.5)); [reflexivity|].
      destruct (uptrend mc && ltN (ind_risk i) (Some 0.6)); [reflexivity|].
      destruct (downtrend mc); [reflexivity|].
      destruct (sideways mc); reflexivity.
    + assert (Hneg : ltN (ind_macd i) (Some 0) = false).
      { unfold ltN, gtN in *. destruct (ind_macd i) as [m|]; [|reflexivity].
        unfold Qgtb in *. apply Qltb_lt in Hpos. apply Qltb_ge. lra. }
      rewrite Hneg. cbn [andb].
      destruct (volatile mc && gtN (ind_risk i) (Some 0.5)); [reflexivity|].
      destruct (uptrend mc && ltN (ind_risk i) (Some 0.6)); [reflexivity|].
      destruct (downtrend mc); [reflexivity|].
      destruct (sideways mc); reflexivity.
  - cbn [andb].
    destruct (ltN (ind_macd i) (Some 0) && ltN (ind_macd i) (ind_signal i));
      [reflexivity|].
    destruct (volatile mc && gtN (ind_risk i) (Some 0.5)); [reflexivity|].
    destruct (uptrend mc && ltN (ind_risk i) (Some 0.6)); [reflexivity|].
    destruct (downtrend mc); [reflexivity|].
    destruct (sideways mc); reflexivity.
Qed.

Lemma firstMatch_in rules dflt :
  firstMatch rules dflt = dflt \/ In (firstMatch rules dflt) (map snd rules).
Proof.
  unfold firstMatch. destruct (find fst rules) as [rule|] eqn:E; [right|left; reflexivity].
  apply find_some in E. apply in_map. apply E.
Qed.

Lemma fallbackDecisionMaking_token (prompt : str) :
  In (decision (fallbackDecisionMaking prompt)) [lit "BUY"; lit "SELL"; lit "HOLD"].
Proof.
  rewrite fallbackDecisionMaking_cascade.
  match goal with |- In (firstMatch ?r ?d) _ => destruct (firstMatch_in r d) as [->|H] end.
  - cbn. auto.
  - cbn [cascadeRules map snd] in H. cbn in H |- *.
    repeat (destruct H as [<-|H]; [auto|]). destruct H.
Qed.

(** C3. Whenever the risk indicator extracted from the prompt is above 0.7,
    the decision heuristic answers HOLD, whatever the prompt says about RSI,
    MACD, the signal line or the market conditions. *)
Theorem C3_risk_override_holds (prompt : str) (risk : Q) :
  ind_risk (extractIndicators (toLowerCase prompt)) = Some risk ->
  0.7 < risk ->
  decision (fallbackDecisionMaking prompt) = lit "HOLD".
Proof.
  intros Hrisk Hgt.
  rewrite fallbackDecisionMaking_cascade.
  unfold firstMatch, cascadeRules. cbn [find fst].
  rewrite Hrisk. cbn [gtN]. unfold Qgtb.
  rewrite (proj2 (Qltb_lt 0.7 risk) Hgt). reflexivity.
Qed.

(** C4 (as amended). Once the risk override and the RSI rules have not
    fired, a MACD that is positive and above the signal line gives BUY when
    risk < 0.5, and a MACD that is negative and below the signal line gives
    SELL; and for every prompt the decision is that of the first rule that
    fires in the fixed order risk, RSI, MACD, market-condition keywords,
    with HOLD as the default. *)
Theorem C4_macd_rule_in_cascade (prompt : str) :
  let i := extractIndicators (toLowerCase prompt) in
  let mc := detectConditions (toLowerCase prompt) in
  decision (fallbackDecisionMaking prompt) = firstMatch (cascadeRules i mc) (lit "HOLD")
  /\ (gtN (ind_risk i) (Some 0.7) = false ->
      gtN (ind_rsi i) (Some 70) = false ->
      ltN (ind_rsi i) (Some 30) = false ->
      (gtN (ind_macd i) (Some 0) = true -> gtN (ind_macd i) (ind_signal i) = true ->
       ltN (ind_risk i) (Some 0.5) = true ->
       decision (fallbackDecisionMaking prompt) = lit "BUY")
      /\ (ltN (ind_macd i) (Some 0) = true -> ltN (ind_macd i) (ind_signal i) = true ->
          decision (fallbackDecisionMaking prompt) = lit "SELL")).
Proof.
  cbv zeta. split; [apply fallbackDecisionMaking_cascade|].
  intros Hrisk Hhigh Hlow.
  rewrite fallbackDecisionMaking_cascade.
  unfold firstMatch, cascadeRules. cbn [find fst].
  rewrite Hrisk, Hhigh, Hlow.
  split.
  - intros H0 Hs Hr. rewrite H0, Hs, Hr. reflexivity.
  - intros H0 Hs. rewrite H0, Hs. cbn [andb].
    destruct (gtN _ (Some 0) && _ && _) eqn:E; [|reflexivity].
    exfalso. apply andb_true_iff in E. destruct E as [E _].
    apply andb_true_iff in E. destruct E as [E _].
    unfold ltN, gtN in *.
    destruct (ind_macd (extractIndicators (toLowerCase prompt))) as [m|];
      [|discriminate].
    unfold Qgtb in *. apply Qltb_lt in E. apply Qltb_lt in H0. lra.
Qed.

End DecisionFacts.

Lemma C3_risk_override_holds_witness :
  decision (fallbackDecisionMaking (F := exactDecimal)
              (lit "RSI: 25, MACD: 0.4, Signal: 0.1, bullish uptrend, risk: 0.9"))
  = lit "HOLD".
Proof.
  apply (@C3_risk_override_holds exactDecimal _ 0.9).
  - vm_compute. reflexivity.
  - vm_compute. reflexivity.
Defined.

(** A prompt whose MACD is above the signal line, with low risk and a
    neutral RSI, that is answered by HOLD: the MACD is not positive. *)
Lemma C4_counterexample : ~ macdRuleAsStated.
Proof.
  intro H.
  specialize (H exactDecimal (lit "RSI: 50, MACD: -0.10, Signal: -0.20, Risk: 0.3")).
  cbv zeta in H.
  destruct H as [Hbuy _]; try (vm_compute; reflexivity).
  assert (E : decision (fallbackDecisionMaking (F := exactDecimal)
                 (lit "RSI: 50, MACD: -0.10, Signal: -0.20, Risk: 0.3")) = lit "BUY").
  { apply Hbuy; vm_compute; reflexivity. }
  vm_compute in E. discriminate E.
Qed.

Lemma C4_macd_rule_in_cascade_witness :
  let prompt := lit "RSI: 50, MACD: 0.30, Signal: 0.10, Risk: 0.3" in
  decision (fallbackDecisionMaking (F := exactDecimal) prompt) = lit "BUY".
Proof.
  cbv zeta.
  refine (proj1 (proj2 (@C4_macd_rule_in_cascade exactDecimal
            (lit "RSI: 50, MACD: 0.30, Signal: 0.10, Risk: 0.3")) _ _ _) _ _ _);
    vm_compute; reflexivity.
Defined.

(* ------------------------------------------------------------------ *)
(** ** Pipeline results                                                *)
(* ------------------------------------------------------------------ *)

Section PipelineFacts.
Context {F : NumberFormat} {T : TableHandlers}.

Lemma decisionFromContent_token (content : str) :
  In (decision (decisionFromContent content)) decisionTokens.
Proof.
  unfold decisionFromContent. cbn [decision].
  destruct (includes (lit "BUY") _); [cbn; auto|].
  destruct (includes (lit "SELL") _); [cbn; auto|].
  destruct (includes (lit "HOLD") _); cbn; auto.
Qed.

Lemma queryDeepSeek_returns (remote : Remote) (prompt : str) :
  exists r, queryDeepSeek remote prompt = Returned r /\ In (decision r) decisionTokens.
Proof.
  unfold queryDeepSeek.
  destruct (deepseekHuggingFace remote) as [text|].
  - destruct (isEmpty text).
    + destruct (deepseekChat remote) as [content|]; eexists; split; try reflexivity.
      * apply decisionFromContent_token.
      * apply fallbackDecisionMaking_token.
    + eexists; split; [reflexivity|]. apply decisionFromContent_token.
  - destruct (deepseekChat remote) as [content|]; eexists; split; try reflexivity.
    + apply decisionFromContent_token.
    + apply fallbackDecisionMaking_token.
Qed.

Lemma queryFLANT5_returns (remote : Remote) (prompt : str) :
  exists r, queryFLANT5 remote prompt = Returned r /\ In (decision r) decisionTokens.
Proof.
  unfold queryFLANT5.
  destruct (queryDeepSeek_returns remote prompt) as (r & -> & Hr).
  exists r. auto.
Qed.

(** The shape of the pipeline's answer: the risk score is the risk scorer
    applied to the snapshot and some sentiment score, and the decision is
    one of the three tokens. *)
Lemma analyzeSignals_shape (remote : Remote) (marketData : MarketData)
  (newsData : NewsData) (useFallback : bool) :
  let r := analyzeSignals remote marketData newsData useFallback in
  (exists sentiment, riskScore r = calculateRiskScore marketData sentiment)
  /\ In (r_decision r) decisionTokens.
Proof.
  cbv zeta. unfold analyzeSignals.
  destruct useFallback.
  - cbn [riskScore r_decision]. split; [eexists; reflexivity|].
    apply fallbackDecisionMaking_token.
  - destruct (queryTapas remote tapasQuestion (convertMarketDataToTable marketData))
      as [tr|];
    destruct (queryDistilBERT remote (newsText newsData)) as [sr|];
    match goal with
    | |- context [queryFLANT5 ?rm ?p] =>
        destruct (queryFLANT5_returns rm p) as (dr & -> & Hd)
    end;
    match goal with
    | |- context [queryBART ?rm ?p] => destruct (queryBART rm p) as [br|]
    end;
    cbn [riskScore r_decision]; (split; [eexists; reflexivity | exact Hd]).
Qed.

(** C5. For every snapshot, news context, behaviour of the remote
    capabilities and fallback switch, the pipeline's riskScore lies in
    [0,1] and its decision is one of BUY, SELL, HOLD; the risk scorer stays
    in [0,1] for every sentiment value; and the default result returned on
    an internal error has the same two properties. *)
Theorem C5_risk_in_unit_interval_decision_in_three
  (remote : Remote) (marketData : MarketData) (newsData : NewsData)
  (useFallback : bool) :
  let r := analyzeSignals remote marketData newsData useFallback in
  (0 <= riskScore r <= 1 /\ In (r_decision r) [lit "BUY"; lit "SELL"; lit "HOLD"])
  /\ (forall sentiment, 0 <= calculateRiskScore marketData sentiment <= 1)
  /\ (0 <= riskScore defaultResult <= 1
      /\ In (r_decision defaultResult) [lit "BUY"; lit "SELL"; lit "HOLD"]).
Proof.
  cbv zeta. split.
  - destruct (analyzeSignals_shape remote marketData newsData useFallback)
      as [(s & Hs) Hd].
    split; [|exact Hd].
    rewrite Hs. apply calculateRiskScore_range.
  - split; [intro sentiment; apply calculateRiskScore_range|].
    split.
    + cbn. split; discriminate.
    + cbn. auto.
Qed.

End PipelineFacts.

(* ------------------------------------------------------------------ *)
(** ** Stable sorting                                                  *)
(* ------------------------------------------------------------------ *)

Lemma in_firstn {A} (k : nat) (l : list A) (x : A) : In x (firstn k l) -> In x l.
Proof.
  intro H. rewrite <- (firstn_skipn k l). apply in_or_app. left. exact H.
Qed.

Lemma in_skipn {A} (k : nat) (l : list A) (x : A) : In x (skipn k l) -> In x l.
Proof.
  intro H. rewrite <- (firstn_skipn k l). apply in_or_app. right. exact H.
Qed.

Section SortFacts.
Variable A : Type.
Variable le : A -> A -> bool.

Lemma insertBy_perm (x : A) (l : list A) : Permutation (insertBy le x l) (x :: l).
Proof.
  induction l as [|y l IH]; cbn.
  - apply Permutation_refl.
  - destruct (le x y).
    + apply Permutation_refl.
    + eapply Permutation_trans; [apply perm_skip, IH | apply perm_swap].
Qed.

Lemma sortBy_perm (l : list A) : Permutation (sortBy le l) l.
Proof.
  induction l as [|x l IH]; cbn.
  - apply perm_nil.
  - eapply Permutation_trans; [apply insertBy_perm | apply perm_skip, IH].
Qed.

Hypothesis le_total : forall x y, le x y = false -> le y x = true.
Hypothesis le_trans : forall x y z, le x y = true -> le y z = true -> le x z = true.

Let R (x y : A) : Prop := le x y = true.

Lemma insertBy_sorted (x : A) (l : list A) :
  StronglySorted R l -> StronglySorted R (insertBy le x l).
Proof.
  induction 1 as [|y l Hs IH Hy]; cbn.
  - constructor; constructor.
  - destruct (le x y) eqn:E.
    + constructor; [constructor; assumption|].
      constructor; [exact E|].
      eapply Forall_impl; [|exact Hy].
      intros z Hz. eapply le_trans; eassumption.
    + constructor; [exact IH|].
      eapply Permutation_Forall; [apply Permutation_sym, insertBy_perm|].
      constructor; [apply le_total, E | exact Hy].
Qed.

Lemma sortBy_sorted (l : list A) : StronglySorted R (sortBy le l).
Proof.
  induction l as [|x l IH]; cbn.
  - constructor.
  - apply insertBy_sorted, IH.
Qed.

Lemma sorted_front_before_back (k : nat) (l : list A) :
  StronglySorted R l ->
  forall x y, In x (firstn k l) -> In y (skipn k l) -> le x y = true.
Proof.
  intro Hs. revert k.
  induction Hs as [|z l Hs IH Hz]; intros k x y Hx Hy.
  - destruct k; destruct Hx.
  - destruct k as [|k]; [destruct Hx|].
    cbn in Hx, Hy. destruct Hx as [<-|Hx].
    + rewrite Forall_forall in Hz. apply Hz.
      apply (in_skipn k l y Hy).
    + eapply IH; eassumption.
Qed.

End SortFacts.

Section SortOnFacts.
Variable A : Type.
Variable le : A -> A -> bool.
Variable P : A -> Prop.

(** The order is total and transitive on the elements that satisfy [P]. *)
Hypothesis le_total_on : forall x y, P x -> P y -> le x y = false -> le y x = true.
Hypothesis le_trans_on :
  forall x y z, P x -> P y -> P z -> le x y = true -> le y z = true -> le x z = true.

Lemma insertBy_sorted_on (x : A) (l : list A) :
  P x -> Forall P l ->
  StronglySorted (fun a b => le a b = true) l ->
  StronglySorted (fun a b => le a b = true) (insertBy le x l).
Proof.
  intros Hx Hl Hs. induction Hs as [|y l Hs IH Hy]; cbn.
  - constructor; constructor.
  - inversion Hl as [|? ? Py Pl]; subst.
    destruct (le x y) eqn:E.
    + constructor; [constructor; assumption|].
      constructor; [exact E|].
      rewrite Forall_forall in Hy, Pl. apply Forall_forall. intros z Hz.
      apply (le_trans_on Hx Py (Pl z Hz) E (Hy z Hz)).
    + constructor; [apply IH, Pl|].
      eapply Permutation_Forall; [apply Permutation_sym, insertBy_perm|].
      constructor; [apply le_total_on; assumption | exact Hy].
Qed.

Lemma sortBy_sorted_on (l : list A) :
  Forall P l -> StronglySorted (fun a b => le a b = true) (sortBy le l).
Proof.
  induction 1 as [|x l Hx Hl IH]; cbn.
  - constructor.
  - apply insertBy_sorted_on; [exact Hx| |exact IH].
    eapply Permutation_Forall; [apply Permutation_sym, sortBy_perm|exact Hl].
Qed.

End SortOnFacts.

(* ------------------------------------------------------------------ *)
(** ** Summarisation heuristic                                         *)
(* ------------------------------------------------------------------ *)

Section SummaryFacts.
Context {F : NumberFormat}.

Lemma mapFrom_index {X} (f : X -> nat -> Scored) (i : nat) (l : list X) :
  (forall x k, index (f x k) = k) ->
  map index (mapFrom f i l) = seq i (length l).
Proof.
  intro Hf. revert i. induction l as [|x l IH]; intro i; cbn.
  - reflexivity.
  - rewrite Hf, IH. reflexivity.
Qed.

Lemma mapFrom_In {X Y} (f : X -> nat -> Y) (d : X) (i : nat) (l : list X) (y : Y) :
  In y (mapFrom f i l) <->
  exists k, (k < length l)%nat /\ y = f (nth k l d) (i + k)%nat.
Proof.
  revert i. induction l as [|x l IH]; intro i; cbn.
  - split; [intros []|intros (k & Hk & _); lia].
  - rewrite IH. split.
    + intros [<-|(k & Hk & ->)].
      * exists 0%nat. split; [lia|]. rewrite Nat.add_0_r. reflexivity.
      * exists (S k). split; [lia|]. f_equal. lia.
    + intros ([|k] & Hk & ->).
      * left. rewrite Nat.add_0_r. reflexivity.
      * right. exists k. split; [lia|]. f_equal. lia.
Qed.

Lemma sentenceScores_indices (sentences : list str) :
  map index (sentenceScores sentences) = seq 0 (length sentences).
Proof. unfold sentenceScores. apply mapFrom_index. reflexivity. Qed.

Lemma sentenceScores_In (sentences : list str) (x : Scored) :
  In x (sentenceScores sentences) <->
  exists k, (k < length sentences)%nat
            /\ x = mkScored (sentenceAt sentences k)
                     (sentenceScore (wordFrequencyOf sentences) (sentenceAt sentences k))
                     k.
Proof.
  unfold sentenceScores, sentenceAt. cbv zeta.
  exact (mapFrom_In _ ([] : str) 0 sentences x).
Qed.

Lemma ceil_third (n : nat) :
  Z.to_nat (Qceiling (ofNat n / 3)) = ((n + 2) / 3)%nat.
Proof.
  unfold Qceiling, Qfloor, ofNat. cbn [Qdiv Qinv Qmult Qopp Qnum Qden inject_Z].
  rewrite Z.mul_1_r. change (Z.pos (1 * 3)) with 3%Z.
  rewrite <- (Nat2Z.id ((n + 2) / 3)). f_equal.
  rewrite Nat2Z.inj_div, Nat2Z.inj_add. cbn [Z.of_nat Pos.of_succ_nat Pos.succ].
  set (a := Z.of_nat n).
  assert (Ha : (0 <= a)%Z) by (subst a; lia).
  pose proof (Z.div_mod (- a) 3 ltac:(lia)) as H1.
  pose proof (Z.mod_pos_bound (- a) 3 ltac:(lia)) as H2.
  pose proof (Z.div_mod (a + 2) 3 ltac:(lia)) as H3.
  pose proof (Z.mod_pos_bound (a + 2) 3 ltac:(lia)) as H4.
  lia.
Qed.

Lemma numSentences_eq (sentences : list str) :
  numSentences sentences = Nat.min 3 ((length sentences + 2) / 3).
Proof. unfold numSentences. rewrite ceil_third. reflexivity. Qed.

Lemma numSentences_le (sentences : list str) :
  (3 <= length sentences)%nat -> (numSentences sentences <= length sentences)%nat.
Proof. intro H. rewrite numSentences_eq. lia. Qed.

Lemma byIndex_total x y : byIndex x y = false -> byIndex y x = true.
Proof.
  unfold byIndex. intro H. apply Nat.leb_gt in H. apply Nat.leb_le. lia.
Qed.

Lemma byIndex_trans x y z :
  byIndex x y = true -> byIndex y z = true -> byIndex x z = true.
Proof.
  unfold byIndex. intros H1 H2. apply Nat.leb_le in H1, H2. apply Nat.leb_le. lia.
Qed.

Lemma sorted_nodup_increasing (l : list Scored) :
  StronglySorted (fun a b => byIndex a b = true) l ->
  NoDup (map index l) ->
  increasing (map index l).
Proof.
  induction 1 as [|x l Hs IH Hx]; intro Hnd; cbn.
  - exact I.
  - inversion Hnd as [|? ? Hnot Hnd']; subst.
    split; [|apply IH, Hnd'].
    destruct l as [|y l]; cbn; [exact I|].
    inversion Hx as [|? ? Hxy _]; subst.
    unfold byIndex in Hxy. apply Nat.leb_le in Hxy.
    assert (index x <> index y) by (intro E; apply Hnot; left; auto).
    lia.
Qed.

Lemma topSentences_facts (sentences : list str) :
  (3 <= length sentences)%nat ->
  length (topSentences sentences) = numSentences sentences
  /\ NoDup (map index (topSentences sentences))
  /\ (forall x, In x (topSentences sentences) -> In x (sentenceScores sentences)).
Proof.
  intro Hn.
  assert (Hperm := sortBy_perm byScore (sentenceScores sentences)).
  unfold topSentences.
  split; [|split].
  - rewrite length_firstn, (Permutation_length Hperm).
    rewrite <- (length_map index), sentenceScores_indices, length_seq.
    pose proof (numSentences_le sentences Hn). lia.
  - assert (Hnd : NoDup (map index (sortBy byScore (sentenceScores sentences)))).
    { eapply Permutation_NoDup; [apply Permutation_map, Permutation_sym, Hperm|].
      rewrite sentenceScores_indices. apply seq_NoDup. }
    rewrite <- (firstn_skipn (numSentences sentences)
                  (sortBy byScore (sentenceScores sentences))) in Hnd.
    rewrite map_app in Hnd. apply NoDup_app_remove_r in Hnd. exact Hnd.
  - intros x Hx. apply (Permutation_in _ Hperm).
    apply (in_firstn _ _ _ Hx).
Qed.

(** *** The frequency table holds the occurrence counts *)

Lemma str_eqb_eq (a b : str) : str_eqb a b = true <-> a = b.
Proof.
  unfold str_eqb. destruct (list_eq_dec ascii_dec a b); split; intro H;
    congruence.
Qed.

Lemma str_eqb_refl (a : str) : str_eqb a a = true.
Proof. apply str_eqb_eq. reflexivity. Qed.

Lemma str_eqb_sym (a b : str) : str_eqb a b = str_eqb b a.
Proof.
  destruct (str_eqb a b) eqn:E1, (str_eqb b a) eqn:E2; try reflexivity.
  - apply str_eqb_eq in E1. subst. rewrite str_eqb_refl in E2. discriminate.
  - apply str_eqb_eq in E2. subst. rewrite str_eqb_refl in E1. discriminate.
Qed.

Lemma plainWord_not_proto (word : str) :
  plainWord word -> str_eqb word (lit "__proto__") = false.
Proof.
  unfold plainWord, inheritedMember. intro H.
  destruct (str_eqb word (lit "constructor")); [discriminate|].
  destruct (str_eqb word (lit "__proto__")); [discriminate|reflexivity].
Qed.

Lemma getFreq_plain (f : Frequencies) (word : str) :
  plainWord word -> getFreq word f = getOwn word f.
Proof.
  unfold plainWord, getFreq. intros ->. destruct (getOwn word f); reflexivity.
Qed.

Lemma getOwn_setOwn (word u : str) (v : Count) (f : Frequencies) :
  getOwn u (setOwn word v f)
  = if str_eqb word u then Some v else getOwn u f.
Proof.
  induction f as [|[w x] f IH]; cbn [setOwn getOwn].
  - destruct (str_eqb word u); reflexivity.
  - destruct (str_eqb w word) eqn:Ew.
    + apply str_eqb_eq in Ew. subst w. cbn [getOwn].
      destruct (str_eqb word u); reflexivity.
    + cbn [getOwn]. destruct (str_eqb w u) eqn:Eu.
      * apply str_eqb_eq in Eu. subst w.
        rewrite str_eqb_sym, Ew. reflexivity.
      * exact IH.
Qed.

Lemma countsOnly_getOwn (f : Frequencies) (u : str) :
  countsOnly f ->
  getOwn u f = None \/ exists n, getOwn u f = Some (Number n) /\ (0 < n)%nat.
Proof.
  induction 1 as [|[w x] f (n & Hx & Hn) _ IH]; cbn [getOwn]; [left; reflexivity|].
  destruct (str_eqb w u); [right; exists n; cbn in Hx; subst x; auto|exact IH].
Qed.

Lemma countsOnly_setOwn (f : Frequencies) (word : str) (n : nat) :
  (0 < n)%nat -> countsOnly f -> countsOnly (setOwn word (Number n) f).
Proof.
  intros Hn. induction 1 as [|[w x] f Hx Hf IH]; cbn [setOwn].
  - constructor; [exists n; auto|constructor].
  - destruct (str_eqb w word).
    + constructor; [exists n; auto|exact Hf].
    + constructor; [exact Hx|exact IH].
Qed.

Lemma countWord_counts (f : Frequencies) (word : str) :
  plainWord word -> countsOnly f ->
  countsOnly (countWord f word)
  /\ forall u, countIn u (countWord f word)
               = (countIn u f
                  + (if str_eqb word u && isKeyword word then 1 else 0))%nat.
Proof.
  intros Hw Hf. unfold countWord. fold (isKeyword word).
  destruct (isKeyword word); [|split; [exact Hf|]].
  2:{ intro u. rewrite andb_false_r. lia. }
  unfold setFreq. rewrite (plainWord_not_proto Hw).
  unfold getFreq. unfold plainWord in Hw. rewrite Hw. cbn [option_map].
  destruct (countsOnly_getOwn word Hf) as [E|(n & E & Hn)]; rewrite E.
  - cbn [orZero jsAdd]. split; [apply countsOnly_setOwn; [lia|exact Hf]|].
    intro u. unfold countIn. rewrite getOwn_setOwn, andb_true_r.
    destruct (str_eqb word u) eqn:Eu.
    + apply str_eqb_eq in Eu. subst u. rewrite E. reflexivity.
    + lia.
  - cbn [orZero truthy]. replace (0 <? n)%nat with true
      by (symmetry; apply Nat.ltb_lt; exact Hn).
    cbn [jsAdd]. split; [apply countsOnly_setOwn; [lia|exact Hf]|].
    intro u. unfold countIn. rewrite getOwn_setOwn, andb_true_r.
    destruct (str_eqb word u) eqn:Eu.
    + apply str_eqb_eq in Eu. subst u. rewrite E. reflexivity.
    + lia.
Qed.

Lemma countWords_counts (words : list str) (f : Frequencies) :
  Forall plainWord words -> countsOnly f ->
  countsOnly (fold_left countWord words f)
  /\ forall u, countIn u (fold_left countWord words f)
               = (countIn u f
                  + (if isKeyword u then length (filter (str_eqb u) words) else 0))%nat.
Proof.
  intro H. revert f. induction H as [|w words Hw _ IH]; intros f Hf.
  - split; [exact Hf|]. intro u. cbn. destruct (isKeyword u); lia.
  - cbn [fold_left]. destruct (countWord_counts Hw Hf) as [Hc Hn].
    destruct (IH _ Hc) as [Hc' Hn']. split; [exact Hc'|].
    intro u. rewrite Hn', Hn. cbn [filter].
    rewrite (str_eqb_sym u w).
    destruct (str_eqb w u) eqn:E.
    + apply str_eqb_eq in E. subst w. cbn [andb length].
      destruct (isKeyword u); lia.
    + cbn [andb]. lia.
Qed.

Lemma wordFrequencyOf_concat (sentences : list str) (f : Frequencies) :
  fold_left (fun f sentence => fold_left countWord (wordsOf sentence) f) sentences f
  = fold_left countWord (concat (map wordsOf sentences)) f.
Proof.
  revert f. induction sentences as [|s sentences IH]; intro f; [reflexivity|].
  cbn [fold_left map concat]. rewrite fold_left_app. apply IH.
Qed.

Lemma plainWords_spec (sentences : list str) :
  plainWords sentences = true ->
  Forall plainWord (concat (map wordsOf sentences))
  /\ forall s, In s sentences -> Forall plainWord (wordsOf s).
Proof.
  unfold plainWords. intro H. rewrite forallb_forall in H.
  assert (G : forall s, In s sentences -> Forall plainWord (wordsOf s)).
  { intros s Hs. specialize (H s Hs). rewrite forallb_forall in H.
    apply Forall_forall. intros w Hw. specialize (H w Hw).
    unfold plainWord. destruct (inheritedMember w); [discriminate|reflexivity]. }
  split; [|exact G].
  apply Forall_forall. intros w Hw. apply in_concat in Hw.
  destruct Hw as (ws & Hws & Hw). apply in_map_iff in Hws.
  destruct Hws as (s & <- & Hs). specialize (G s Hs).
  rewrite Forall_forall in G. apply G, Hw.
Qed.

Lemma wordFrequencyOf_counts (sentences : list str) :
  plainWords sentences = true ->
  countsOnly (wordFrequencyOf sentences)
  /\ forall u, countIn u (wordFrequencyOf sentences)
               = if isKeyword u then occurrences u sentences else 0%nat.
Proof.
  intro H. destruct (plainWords_spec sentences H) as [Hall _].
  unfold wordFrequencyOf. rewrite wordFrequencyOf_concat.
  destruct (@countWords_counts (concat (map wordsOf sentences)) [] Hall
              (Forall_nil _)) as [Hc Hn].
  split; [exact Hc|]. intro u. rewrite Hn. reflexivity.
Qed.

(** With no inherited name among the words, the score the code computes for
    a sentence is its relevance as the specification words it. *)
Lemma sentenceScore_relevance (sentences : list str) (s : str) :
  plainWords sentences = true -> In s sentences ->
  sentenceScore (wordFrequencyOf sentences) s = Some (relevance sentences s).
Proof.
  intros H Hs.
  destruct (wordFrequencyOf_counts sentences H) as [Hc Hn].
  destruct (plainWords_spec sentences H) as [_ Hplain].
  specialize (Hplain s Hs).
  unfold sentenceScore, relevance. cbv zeta.
  set (f := wordFrequencyOf sentences) in *.
  assert (G : forall words acc, Forall plainWord words ->
    fold_left
      (fun score word =>
         match getFreq word f with
         | Some v => if truthy (Some v) then jsAdd score v else score
         | None => score
         end) words (Number acc)
    = Number (acc + fold_right Nat.add 0%nat
                      (map (fun word => if isKeyword word
                                        then occurrences word sentences else 0%nat)
                           words))).
  { intros words acc Hw. revert acc.
    induction Hw as [|w words Hw _ IH]; intro acc.
    - cbn. f_equal. lia.
    - cbn [fold_left map fold_right]. cbv beta.
      rewrite (getFreq_plain f Hw).
      specialize (Hn w). unfold countIn in Hn.
      destruct (countsOnly_getOwn w Hc) as [E|(n & E & Hpos)]; rewrite E in *.
      + rewrite IH. f_equal. lia.
      + cbn [truthy]. replace (0 <? n)%nat with true
          by (symmetry; apply Nat.ltb_lt; exact Hpos).
        cbn [jsAdd]. rewrite IH. f_equal. lia. }
  rewrite (G (wordsOf s) 0%nat Hplain). reflexivity.
Qed.

Lemma byScore_total_on x y :
  scored x -> scored y -> byScore x y = false -> byScore y x = true.
Proof.
  intros (a & Ha) (b & Hb). unfold byScore. rewrite Ha, Hb. intro H.
  apply Qle_bool_iff. apply Qlt_le_weak. apply Qnot_le_lt. intro Hle.
  apply Qle_bool_iff in Hle. congruence.
Qed.

Lemma byScore_trans_on x y z :
  scored x -> scored y -> scored z ->
  byScore x y = true -> byScore y z = true -> byScore x z = true.
Proof.
  intros (a & Ha) (b & Hb) (c & Hc). unfold byScore. rewrite Ha, Hb, Hc.
  intros H1 H2. apply Qle_bool_iff in H1, H2.
  apply Qle_bool_iff. eapply Qle_trans; eassumption.
Qed.

Lemma sentenceScores_relevance (sentences : list str) (x : Scored) :
  plainWords sentences = true ->
  In x (sentenceScores sentences) <->
  exists k, (k < length sentences)%nat
            /\ x = mkScored (sentenceAt sentences k) (Some (scoreAt sentences k)) k.
Proof.
  intro H. rewrite sentenceScores_In. unfold scoreAt.
  split; intros (k & Hk & ->); exists k; (split; [exact Hk|]); f_equal.
  - apply sentenceScore_relevance; [exact H|]. unfold sentenceAt. apply nth_In, Hk.
  - symmetry. apply sentenceScore_relevance; [exact H|].
    unfold sentenceAt. apply nth_In, Hk.
Qed.

(** The summary of a text of three or more sentences none of whose words is
    an inherited name. *)
Lemma summary_of_long_text (sentences : list str) :
  (3 <= length sentences)%nat ->
  plainWords sentences = true ->
  exists positions,
    increasing positions
    /\ Forall (fun i => (i < length sentences)%nat) positions
    /\ length positions = Nat.min 3 ((length sentences + 2) / 3)
    /\ assemble (map sentence (selectedSentences sentences))
       = assemble (map (sentenceAt sentences) positions)
    /\ (forall i j, In i positions -> (j < length sentences)%nat ->
                    ~ In j positions ->
                    scoreAt sentences j <= scoreAt sentences i).
Proof.
  intros Hn Hplain.
  destruct (topSentences_facts sentences Hn) as (Hlen & Hnd & Hin).
  assert (Hperm : Permutation (selectedSentences sentences) (topSentences sentences)).
  { unfold selectedSentences. apply sortBy_perm. }
  assert (Hsel : forall x, In x (selectedSentences sentences) ->
                           In x (sentenceScores sentences)).
  { intros x Hx. apply Hin. apply (Permutation_in _ Hperm Hx). }
  assert (Hscored : Forall scored (sentenceScores sentences)).
  { apply Forall_forall. intros x Hx.
    apply (sentenceScores_relevance sentences x Hplain) in Hx.
    destruct Hx as (k & _ & ->). eexists. reflexivity. }
  assert (Hsorted : StronglySorted (fun a b => byScore a b = true)
                      (sortBy byScore (sentenceScores sentences))).
  { apply (@sortBy_sorted_on Scored byScore scored);
      [apply byScore_total_on | apply byScore_trans_on | exact Hscored]. }
  exists (map index (selectedSentences sentences)).
  split; [|split; [|split; [|split]]].
  - apply sorted_nodup_increasing.
    + unfold selectedSentences.
      apply sortBy_sorted; [apply byIndex_total | apply byIndex_trans].
    + eapply Permutation_NoDup; [apply Permutation_map, Permutation_sym, Hperm|].
      exact Hnd.
  - apply Forall_forall. intros i Hi. apply in_map_iff in Hi.
    destruct Hi as (x & <- & Hx). apply Hsel, sentenceScores_In in Hx.
    destruct Hx as (k & Hk & ->). exact Hk.
  - rewrite length_map, (Permutation_length Hperm), Hlen. apply numSentences_eq.
  - f_equal. rewrite map_map. apply map_ext_in. intros x Hx.
    apply Hsel, sentenceScores_In in Hx. destruct Hx as (k & Hk & ->). reflexivity.
  - intros i j Hi Hj Hnot.
    apply in_map_iff in Hi. destruct Hi as (x & <- & Hx).
    assert (Hxtop : In x (topSentences sentences))
      by (apply (Permutation_in _ Hperm Hx)).
    pose proof (Hsel x Hx) as Hxs.
    apply (sentenceScores_relevance sentences x Hplain) in Hxs.
    destruct Hxs as (k & Hk & Hxk).
    set (y := mkScored (sentenceAt sentences j) (Some (scoreAt sentences j)) j).
    assert (Hy : In y (sentenceScores sentences)).
    { apply (sentenceScores_relevance sentences y Hplain). exists j. auto. }
    assert (Hys : In y (sortBy byScore (sentenceScores sentences))).
    { apply (Permutation_in _ (Permutation_sym (sortBy_perm byScore _)) Hy). }
    rewrite <- (firstn_skipn (numSentences sentences)
                  (sortBy byScore (sentenceScores sentences))) in Hys.
    apply in_app_or in Hys. destruct Hys as [Hfront|Hback].
    + exfalso. apply Hnot.
      apply in_map_iff. exists y. split; [reflexivity|].
      apply (Permutation_in _ (Permutation_sym Hperm)). exact Hfront.
    + assert (Hle : byScore x y = true).
      { eapply sorted_front_before_back; [exact Hsorted| exact Hxtop | exact Hback]. }
      subst x. unfold byScore in Hle. cbn [sc_score index] in *.
      apply Qle_bool_iff in Hle. exact Hle.
Qed.

(** *** Sentences hold no terminator *)

Lemma noTerminator_rev (s : str) : noTerminator s = true -> noTerminator (rev s) = true.
Proof.
  unfold noTerminator. rewrite !forallb_forall. intros H c Hc.
  apply H. apply in_rev. exact Hc.
Qed.

Lemma noTerminator_dropWhile (p : ascii -> bool) (s : str) :
  noTerminator s = true -> noTerminator (dropWhile p s) = true.
Proof.
  induction s as [|c s IH]; [reflexivity|].
  intro H. cbn [dropWhile]. destruct (p c); [|exact H].
  apply IH. cbn in H. apply andb_true_iff in H. apply H.
Qed.

Lemma noTerminator_trim (s : str) : noTerminator s = true -> noTerminator (trim s) = true.
Proof.
  intro H. unfold trim.
  apply noTerminator_rev, noTerminator_dropWhile, noTerminator_rev,
    noTerminator_dropWhile, H.
Qed.

Lemma splitRunsAux_noTerminator (s cur : str) (inRun : bool) :
  noTerminator cur = true ->
  Forall (fun piece => noTerminator piece = true)
         (splitRunsAux isTerminator cur inRun s).
Proof.
  revert cur inRun. induction s as [|c s IH]; intros cur inRun Hcur; cbn [splitRunsAux].
  - constructor; [apply noTerminator_rev, Hcur|constructor].
  - destruct (isTerminator c) eqn:E.
    + destruct inRun.
      * apply IH. reflexivity.
      * constructor; [apply noTerminator_rev, Hcur|apply IH; reflexivity].
    + apply IH. cbn. rewrite E. exact Hcur.
Qed.

Lemma sentencesOf_noTerminator (text : str) :
  Forall (fun s => noTerminator s = true) (sentencesOf text).
Proof.
  unfold sentencesOf. apply Forall_forall. intros s Hs.
  apply filter_In in Hs. destruct Hs as [Hs _].
  pose proof (@splitRunsAux_noTerminator text [] false eq_refl) as H.
  rewrite Forall_forall in H. apply H. exact Hs.
Qed.

Lemma noTerminator_differs (a b : str) :
  noTerminator a = true -> existsb isTerminator b = true -> a <> b.
Proof.
  intros Ha Hb E. subst b.
  apply existsb_exists in Hb. destruct Hb as (c & Hc & Ht).
  unfold noTerminator in Ha. rewrite forallb_forall in Ha.
  specialize (Ha c Hc). rewrite Ht in Ha. discriminate.
Qed.

End SummaryFacts.

(** C8. A text of one sentence is not returned verbatim: the summary is the
    sentence cut at its terminator and trimmed, so it holds no full stop,
    exclamation mark or question mark and differs from every text that has
    one, while the reasoning says that the text is returned as is.  The
    text "Hello world." gives "Hello world".  (A text of two sentences gives
    both of them, where the stated count min(3, ceil(2/3)) is one; and in a
    longer text a sentence with the word "constructor", which the frequency
    object inherits, has the score NaN: so for the first sentence of
    "constructor. alpha alpha. gamma.".  A text without any sentence gives
    the fixed message, as stated.) *)
Theorem C8_single_sentence_loses_its_terminator :
  (forall (F : NumberFormat) (text only : str),
      sentencesOf text = [only] ->
      summary (fallbackSummarization text) = trim only
      /\ b_reasoning (fallbackSummarization text)
         = lit "Summarization reasoning:" ++ nl
           ++ lit "- Text contains only one sentence, returning as is" ++ nl
      /\ (existsb isTerminator text = true ->
          summary (fallbackSummarization text) <> text))
  /\ (forall F : NumberFormat,
        sentencesOf (lit "Hello world.") = [lit "Hello world"]
        /\ summary (fallbackSummarization (lit "Hello world.")) = lit "Hello world")
  /\ ~ singleSentenceVerbatim
  /\ (forall (F : NumberFormat) (text first second : str),
        sentencesOf text = [first; second] ->
        summary (fallbackSummarization text) = assemble [first; second])
  /\ map sc_score
         (sentenceScores (sentencesOf (lit "constructor. alpha alpha. gamma.")))
     = [None; Some (4 # 3); Some (1 # 2)]
  /\ (forall (F : NumberFormat) (text : str),
        sentencesOf text = [] ->
        summary (fallbackSummarization text) = lit "No content to summarize.").
Proof.
  split; [|split; [|split; [|split; [|split]]]].
  - intros F text only E. unfold fallbackSummarization. rewrite E.
    cbn [summary b_reasoning]. split; [reflexivity|]. split; [reflexivity|].
    apply noTerminator_differs. apply noTerminator_trim.
    pose proof (sentencesOf_noTerminator text) as H. rewrite E in H.
    inversion H; assumption.
  - intro F. split; reflexivity.
  - intro H. specialize (H exactDecimal (lit "Hello world.") eq_refl).
    discriminate H.
  - intros F text first second E. unfold fallbackSummarization. rewrite E.
    cbn. unfold assemble. cbn. rewrite <- !app_assoc. reflexivity.
  - vm_compute. reflexivity.
  - intros F text E. unfold fallbackSummarization. rewrite E. reflexivity.
Qed.

(** X28. The summary of a text of three or more sentences, none of whose
    words is a name that every object inherits (constructor, __proto__):
    it consists of min(3, ceil(n/3)) of the sentences, in their original
    order, each trimmed, joined by ". " and closed by a full stop, and no
    sentence left out has a higher relevance than a sentence kept.  The
    relevance of a sentence is the sum, over its words that are longer than
    three characters and no stop words, of the number of occurrences of
    the word in the text, divided by the number of words of the sentence
    (the exact quotient). *)
Theorem summary_keeps_the_most_relevant_sentences (F : NumberFormat) (text : str) :
  let sentences := sentencesOf text in
  (3 <= length sentences)%nat ->
  plainWords sentences = true ->
  exists positions,
    increasing positions
    /\ Forall (fun i => (i < length sentences)%nat) positions
    /\ length positions = Nat.min 3 ((length sentences + 2) / 3)
    /\ summary (fallbackSummarization text)
       = assemble (map (sentenceAt sentences) positions)
    /\ (forall i j, In i positions -> (j < length sentences)%nat ->
                    ~ In j positions ->
                    scoreAt sentences j <= scoreAt sentences i).
Proof.
  cbv zeta. intros Hn Hplain.
  destruct (summary_of_long_text (sentencesOf text) Hn Hplain)
    as (positions & H1 & H2 & H3 & H4 & H5).
  exists positions. split; [exact H1|]. split; [exact H2|]. split; [exact H3|].
  split; [|exact H5].
  unfold fallbackSummarization.
  destruct (sentencesOf text) as [|s1 [|s2 [|s3 rest]]] eqn:E;
    try (cbn in Hn; lia).
  cbn [length Nat.ltb Nat.leb summary]. exact H4.
Qed.

Lemma summary_keeps_the_most_relevant_sentences_witness :
  let F := exactDecimal in
  let text := lit "Bitcoin rallied today. Markets were calm. Bitcoin volume grew while bitcoin miners sold. Traders wait." in
  let sentences := sentencesOf text in
  exists positions,
    increasing positions
    /\ Forall (fun i => (i < length sentences)%nat) positions
    /\ length positions = Nat.min 3 ((length sentences + 2) / 3)
    /\ summary (fallbackSummarization text)
       = assemble (map (sentenceAt sentences) positions)
    /\ (forall i j, In i positions -> (j < length sentences)%nat ->
                    ~ In j positions ->
                    scoreAt sentences j <= scoreAt sentences i).
Proof.
  cbv zeta.
  apply (@summary_keeps_the_most_relevant_sentences exactDecimal);
    [vm_compute; lia | vm_compute; reflexivity].
Defined.

(* ------------------------------------------------------------------ *)
(** ** Fallback flags                                                  *)
(* ------------------------------------------------------------------ *)

(** C2. The request of the route ([mockMarketData], [mockNewsData], no
    forced fallback) with every remote capability failing: the four stages
    answer with their local heuristics, and yet the four per-stage flags and
    the overall flag of the route are all false.  The wrappers catch the
    failure themselves, and the test for the word Fallback in the reasoning
    text never succeeds on a heuristic's reasoning. *)
Theorem C2_flags_unset_when_every_stage_fell_back (T : TableHandlers) :
  let F := exactDecimal in
  let r := analyzeSignals remoteDown mockMarketData mockNewsData false in
  let sentiment := fallbackSentimentAnalysis (newsText mockNewsData) in
  let prompt := decisionPrompt mockMarketData (lit "HOLD") (score sentiment) in
  let verdict := fallbackDecisionMaking prompt in
  (tapasReasoning r
   = t_reasoning (fallbackTableAnalysis tapasQuestion
                    (convertMarketDataToTable mockMarketData))
   /\ sentimentReasoning r = s_reasoning sentiment
   /\ decisionReasoning r = d_reasoning verdict
   /\ summaryReasoning r
      = b_reasoning
          (fallbackSummarization
             (narrative mockMarketData (score sentiment) ++ lit " "
              ++ lit "The trading decision is to " ++ decision verdict ++ lit ".")))
  /\ (tapasUsingFallback r = false
      /\ sentimentUsingFallback r = false
      /\ decisionUsingFallback r = false
      /\ summaryUsingFallback r = false)
  /\ a_useFallback (GET remoteDown None None) = false.
Proof.
  cbv zeta. repeat split; vm_compute; reflexivity.
Qed.

Section FlagFacts.
Context {F : NumberFormat} {T : TableHandlers}.

(** The formatters print digits, signs, points, exponents, NaN or Infinity:
    never a capital F. *)
Hypothesis toFixed_freeOfF : forall d q, freeOfF (toFixed d q) = true.
Hypothesis numberToString_freeOfF : forall q, freeOfF (numberToString q) = true.

Lemma freeOfF_app (a b : str) : freeOfF (a ++ b) = freeOfF a && freeOfF b.
Proof. apply forallb_app. Qed.

Lemma freeOfF_join (sep : str) (l : list str) :
  freeOfF sep = true -> Forall (fun x => freeOfF x = true) l ->
  freeOfF (join sep l) = true.
Proof.
  intros Hsep Hl. induction Hl as [|x l Hx Hl IH]; [reflexivity|].
  destruct l as [|y l]; [exact Hx|].
  change (join sep (x :: y :: l)) with (x ++ sep ++ join sep (y :: l)).
  rewrite !freeOfF_app, Hx, Hsep, IH. reflexivity.
Qed.

Lemma includes_Fallback_needs_F (s : str) :
  freeOfF s = true -> includes (lit "Fallback") s = false.
Proof.
  induction s as [|c s IH]; [reflexivity|].
  cbn [freeOfF forallb]. intro H. apply andb_true_iff in H. destruct H as [Hc Hs].
  cbn [includes]. rewrite (IH Hs), orb_false_r.
  cbn [lit list_ascii_of_string startsWith].
  unfold charIs in Hc. apply negb_true_iff in Hc.
  rewrite Ascii.eqb_sym, Hc. reflexivity.
Qed.

Lemma mentionsFallback_freeOfF (s : str) :
  freeOfF s = true -> mentionsFallback s = false.
Proof.
  intro H. unfold mentionsFallback.
  rewrite (includes_Fallback_needs_F s H). apply andb_false_r.
Qed.

Lemma freeOfF_uint (u : Decimal.uint) :
  freeOfF (lit (NilEmpty.string_of_uint u)) = true.
Proof. induction u; cbn; auto. Qed.

Lemma freeOfF_natToString (n : nat) : freeOfF (natToString n) = true.
Proof. apply freeOfF_uint. Qed.

Lemma freeOfF_showNumber (x : option Q) : freeOfF (showNumber x) = true.
Proof. destruct x; [apply numberToString_freeOfF | reflexivity]. Qed.

Lemma toLower_not_F (c : ascii) : negb (charIs "F" (toLower c)) = true.
Proof.
  destruct c as [[] [] [] [] [] [] [] []]; reflexivity.
Qed.

Lemma freeOfF_toLowerCase (s : str) : freeOfF (toLowerCase s) = true.
Proof.
  induction s as [|c s IH]; [reflexivity|].
  cbn. rewrite toLower_not_F. exact IH.
Qed.

Lemma freeOfF_rev (s : str) : freeOfF s = true -> freeOfF (rev s) = true.
Proof.
  unfold freeOfF. rewrite !forallb_forall. intros H c Hc.
  apply H. apply in_rev. exact Hc.
Qed.

Lemma freeOfF_splitRunsAux (sep : ascii -> bool) (s cur : str) (inRun : bool) :
  freeOfF s = true -> freeOfF cur = true ->
  Forall (fun x => freeOfF x = true) (splitRunsAux sep cur inRun s).
Proof.
  revert cur inRun. induction s as [|c s IH]; intros cur inRun Hs Hcur; cbn.
  - constructor; [apply freeOfF_rev, Hcur | constructor].
  - cbn in Hs. apply andb_true_iff in Hs. destruct Hs as [Hc Hs].
    destruct (sep c).
    + destruct inRun.
      * apply IH; auto.
      * constructor; [apply freeOfF_rev, Hcur | apply IH; auto].
    + apply IH; [exact Hs|]. cbn. rewrite Hc. exact Hcur.
Qed.

Lemma freeOfF_wordsOf (sentence : str) :
  Forall (fun x => freeOfF x = true) (wordsOf sentence).
Proof.
  unfold wordsOf, splitRuns.
  apply freeOfF_splitRunsAux; [apply freeOfF_toLowerCase | reflexivity].
Qed.

Lemma setOwn_keys (word : str) (v : Count) (f : Frequencies) :
  freeOfF word = true -> freeOfF (showCount v) = true ->
  keysFreeOfF f -> keysFreeOfF (setOwn word v f).
Proof.
  intros Hw Hv Hf. induction Hf as [|[w m] f Hx Hf IH]; cbn [setOwn].
  - constructor; [split; assumption | constructor].
  - destruct (str_eqb w word); constructor; auto.
    cbn [fst snd] in *. split; [apply Hx|exact Hv].
Qed.

Lemma getOwn_freeOfF (word : str) (f : Frequencies) (v : Count) :
  keysFreeOfF f -> getOwn word f = Some v -> freeOfF (showCount v) = true.
Proof.
  induction 1 as [|[w m] f Hx Hf IH]; cbn [getOwn]; [discriminate|].
  destruct (str_eqb w word); [|exact IH].
  intros [= <-]. apply Hx.
Qed.

Lemma getFreq_freeOfF (word : str) (f : Frequencies) (v : Count) :
  keysFreeOfF f -> getFreq word f = Some v -> freeOfF (showCount v) = true.
Proof.
  intros Hf. unfold getFreq.
  destruct (getOwn word f) as [u|] eqn:E.
  - intros [= <-]. eapply getOwn_freeOfF; eassumption.
  - unfold inheritedMember.
    destruct (str_eqb word (lit "constructor")); [intros [= <-]; reflexivity|].
    destruct (str_eqb word (lit "__proto__")); [intros [= <-]; reflexivity|].
    discriminate.
Qed.

Lemma jsAdd_freeOfF (a b : Count) :
  freeOfF (showCount a) = true -> freeOfF (showCount b) = true ->
  freeOfF (showCount (jsAdd a b)) = true.
Proof.
  destruct a as [x|s], b as [y|t]; cbn [jsAdd showCount]; intros Ha Hb;
    rewrite ?freeOfF_app, ?Ha, ?Hb, ?freeOfF_natToString;
    try reflexivity; apply freeOfF_natToString.
Qed.

Lemma orZero_freeOfF (f : Frequencies) (word : str) :
  keysFreeOfF f -> freeOfF (showCount (orZero (getFreq word f))) = true.
Proof.
  intro Hf. destruct (getFreq word f) as [v|] eqn:E; [|reflexivity].
  unfold orZero. destruct (truthy (Some v)); [|reflexivity].
  eapply getFreq_freeOfF; eassumption.
Qed.

Lemma countWords_keys (words : list str) (f : Frequencies) :
  Forall (fun x => freeOfF x = true) words -> keysFreeOfF f ->
  keysFreeOfF (fold_left countWord words f).
Proof.
  intro Hw. revert f. induction Hw as [|w words Hx Hw IH]; intros f Hf; cbn.
  - exact Hf.
  - apply IH. unfold countWord.
    destruct ((3 <? length w)%nat && negb (arrayIncludes w stopWords)); [|exact Hf].
    unfold setFreq. destruct (str_eqb w (lit "__proto__")); [exact Hf|].
    apply setOwn_keys; [exact Hx| |exact Hf].
    apply jsAdd_freeOfF; [apply orZero_freeOfF, Hf|reflexivity].
Qed.

Lemma wordFrequencyOf_keys (sentences : list str) :
  keysFreeOfF (wordFrequencyOf sentences).
Proof.
  unfold wordFrequencyOf.
  assert (G : forall f, keysFreeOfF f ->
                keysFreeOfF (fold_left (fun f sentence =>
                                          fold_left countWord (wordsOf sentence) f)
                                       sentences f)).
  { induction sentences as [|x l IH]; intros f Hf; cbn; [exact Hf|].
    apply IH. apply countWords_keys; [apply freeOfF_wordsOf | exact Hf]. }
  apply G. constructor.
Qed.

Lemma Forall_filter {A} (P : A -> Prop) (p : A -> bool) (l : list A) :
  Forall P l -> Forall P (filter p l).
Proof.
  intro H. apply Forall_forall. intros x Hx. apply filter_In in Hx.
  rewrite Forall_forall in H. apply H, Hx.
Qed.

Lemma Forall_sortBy {A} (P : A -> Prop) (le : A -> A -> bool) (l : list A) :
  Forall P l -> Forall P (sortBy le l).
Proof.
  intro H. eapply Permutation_Forall; [apply Permutation_sym, sortBy_perm | exact H].
Qed.

Lemma Forall_firstn {A} (P : A -> Prop) (k : nat) (l : list A) :
  Forall P l -> Forall P (firstn k l).
Proof.
  intro H. apply Forall_forall. intros x Hx.
  rewrite Forall_forall in H. apply H. eapply in_firstn, Hx.
Qed.

Lemma objectEntries_keys (f : Frequencies) :
  keysFreeOfF f -> keysFreeOfF (objectEntries f).
Proof.
  intro H. unfold objectEntries, keysFreeOfF.
  apply Forall_app. split.
  - apply Forall_sortBy, Forall_filter, H.
  - apply Forall_filter, H.
Qed.

Ltac free_of_F :=
  repeat (rewrite freeOfF_app; apply andb_true_iff; split);
  try reflexivity;
  try apply freeOfF_natToString;
  try apply freeOfF_showNumber;
  try apply toFixed_freeOfF;
  try apply numberToString_freeOfF.

Lemma fallbackSummarization_freeOfF (text : str) :
  freeOfF (b_reasoning (fallbackSummarization text)) = true.
Proof.
  unfold fallbackSummarization.
  destruct (sentencesOf text) as [|s1 [|s2 rest]]; [reflexivity|reflexivity|].
  set (sentences := s1 :: s2 :: rest).
  destruct (2 <? length sentences)%nat; cbn [b_reasoning]; [|reflexivity].
  free_of_F.
  - apply freeOfF_join; [reflexivity|].
    apply Forall_map.
    pose proof (objectEntries_keys (wordFrequencyOf_keys sentences)) as Hk.
    apply (Forall_sortBy byCount) in Hk.
    apply (Forall_firstn 5) in Hk.
    eapply Forall_impl; [|exact Hk].
    intros e He. cbv beta. free_of_F; apply He.
  - apply freeOfF_join; [reflexivity|].
    apply Forall_map. apply Forall_forall. intros x _. free_of_F.
    unfold showScore. destruct (sc_score x); [apply toFixed_freeOfF|reflexivity].
Qed.

Lemma scanKeywords_matched (keywords : list (str * Q)) (lowerText : str)
  (start : Q * Q * list str) :
  Forall (fun kw => freeOfF (fst kw) = true) keywords ->
  Forall (fun x => freeOfF x = true) (snd start) ->
  Forall (fun x => freeOfF x = true) (snd (scanKeywords keywords lowerText start)).
Proof.
  unfold scanKeywords. intro Hk. revert start.
  induction Hk as [|kw keywords Hkw Hk IH]; intros start Hs; cbn [fold_left].
  - exact Hs.
  - apply IH. destruct start as [[sc tot] matched].
    destruct (includes (fst kw) lowerText); [|exact Hs].
    cbn [snd] in *. apply Forall_app. split; [exact Hs|].
    constructor; [exact Hkw | constructor].
Qed.

Lemma keywords_freeOfF :
  Forall (fun kw : str * Q => freeOfF (fst kw) = true) positiveKeywords
  /\ Forall (fun kw : str * Q => freeOfF (fst kw) = true) negativeKeywords.
Proof.
  split; apply Forall_forall; intros kw Hkw; cbn in Hkw;
    repeat (destruct Hkw as [<-|Hkw]; [reflexivity|]); destruct Hkw.
Qed.

Lemma fallbackSentimentAnalysis_freeOfF (text : str) :
  freeOfF (s_reasoning (fallbackSentimentAnalysis text)) = true.
Proof.
  unfold fallbackSentimentAnalysis.
  destruct keywords_freeOfF as [Hpos Hneg].
  pose proof (@scanKeywords_matched positiveKeywords (toLowerCase text) (0, 0, [])
                Hpos (Forall_nil _)) as H1.
  destruct (scanKeywords positiveKeywords (toLowerCase text) (0, 0, []))
    as [[positiveScore totalWeight] matchedPositive].
  pose proof (@scanKeywords_matched negativeKeywords (toLowerCase text)
                (0, totalWeight, []) Hneg (Forall_nil _)) as H2.
  destruct (scanKeywords negativeKeywords (toLowerCase text) (0, totalWeight, []))
    as [[negativeScore totalWeight'] matchedNegative].
  cbn [snd] in H1, H2.
  destruct (Qeq_bool totalWeight' 0); [reflexivity|].
  cbn [s_reasoning].
  free_of_F.
  - destruct (0 <? length matchedPositive)%nat;
      destruct (0 <? length matchedNegative)%nat; free_of_F;
      apply freeOfF_join; auto.
  - destruct (Qltb _ 0.4); [reflexivity|]. destruct (Qgtb _ 0.6); reflexivity.
Qed.

Lemma detectedConditions_freeOfF (mc : MarketConditions) :
  Forall (fun x => freeOfF x = true) (detectedConditions mc).
Proof.
  unfold detectedConditions. apply Forall_map. apply Forall_filter.
  repeat constructor.
Qed.

Lemma fallbackDecisionMaking_freeOfF (prompt : str) :
  freeOfF (d_reasoning (fallbackDecisionMaking prompt)) = true.
Proof.
  unfold fallbackDecisionMaking, decide.
  set (i := extractIndicators (toLowerCase prompt)).
  set (mc := detectConditions (toLowerCase prompt)).
  cbv zeta.
  assert (Hbase :
    freeOfF
      (if (0 <? length (detectedConditions mc))%nat
       then ((lit "Trading decision reasoning:" ++ nl)
             ++ lit "- Extracted indicators: RSI=" ++ showNumber (ind_rsi i)
             ++ lit ", MACD=" ++ showNumber (ind_macd i)
             ++ lit ", Signal=" ++ showNumber (ind_signal i)
             ++ lit ", Risk=" ++ showNumber (ind_risk i) ++ nl)
            ++ lit "- Detected market conditions: "
            ++ join (lit ", ") (detectedConditions mc) ++ nl
       else ((lit "Trading decision reasoning:" ++ nl)
             ++ lit "- Extracted indicators: RSI=" ++ showNumber (ind_rsi i)
             ++ lit ", MACD=" ++ showNumber (ind_macd i)
             ++ lit ", Signal=" ++ showNumber (ind_signal i)
             ++ lit ", Risk=" ++ showNumber (ind_risk i) ++ nl)
            ++ lit "- No specific market conditions detected" ++ nl) = true).
  { destruct (0 <? length (detectedConditions mc))%nat; free_of_F.
    apply freeOfF_join; [reflexivity | apply detectedConditions_freeOfF]. }
  set (base := if (0 <? length (detectedConditions mc))%nat then _ else _) in *.
  destruct (gtN (ind_risk i) (Some 0.7)); [cbn [d_reasoning]; free_of_F; exact Hbase|].
  destruct (gtN (ind_rsi i) (Some 70)); [cbn [d_reasoning]; free_of_F; exact Hbase|].
  destruct (ltN (ind_rsi i) (Some 30)); [cbn [d_reasoning]; free_of_F; exact Hbase|].
  destruct (gtN (ind_macd i) (Some 0) && gtN (ind_macd i) (ind_signal i)).
  - destruct (ltN (ind_risk i) (Some 0.5)); [cbn [d_reasoning]; free_of_F; exact Hbase|].
    destruct (volatile mc && gtN (ind_risk i) (Some 0.5));
      [cbn [d_reasoning]; free_of_F; exact Hbase|].
    destruct (uptrend mc && ltN (ind_risk i) (Some 0.6));
      [cbn [d_reasoning]; free_of_F; exact Hbase|].
    destruct (downtrend mc); [cbn [d_reasoning]; free_of_F; exact Hbase|].
    destruct (sideways mc); cbn [d_reasoning]; free_of_F; exact Hbase.
  - destruct (ltN (ind_macd i) (Some 0) && ltN (ind_macd i) (ind_signal i));
      [cbn [d_reasoning]; free_of_F; exact Hbase|].
    destruct (volatile mc && gtN (ind_risk i) (Some 0.5));
      [cbn [d_reasoning]; free_of_F; exact Hbase|].
    destruct (uptrend mc && ltN (ind_risk i) (Some 0.6));
      [cbn [d_reasoning]; free_of_F; exact Hbase|].
    destruct (downtrend mc); [cbn [d_reasoning]; free_of_F; exact Hbase|].
    destruct (sideways mc); cbn [d_reasoning]; free_of_F; exact Hbase.
Qed.

(** Whatever the snapshot and the news, when every remote capability fails
    each stage answers with its local heuristic and no flag is set. *)
Lemma flags_unset_when_remote_down (marketData : MarketData) (newsData : NewsData) :
  let r := analyzeSignals remoteDown marketData newsData false in
  sentimentReasoning r = s_reasoning (fallbackSentimentAnalysis (newsText newsData))
  /\ tapasUsingFallback r = false
  /\ sentimentUsingFallback r = false
  /\ decisionUsingFallback r = false
  /\ summaryUsingFallback r = false.
Proof.
  cbv zeta. unfold analyzeSignals, remoteDown, queryTapas, queryDistilBERT,
    queryFLANT5, queryDeepSeek, queryBART.
  cbn [tapasBaseWtq tapasLargeWtq tapasBase distilbertSst2 bartLargeCnn
       deepseekHuggingFace deepseekChat].
  cbn [tapasUsingFallback sentimentUsingFallback decisionUsingFallback
       summaryUsingFallback sentimentReasoning].
  split; [reflexivity|]. split; [reflexivity|]. split; [|split].
  - apply mentionsFallback_freeOfF, fallbackSentimentAnalysis_freeOfF.
  - apply mentionsFallback_freeOfF, fallbackDecisionMaking_freeOfF.
  - apply mentionsFallback_freeOfF, fallbackSummarization_freeOfF.
Qed.

End FlagFacts.

(* ------------------------------------------------------------------ *)
(** ** The exact-decimal formatter prints no capital F                 *)
(* ------------------------------------------------------------------ *)

Lemma freeOfF_ZToString (z : Z) : freeOfF (ZToString z) = true.
Proof. apply freeOfF_uint. Qed.

Lemma freeOfF_zeros (k : nat) : freeOfF (repeat "0"%char k) = true.
Proof. induction k; cbn; auto. Qed.

Lemma freeOfF_firstn (k : nat) (s : str) : freeOfF s = true -> freeOfF (firstn k s) = true.
Proof.
  unfold freeOfF. rewrite !forallb_forall. intros H c Hc.
  apply H. eapply in_firstn, Hc.
Qed.

Lemma freeOfF_skipn (k : nat) (s : str) : freeOfF s = true -> freeOfF (skipn k s) = true.
Proof.
  unfold freeOfF. rewrite !forallb_forall. intros H c Hc.
  apply H. eapply in_skipn, Hc.
Qed.

Lemma digitChar_not_F (d : Z) :
  (0 <= d <= 9)%Z -> negb (charIs "F" (digitChar d)) = true.
Proof.
  intro H.
  assert (E : (d = 0 \/ d = 1 \/ d = 2 \/ d = 3 \/ d = 4 \/ d = 5 \/ d = 6
               \/ d = 7 \/ d = 8 \/ d = 9)%Z) by lia.
  repeat (destruct E as [->|E]; [reflexivity|]). subst d. reflexivity.
Qed.

Lemma freeOfF_fractionDigits (fuel : nat) (r : Q) :
  0 <= r -> r < 1 -> freeOfF (fractionDigits fuel r) = true.
Proof.
  revert r. induction fuel as [|fuel IH]; intros r H0 H1; cbn [fractionDigits].
  - reflexivity.
  - destruct (Qeq_bool r 0); [reflexivity|].
    pose proof (Qfloor_le (r * 10)) as Hlo.
    pose proof (Qlt_floor (r * 10)) as Hhi.
    assert (Hd0 : (0 <= Qfloor (r * 10))%Z).
    { change 0%Z with (Qfloor 0). apply Qfloor_resp_le. lra. }
    assert (Hd9 : (Qfloor (r * 10) <= 9)%Z).
    { assert (Hlt : inject_Z (Qfloor (r * 10)) < inject_Z 10).
      { eapply Qle_lt_trans; [exact Hlo|]. change (inject_Z 10) with 10. lra. }
      rewrite <- Zlt_Qlt in Hlt. lia. }
    cbn [freeOfF forallb].
    rewrite (digitChar_not_F (conj Hd0 Hd9)). cbn [andb].
    apply IH.
    + lra.
    + rewrite inject_Z_plus in Hhi. change (inject_Z 1) with 1 in Hhi. lra.
Qed.

Lemma exactToFixed_freeOfF (d : nat) (q : Q) : freeOfF (exactToFixed d q) = true.
Proof.
  unfold exactToFixed. cbv zeta.
  set (digits := repeat "0"%char _ ++ ZToString _).
  assert (Hd : freeOfF digits = true).
  { subst digits. rewrite freeOfF_app, freeOfF_zeros, freeOfF_ZToString. reflexivity. }
  rewrite !freeOfF_app.
  rewrite (freeOfF_firstn _ _ Hd).
  destruct (Qltb q 0); destruct (d =? 0)%nat; cbn [andb]; try reflexivity;
    rewrite freeOfF_app, (freeOfF_skipn _ _ Hd); reflexivity.
Qed.

Lemma exactToString_freeOfF (q : Q) : freeOfF (exactToString q) = true.
Proof.
  unfold exactToString. cbv zeta.
  set (fraction := fractionDigits 20 _).
  assert (Hf : freeOfF fraction = true).
  { subst fraction. apply freeOfF_fractionDigits.
    - pose proof (Qfloor_le (Qabs q)). lra.
    - pose proof (Qlt_floor (Qabs q)) as H.
      rewrite inject_Z_plus in H. change (inject_Z 1) with 1 in H. lra. }
  rewrite !freeOfF_app, freeOfF_ZToString.
  destruct (Qltb q 0); destruct (isEmpty fraction); cbn [andb]; try reflexivity;
    rewrite freeOfF_app, Hf; reflexivity.
Qed.

(** With the exact-decimal formatter, for every snapshot and news context:
    all remote capabilities down, every stage on its heuristic, no flag. *)
Corollary flags_unset_when_remote_down_exact (T : TableHandlers)
  (marketData : MarketData) (newsData : NewsData) :
  let F := exactDecimal in
  let r := analyzeSignals remoteDown marketData newsData false in
  tapasUsingFallback r = false
  /\ sentimentUsingFallback r = false
  /\ decisionUsingFallback r = false
  /\ summaryUsingFallback r = false.
Proof.
  cbv zeta.
  apply (@flags_unset_when_remote_down exactDecimal T
           exactToFixed_freeOfF exactToString_freeOfF marketData newsData).
Qed.

(* ------------------------------------------------------------------ *)
(** ** Execution gate: requests, rejections and sizing                 *)
(* ------------------------------------------------------------------ *)

Section GateRequestFacts.
Import Gate GateScript.

Lemma executeTrade_quiet
  (svc : TradingService) (symbol : str) (action : Action) (confidence : Q)
  (env : Env) (w : World) :
  enabled (config svc) = false \/ action = HOLD
  \/ arrayIncludes symbol (allowedSymbols (config svc)) = false
  \/ testMode (config svc) = true ->
  calls (snd (executeTrade svc symbol action confidence env w)) = calls w
  /\ (testMode (config svc) = false ->
      snd (executeTrade svc symbol action confidence env w) = w).
Proof.
  intro H. unfold executeTrade.
  destruct (enabled (config svc)) eqn:Hen; cbn [negb orb]; [|split; reflexivity].
  destruct action as [s|]; cbn [isHold]; [|split; reflexivity].
  destruct (arrayIncludes symbol (allowedSymbols (config svc))) eqn:Hsym;
    cbn [negb]; [|split; reflexivity].
  destruct (testMode (config svc)) eqn:Htest.
  - split; [reflexivity|discriminate].
  - exfalso. destruct H as [H|[H|[H|H]]]; discriminate.
Qed.

Lemma executeTrade_policy_stop
  (svc : TradingService) (symbol : str) (action : Action) (confidence : Q)
  (env : Env) (w : World) :
  enabled (config svc) = false \/ action = HOLD
  \/ arrayIncludes symbol (allowedSymbols (config svc)) = false ->
  snd (executeTrade svc symbol action confidence env w) = w.
Proof.
  intro H. unfold executeTrade.
  destruct (enabled (config svc)) eqn:Hen; cbn [negb orb]; [|reflexivity].
  destruct action as [s|]; cbn [isHold]; [|reflexivity].
  destruct (arrayIncludes symbol (allowedSymbols (config svc))) eqn:Hsym;
    cbn [negb]; [|reflexivity].
  exfalso. destruct H as [H|[H|H]]; discriminate.
Qed.

(** X1. A call that is stopped by the policy (trading disabled, action
    HOLD, symbol outside the allow-list) or served in test mode sends no
    request to the exchange; and a call stopped by the policy leaves the
    whole world as it was, the clock included, whether test mode is on or
    off. *)
Theorem gate_no_request_unless_live
  (svc : TradingService) (symbol : str) (action : Action) (confidence : Q)
  (env : Env) (w : World) :
  enabled (config svc) = false \/ action = HOLD
  \/ arrayIncludes symbol (allowedSymbols (config svc)) = false
  \/ testMode (config svc) = true ->
  calls (snd (executeTrade svc symbol action confidence env w)) = calls w
  /\ (enabled (config svc) = false \/ action = HOLD
      \/ arrayIncludes symbol (allowedSymbols (config svc)) = false ->
      snd (executeTrade svc symbol action confidence env w) = w).
Proof.
  intro H. split.
  - apply executeTrade_quiet, H.
  - apply executeTrade_policy_stop.
Qed.

Lemma gate_no_request_unless_live_witness :
  let cfg := mkConfig true true (mkRisk 100 1 2 4 200 10) [lit "BTCUSDT"] in
  let svc := mkService cfg 0 1000 0 in
  let ex := mkExchange (fun _ => inl (lit "down")) (fun _ _ => inl (lit "down"))
              (fun _ _ => inl (lit "down")) (fun _ _ => inl (lit "down"))
              (fun _ _ => inl (lit "down")) in
  let env := mkEnv ex (fun k => N.of_nat k) in
  let w := mkWorld [GetBalances] 7 in
  calls (snd (executeTrade svc (lit "DOGEUSDT") (Trade SELL) 1 env w)) = [GetBalances]
  /\ snd (executeTrade svc (lit "DOGEUSDT") (Trade SELL) 1 env w) = w.
Proof.
  cbv zeta.
  set (svc := mkService (mkConfig true true (mkRisk 100 1 2 4 200 10) [lit "BTCUSDT"])
                0 1000 0).
  set (env := mkEnv _ _).
  destruct (@gate_no_request_unless_live svc (lit "DOGEUSDT") (Trade SELL) 1 env
              (mkWorld [GetBalances] 7))
    as [Hcalls Hworld].
  - right. right. left. reflexivity.
  - split; [exact Hcalls|]. apply Hworld. right. right. reflexivity.
Defined.

(** X2. [executeTrade] never throws: whatever the exchange answers or
    rejects, the call returns a result. *)
Theorem gate_never_throws
  (svc : TradingService) (symbol : str) (action : Action) (confidence : Q)
  (env : Env) (w : World) :
  exists r, fst (executeTrade svc symbol action confidence env w) = inr r.
Proof.
  unfold executeTrade.
  destruct (negb (enabled (config svc)) || isHold action); [eexists; reflexivity|].
  destruct (negb (arrayIncludes symbol (allowedSymbols (config svc))));
    [eexists; reflexivity|].
  unfold try_catch.
  match goal with |- context [match ?m env w with _ => _ end] =>
    destruct (m env w) as [[msg|r] w'] end; eexists; reflexivity.
Qed.

End GateRequestFacts.

Section GateLiveFacts.
Import Gate GateScript.

Lemma checkRiskParameters_requests (svc : TradingService) (env : Env) (w : World) :
  calls (snd (startAsync (checkRiskParameters svc) env w))
  = calls w ++ (if dailyLossBreached svc then [] else [GetBalances])
  /\ exists p, fst (startAsync (checkRiskParameters svc) env w) = inr p.
Proof.
  unfold startAsync, checkRiskParameters, try_catch, dailyLossBreached.
  destruct (Qltb (dailyPnL svc) (- maxDailyLoss (riskParameters (config svc)))).
  - cbn. rewrite app_nil_r. split; [reflexivity|eexists; reflexivity].
  - unfold bind, api_getBalances, request. cbn.
    destruct (getBalances (exchange env) (calls w)) as [msg|balances];
      [cbn; split; [reflexivity|eexists; reflexivity]|].
    destruct (find isUSDT balances) as [u|];
      [|cbn; split; [reflexivity|eexists; reflexivity]].
    destruct (Qgtb (initialBalance svc) 0);
      [|cbn; split; [reflexivity|eexists; reflexivity]].
    destruct (Qgtb _ _); cbn; split; try reflexivity; eexists; reflexivity.
Qed.

(** The requests of [placeStopLossAndTakeProfit]: the stop-loss order, then
    the take-profit order unless the stop-loss request was rejected; and the
    helper returns whatever the exchange does. *)
Lemma placeStopLossAndTakeProfit_requests
  (svc : TradingService) (symbol : str) (s : Side) (quantity entryPrice : Q)
  (env : Env) (w : World) :
  let risk := riskParameters (config svc) in
  let sl := stopLossFor risk symbol s quantity entryPrice in
  let tp := takeProfitFor risk symbol s quantity entryPrice in
  fst (placeStopLossAndTakeProfit svc symbol s quantity entryPrice env w) = inr tt
  /\ calls (snd (placeStopLossAndTakeProfit svc symbol s quantity entryPrice env w))
     = calls w
       ++ match placeStopLossOrder (exchange env) (calls w) sl with
          | inl _ => [PlaceStopLossOrder sl]
          | inr _ => [PlaceStopLossOrder sl; PlaceTakeProfitOrder tp]
          end.
Proof.
  cbv zeta.
  unfold placeStopLossAndTakeProfit, stopLossFor, takeProfitFor, try_catch, bind,
    api_placeStopLossOrder, api_placeTakeProfitOrder, request, ret.
  destruct s; cbn [closingSide];
    match goal with
    | |- context [placeStopLossOrder (exchange env) (calls w) ?o] =>
        destruct (placeStopLossOrder (exchange env) (calls w) o) as [msg|r1]
    end; cbn [fst snd calls];
    try (split; reflexivity);
    match goal with
    | |- context [placeTakeProfitOrder (exchange env) ?h ?o] =>
        destruct (placeTakeProfitOrder (exchange env) h o) as [msg|r2]
    end; cbn [fst snd calls]; rewrite <- app_assoc; split; reflexivity.
Qed.

Lemma executeTrade_live_script
  (svc : TradingService) (symbol : str) (s : Side) (confidence : Q)
  (env : Env) (w : World) :
  enabled (config svc) = true ->
  arrayIncludes symbol (allowedSymbols (config svc)) = true ->
  testMode (config svc) = false ->
  exists added rest quantity price executed,
    calls (snd (executeTrade svc symbol (Trade s) confidence env w)) = calls w ++ added
    /\ liveScript svc symbol s quantity price executed = added ++ rest.
Proof.
  intros Hen Hsym Htest.
  unfold executeTrade. rewrite Hen, Hsym, Htest. cbn [negb orb isHold].
  unfold try_catch at 1. unfold bind at 1.
  destruct (checkRiskParameters_requests svc env w) as [Hc (p & Hp)].
  destruct (startAsync (checkRiskParameters svc) env w) as [r0 w0] eqn:E0.
  cbn [fst snd] in Hc, Hp. subst r0. cbn [notPromise].
  unfold liveScript.
  set (pre := if dailyLossBreached svc then [] else [GetBalances]) in *.
  unfold bind at 1. unfold api_getBalances at 1. unfold request at 1.
  destruct (getBalances (exchange env) (calls w0)) as [msg|balances].
  { cbn. rewrite Hc. exists (pre ++ [GetBalances]), (skipn 1
      [GetBalances; GetCurrentPrice symbol;
       PlaceMarketOrder (mkMarketOrder symbol s 0);
       PlaceStopLossOrder (stopLossFor (riskParameters (config svc)) symbol s 0 0);
       PlaceTakeProfitOrder (takeProfitFor (riskParameters (config svc)) symbol s 0 0)]),
      0, 0, 0.
    rewrite <- !app_assoc. split; reflexivity. }
  destruct (find isUSDT balances) as [u|].
  2:{ cbn. rewrite Hc. eexists (pre ++ [GetBalances]), _, 0, 0, 0.
      rewrite <- !app_assoc. split; reflexivity. }
  destruct (Qle_bool (free u) 0).
  { cbn. rewrite Hc. eexists (pre ++ [GetBalances]), _, 0, 0, 0.
    rewrite <- !app_assoc. split; reflexivity. }
  unfold bind at 1. unfold api_getCurrentPrice at 1. unfold request at 1.
  cbn [calls clockReads].
  destruct (getCurrentPrice (exchange env) (calls w0 ++ [GetBalances]) symbol)
    as [msg|price].
  { cbn. rewrite Hc. eexists (pre ++ [GetBalances; GetCurrentPrice symbol]), _, 0, 0, 0.
    rewrite <- !app_assoc. split; reflexivity. }
  set (quantity := calculatePositionSize svc (free u) confidence / price).
  unfold bind at 1. unfold api_placeMarketOrder at 1. unfold request at 1.
  cbn [calls clockReads].
  destruct (placeMarketOrder (exchange env) _ (mkMarketOrder symbol s quantity))
    as [msg|result].
  { cbn. rewrite Hc.
    eexists (pre ++ [GetBalances; GetCurrentPrice symbol;
                     PlaceMarketOrder (mkMarketOrder symbol s quantity)]),
            _, quantity, 0, 0.
    rewrite <- !app_assoc. split; reflexivity. }
  destruct (success result); [destruct (order result) as [o|]|].
  2,3: cbn; rewrite Hc;
    eexists (pre ++ [GetBalances; GetCurrentPrice symbol;
                     PlaceMarketOrder (mkMarketOrder symbol s quantity)]),
            _, quantity, 0, 0;
    rewrite <- !app_assoc; split; reflexivity.
  unfold bind at 1.
  match goal with
  | |- context [placeStopLossAndTakeProfit svc symbol s ?q ?e env ?w1] =>
      destruct (placeStopLossAndTakeProfit_requests svc symbol s q e env w1)
        as [Hr Hcalls];
      destruct (placeStopLossAndTakeProfit svc symbol s q e env w1) as [r1 w2] eqn:E1
  end.
  cbn [fst snd] in Hr, Hcalls. subst r1. cbn [ret fst snd].
  rewrite Hcalls. cbn [calls]. rewrite Hc.
  match goal with
  | |- context [match ?x with inl _ => _ | inr _ => _ end] => destruct x
  end.
  - eexists (pre ++ [GetBalances; GetCurrentPrice symbol;
                     PlaceMarketOrder (mkMarketOrder symbol s quantity);
                     PlaceStopLossOrder _]), _, quantity, price, (executedQty o).
    rewrite <- !app_assoc. split; reflexivity.
  - eexists (pre ++ [GetBalances; GetCurrentPrice symbol;
                     PlaceMarketOrder (mkMarketOrder symbol s quantity);
                     PlaceStopLossOrder _; PlaceTakeProfitOrder _]), [],
            quantity, price, (executedQty o).
    rewrite <- !app_assoc, app_nil_r. split; reflexivity.
Qed.

(** X3. The requests of a live trade (trading enabled, BUY or SELL, allowed
    symbol, test mode off) are an initial part of one fixed script: the
    balance request of the risk check (skipped when the recorded daily loss
    is past its limit), the balance and price requests, one market order
    for the requested symbol and side, then the stop-loss and the
    take-profit order. *)
Theorem gate_live_requests_follow_script
  (svc : TradingService) (symbol : str) (s : Side) (confidence : Q)
  (env : Env) (w : World) :
  enabled (config svc) = true ->
  arrayIncludes symbol (allowedSymbols (config svc)) = true ->
  testMode (config svc) = false ->
  exists added rest quantity price executed,
    calls (snd (executeTrade svc symbol (Trade s) confidence env w)) = calls w ++ added
    /\ liveScript svc symbol s quantity price executed = added ++ rest.
Proof. apply executeTrade_live_script. Qed.

End GateLiveFacts.

Lemma gate_live_requests_follow_script_witness :
  let cfg := Gate.mkConfig true false (Gate.mkRisk 100 1 2 4 200 10) [lit "BTCUSDT"] in
  let svc := Gate.mkService cfg 0 1000 0 in
  let ok := Gate.mkResult true (Some (lit "7")) None None in
  let ex := Gate.mkExchange (fun _ => inr [Gate.mkBalance (lit "USDT") 250 0 250])
              (fun _ _ => inr 50000)
              (fun _ _ => inr ok) (fun _ _ => inr ok) (fun _ _ => inr ok) in
  exists added rest quantity price executed,
    Gate.calls (snd (Gate.executeTrade svc (lit "BTCUSDT") (Gate.Trade Gate.BUY) 0.5
                       (Gate.mkEnv ex (fun k => N.of_nat k)) Gate.world0))
    = Gate.calls Gate.world0 ++ added
    /\ GateScript.liveScript svc (lit "BTCUSDT") Gate.BUY quantity price executed
       = added ++ rest.
Proof.
  cbv zeta.
  apply gate_live_requests_follow_script; reflexivity.
Defined.

Section GateSafetyFacts.
Import Gate GateScript.

Lemma liveScript_orders (svc : TradingService) (symbol : str) (s : Side)
  (quantity price executed : Q) (c : ExchangeCall) :
  In c (liveScript svc symbol s quantity price executed) ->
  match c with
  | PlaceMarketOrder o => o = mkMarketOrder symbol s quantity
  | PlaceStopLossOrder o | PlaceTakeProfitOrder o =>
      so_symbol o = symbol /\ so_side o = closingSide s /\ so_quantity o = executed
  | _ => True
  end.
Proof.
  unfold liveScript. intro H. apply in_app_or in H. destruct H as [H|H].
  - destruct (dailyLossBreached svc); cbn in H; [destruct H|].
    destruct H as [<-|[]]. exact I.
  - cbn in H.
    destruct H as [<-|[<-|[<-|[<-|[<-|[]]]]]]; cbn; auto.
Qed.

Lemma liveScript_one_market_order (svc : TradingService) (symbol : str) (s : Side)
  (quantity price executed : Q) (added rest : list ExchangeCall) :
  liveScript svc symbol s quantity price executed = added ++ rest ->
  (length (filter isMarketOrder added) <= 1)%nat.
Proof.
  intro H.
  assert (E : length (filter isMarketOrder
                        (liveScript svc symbol s quantity price executed)) = 1%nat).
  { unfold liveScript. destruct (dailyLossBreached svc); reflexivity. }
  rewrite H, filter_app, length_app in E. lia.
Qed.

(** X4. Whatever the inputs and the exchange's answers, one call sends at
    most one market order, and every order it sends (market, stop-loss or
    take-profit) belongs to a live trade: trading is enabled, test mode is
    off, the symbol is in the allow-list; a market order is for the
    requested symbol and side, a protective order for the requested symbol
    and the opposite side. *)
Theorem gate_orders_are_the_requested_ones
  (svc : TradingService) (symbol : str) (action : Action) (confidence : Q)
  (env : Env) (w : World) :
  exists added,
    calls (snd (executeTrade svc symbol action confidence env w)) = calls w ++ added
    /\ (length (filter isMarketOrder added) <= 1)%nat
    /\ forall c, In c added -> isOrder c = true ->
         enabled (config svc) = true
         /\ testMode (config svc) = false
         /\ arrayIncludes symbol (allowedSymbols (config svc)) = true
         /\ exists s, action = Trade s
              /\ match c with
                 | PlaceMarketOrder o => mo_symbol o = symbol /\ mo_side o = s
                 | PlaceStopLossOrder o | PlaceTakeProfitOrder o =>
                     so_symbol o = symbol /\ so_side o = closingSide s
                 | _ => True
                 end.
Proof.
  destruct (enabled (config svc)) eqn:Hen.
  2:{ exists []. rewrite app_nil_r. split; [|split; [cbn; lia|intros c []]].
      apply executeTrade_quiet. auto. }
  destruct action as [s|].
  2:{ exists []. rewrite app_nil_r. split; [|split; [cbn; lia|intros c []]].
      apply executeTrade_quiet. auto. }
  destruct (arrayIncludes symbol (allowedSymbols (config svc))) eqn:Hsym.
  2:{ exists []. rewrite app_nil_r. split; [|split; [cbn; lia|intros c []]].
      apply executeTrade_quiet. auto. }
  destruct (testMode (config svc)) eqn:Htest.
  { exists []. rewrite app_nil_r. split; [|split; [cbn; lia|intros c []]].
    apply executeTrade_quiet. auto. }
  destruct (executeTrade_live_script svc symbol s confidence env w
              Hen Hsym Htest) as (added & rest & q & p & e & Hcalls & Hscript).
  exists added. split; [exact Hcalls|]. split.
  - eapply liveScript_one_market_order, Hscript.
  - intros c Hc Hord. repeat (split; [reflexivity|]).
    exists s. split; [reflexivity|].
    assert (Hin : In c (liveScript svc symbol s q p e)).
    { rewrite Hscript. apply in_or_app. left. exact Hc. }
    apply liveScript_orders in Hin.
    destruct c; try exact I.
    + subst o. split; reflexivity.
    + destruct Hin as (H1 & H2 & _). auto.
    + destruct Hin as (H1 & H2 & _). auto.
Qed.

(** X5. The daily-loss and draw-down limits do not stop a trade: the call
    [this.checkRiskParameters()] is not awaited, and the promise it returns
    is truthy whatever it resolves to.  In a live trade, as soon as the
    exchange reports a positive free USDT balance and a positive price, the
    market order is sent, whatever the recorded daily loss, the initial
    balance and the balance total are. *)
Theorem gate_risk_limits_do_not_block
  (svc : TradingService) (symbol : str) (s : Side) (confidence : Q)
  (env : Env) (w : World) (balances : list AccountBalance)
  (usdt : AccountBalance) (price : Q) :
  enabled (config svc) = true ->
  arrayIncludes symbol (allowedSymbols (config svc)) = true ->
  testMode (config svc) = false ->
  (forall h, getBalances (exchange env) h = inr balances) ->
  find isUSDT balances = Some usdt ->
  0 < free usdt ->
  (forall h, getCurrentPrice (exchange env) h symbol = inr price) ->
  0 < price ->
  In (PlaceMarketOrder
        (mkMarketOrder symbol s
           (calculatePositionSize svc (free usdt) confidence / price)))
     (calls (snd (executeTrade svc symbol (Trade s) confidence env w))).
Proof.
  intros Hen Hsym Htest Hbal Husdt Hfree Hprice _.
  unfold executeTrade. rewrite Hen, Hsym, Htest. cbn [negb orb isHold].
  unfold try_catch at 1. unfold bind at 1.
  destruct (startAsync (checkRiskParameters svc) env w) as [r0 w0] eqn:E0.
  destruct (checkRiskParameters_requests svc env w) as [_ (p & Hp)].
  rewrite E0 in Hp. cbn [fst] in Hp. subst r0. cbn [notPromise].
  unfold bind at 1. unfold api_getBalances at 1. unfold request at 1.
  rewrite Hbal, Husdt.
  assert (Hneg : Qle_bool (free usdt) 0 = false).
  { destruct (Qle_bool (free usdt) 0) eqn:E; [|reflexivity].
    apply Qle_bool_iff in E. exfalso. apply (Qlt_not_le _ _ Hfree E). }
  rewrite Hneg.
  unfold bind at 1. unfold api_getCurrentPrice at 1. unfold request at 1.
  rewrite Hprice.
  unfold bind at 1. unfold api_placeMarketOrder at 1. unfold request at 1.
  cbn [calls clockReads].
  set (mo := mkMarketOrder symbol s _).
  assert (Hin : forall l, In (PlaceMarketOrder mo) (l ++ [PlaceMarketOrder mo])).
  { intro l. apply in_or_app. right. left. reflexivity. }
  destruct (placeMarketOrder (exchange env) _ mo) as [msg|result].
  { cbn. apply Hin. }
  destruct (success result); [destruct (order result) as [o|]|];
    try (cbn; apply Hin).
  unfold bind at 1.
  match goal with
  | |- context [placeStopLossAndTakeProfit svc symbol s ?q ?e env ?w1] =>
      destruct (placeStopLossAndTakeProfit_requests svc symbol s q e env w1)
        as [Hr Hcalls];
      destruct (placeStopLossAndTakeProfit svc symbol s q e env w1) as [r1 w2]
  end.
  cbn [fst snd] in Hr, Hcalls. subst r1. cbn [ret fst snd].
  rewrite Hcalls. cbn [calls]. apply in_or_app. left. apply Hin.
Qed.

Lemma gate_risk_limits_do_not_block_witness :
  let cfg := mkConfig true false (mkRisk 100 1 2 4 200 10) [lit "BTCUSDT"] in
  (* 500 lost today against a limit of 200; balance 100 of an initial 1000 *)
  let svc := mkService cfg (-500) 1000 0 in
  let usdt := mkBalance (lit "USDT") 100 0 100 in
  let ex := mkExchange (fun _ => inr [usdt]) (fun _ _ => inr 50000)
              (fun _ _ => inl (lit "rejected")) (fun _ _ => inl (lit "rejected"))
              (fun _ _ => inl (lit "rejected")) in
  In (PlaceMarketOrder
        (mkMarketOrder (lit "BTCUSDT") BUY
           (calculatePositionSize svc 100 0.5 / 50000)))
     (calls (snd (executeTrade svc (lit "BTCUSDT") (Trade BUY) 0.5
                    (mkEnv ex (fun k => N.of_nat k)) world0))).
Proof.
  cbv zeta.
  eapply (@gate_risk_limits_do_not_block _ _ _ _ _ _ _
            (mkBalance (lit "USDT") 100 0 100) 50000);
    try reflexivity; intros; reflexivity.
Defined.

(** X6. For a maxPositionSize that is not negative, the position size
    never decreases when the available balance and the confidence grow (or
    stay), and it is not negative when the balance and the confidence are
    not. *)
Theorem position_size_is_monotone
  (svc : TradingService) (balance1 balance2 confidence1 confidence2 : Q) :
  0 <= maxPositionSize (riskParameters (config svc)) ->
  balance1 <= balance2 -> confidence1 <= confidence2 ->
  calculatePositionSize svc balance1 confidence1
  <= calculatePositionSize svc balance2 confidence2
  /\ (0 <= balance1 -> 0 <= confidence1 ->
      0 <= calculatePositionSize svc balance1 confidence1).
Proof.
  intros Hmax Hb Hc. unfold calculatePositionSize. cbv zeta.
  set (M := maxPositionSize (riskParameters (config svc))) in *.
  assert (Hmin : forall a b c d, a <= c -> b <= d -> Math_min a b <= Math_min c d).
  { intros a b c d Hac Hbd. rewrite !Math_min_Qmin.
    apply Q.min_le_compat; assumption. }
  assert (Hcap : M * confidence1 <= M * confidence2) by nra.
  pose proof (Hmin _ _ _ _ Hcap Hb) as Hm.
  set (m1 := Math_min (M * confidence1) balance1) in *.
  set (m2 := Math_min (M * confidence2) balance2) in *.
  assert (Hfloor : (Qfloor (m1 * 100) <= Qfloor (m2 * 100))%Z)
    by (apply Qfloor_resp_le; lra).
  split.
  - apply Qle_shift_div_l; [reflexivity|].
    assert (E : inject_Z (Qfloor (m1 * 100)) / 100 * 100
                == inject_Z (Qfloor (m1 * 100))) by field.
    rewrite E. rewrite <- Zle_Qle. exact Hfloor.
  - intros Hb0 Hc0.
    assert (H0 : 0 <= m1).
    { subst m1. rewrite Math_min_Qmin. apply Q.min_glb; [nra|exact Hb0]. }
    apply Qle_shift_div_l; [reflexivity|].
    assert (Hz : (0 <= Qfloor (m1 * 100))%Z).
    { change 0%Z with (Qfloor 0). apply Qfloor_resp_le. lra. }
    rewrite Zle_Qle in Hz. change (inject_Z 0) with 0 in Hz. lra.
Qed.

Lemma position_size_is_monotone_witness :
  let cfg := mkConfig true false (mkRisk 100 1 2 4 200 10) [lit "BTCUSDT"] in
  let svc := mkService cfg 0 1000 0 in
  calculatePositionSize svc 20 0.29 <= calculatePositionSize svc 50 0.8
  /\ (0 <= 20 -> 0 <= 0.29 -> 0 <= calculatePositionSize svc 20 0.29).
Proof.
  cbv zeta. apply position_size_is_monotone; unfold Qle; cbn; lia.
Defined.

(** X7. The protective orders of an entry at a price that is not
    negative, with stop-loss and take-profit percentages between 0 and 100.
    The helper sends the stop-loss order and then, unless the stop-loss
    request threw, the take-profit order.  Both are for the given symbol and
    quantity, on the side that closes the entry.  For a BUY entry the
    stop-loss trigger is not above the entry price and the take-profit
    trigger not below it, and each limit price is its trigger times 0.99,
    hence not above the trigger; for a SELL entry the stop-loss trigger is
    not below the entry price and the take-profit trigger not above it, and
    each limit price is its trigger times 1.01, hence not below the
    trigger. *)
Theorem protective_orders_bracket_the_entry
  (svc : TradingService) (symbol : str) (s : Side) (quantity entryPrice : Q)
  (env : Env) (w : World) :
  let risk := riskParameters (config svc) in
  let after :=
    calls (snd (placeStopLossAndTakeProfit svc symbol s quantity entryPrice env w)) in
  0 <= entryPrice ->
  0 <= stopLossPercent risk -> stopLossPercent risk <= 100 ->
  0 <= takeProfitPercent risk -> takeProfitPercent risk <= 100 ->
  exists sl tp,
    (after = calls w ++ [PlaceStopLossOrder sl]
     \/ after = calls w ++ [PlaceStopLossOrder sl; PlaceTakeProfitOrder tp])
    /\ so_symbol sl = symbol /\ so_symbol tp = symbol
    /\ so_side sl = closingSide s /\ so_side tp = closingSide s
    /\ so_quantity sl = quantity /\ so_quantity tp = quantity
    /\ match s with
       | BUY =>
           so_stopPrice sl <= entryPrice /\ entryPrice <= so_stopPrice tp
           /\ so_price sl = so_stopPrice sl * 0.99
           /\ so_price tp = so_stopPrice tp * 0.99
           /\ so_price sl <= so_stopPrice sl /\ so_price tp <= so_stopPrice tp
       | SELL =>
           entryPrice <= so_stopPrice sl /\ so_stopPrice tp <= entryPrice
           /\ so_price sl = so_stopPrice sl * 1.01
           /\ so_price tp = so_stopPrice tp * 1.01
           /\ so_stopPrice sl <= so_price sl /\ so_stopPrice tp <= so_price tp
       end.
Proof.
  cbv zeta. intros He Hs0 Hs1 Ht0 Ht1.
  destruct (placeStopLossAndTakeProfit_requests svc symbol s quantity entryPrice env w)
    as [_ Hcalls].
  cbv zeta in Hcalls.
  set (risk := riskParameters (config svc)) in *.
  exists (stopLossFor risk symbol s quantity entryPrice),
         (takeProfitFor risk symbol s quantity entryPrice).
  split.
  { rewrite Hcalls.
    destruct (placeStopLossOrder (exchange env) (calls w)
                (stopLossFor risk symbol s quantity entryPrice));
      [left|right]; reflexivity. }
  assert (Hsl : 0 <= stopLossPercent risk / 100 /\ stopLossPercent risk / 100 <= 1).
  { split; [apply Qle_shift_div_l|apply Qle_shift_div_r]; lra. }
  assert (Htp : 0 <= takeProfitPercent risk / 100 /\ takeProfitPercent risk / 100 <= 1).
  { split; [apply Qle_shift_div_l|apply Qle_shift_div_r]; lra. }
  set (a := stopLossPercent risk / 100) in *.
  set (b := takeProfitPercent risk / 100) in *.
  unfold stopLossFor, takeProfitFor. cbv zeta.
  cbn [so_symbol so_side so_quantity so_stopPrice so_price].
  fold a b.
  repeat (split; [reflexivity|]).
  destruct s.
  - repeat split; try reflexivity; nra.
  - repeat split; try reflexivity; nra.
Qed.

Lemma protective_orders_bracket_the_entry_witness :
  let cfg := mkConfig true false (mkRisk 100 1 2 4 200 10) [lit "BTCUSDT"] in
  let svc := mkService cfg 0 1000 0 in
  let ok := mkResult true (Some (lit "1")) None None in
  let ex := mkExchange (fun _ => inr []) (fun _ _ => inr 50000)
              (fun _ _ => inr ok) (fun _ _ => inr ok) (fun _ _ => inr ok) in
  let after :=
    calls (snd (placeStopLossAndTakeProfit svc (lit "BTCUSDT") SELL 0.002 50000
                  (mkEnv ex (fun k => N.of_nat k)) world0)) in
  exists sl tp,
    (after = calls world0 ++ [PlaceStopLossOrder sl]
     \/ after = calls world0 ++ [PlaceStopLossOrder sl; PlaceTakeProfitOrder tp])
    /\ so_symbol sl = lit "BTCUSDT" /\ so_symbol tp = lit "BTCUSDT"
    /\ so_side sl = closingSide SELL /\ so_side tp = closingSide SELL
    /\ so_quantity sl = 0.002 /\ so_quantity tp = 0.002
    /\ (50000 <= so_stopPrice sl /\ so_stopPrice tp <= 50000
        /\ so_price sl = so_stopPrice sl * 1.01
        /\ so_price tp = so_stopPrice tp * 1.01
        /\ so_stopPrice sl <= so_price sl /\ so_stopPrice tp <= so_price tp).
Proof.
  cbv zeta.
  apply (@protective_orders_bracket_the_entry
           (mkService (mkConfig true false (mkRisk 100 1 2 4 200 10) [lit "BTCUSDT"])
                      0 1000 0)
           (lit "BTCUSDT") SELL 0.002 50000); unfold Qle; cbn; lia.
Defined.

(** X8. The helper that places the protective orders never throws, sends
    the stop-loss order first, and sends the take-profit order only when
    the stop-loss request was not rejected. *)
Theorem protective_orders_are_best_effort
  (svc : TradingService) (symbol : str) (s : Side) (quantity entryPrice : Q)
  (env : Env) (w : World) :
  let risk := riskParameters (config svc) in
  let sl := stopLossFor risk symbol s quantity entryPrice in
  let tp := takeProfitFor risk symbol s quantity entryPrice in
  fst (placeStopLossAndTakeProfit svc symbol s quantity entryPrice env w) = inr tt
  /\ calls (snd (placeStopLossAndTakeProfit svc symbol s quantity entryPrice env w))
     = calls w
       ++ match placeStopLossOrder (exchange env) (calls w) sl with
          | inl _ => [PlaceStopLossOrder sl]
          | inr _ => [PlaceStopLossOrder sl; PlaceTakeProfitOrder tp]
          end.
Proof. apply placeStopLossAndTakeProfit_requests. Qed.

(** X9. A live trade without a positive free USDT balance is refused with
    "Insufficient USDT balance": after the balance requests nothing else is
    asked of the exchange, and no order is sent. *)
Theorem gate_insufficient_balance
  (svc : TradingService) (symbol : str) (s : Side) (confidence : Q)
  (env : Env) (w : World) (balances : list AccountBalance) :
  enabled (config svc) = true ->
  arrayIncludes symbol (allowedSymbols (config svc)) = true ->
  testMode (config svc) = false ->
  (forall h, getBalances (exchange env) h = inr balances) ->
  match find isUSDT balances with
  | Some usdt => free usdt <= 0
  | None => True
  end ->
  fst (executeTrade svc symbol (Trade s) confidence env w)
  = inr (failure (lit "Insufficient USDT balance"))
  /\ calls (snd (executeTrade svc symbol (Trade s) confidence env w))
     = calls w ++ (if dailyLossBreached svc then [] else [GetBalances])
       ++ [GetBalances].
Proof.
  intros Hen Hsym Htest Hbal Hfree.
  assert (G : exists w',
             executeTrade svc symbol (Trade s) confidence env w
             = (inr (failure (lit "Insufficient USDT balance")), w')
             /\ calls w' = calls w
                 ++ (if dailyLossBreached svc then [] else [GetBalances])
                 ++ [GetBalances]).
  { unfold executeTrade. rewrite Hen, Hsym, Htest. cbn [negb orb isHold].
    unfold try_catch at 1. unfold bind at 1.
    destruct (checkRiskParameters_requests svc env w) as [Hc (p & Hp)].
    destruct (startAsync (checkRiskParameters svc) env w) as [r0 w0] eqn:E0.
    cbn [fst snd] in Hc, Hp. subst r0. cbn [notPromise].
    unfold bind at 1. unfold api_getBalances at 1. unfold request at 1.
    rewrite Hbal.
    destruct (find isUSDT balances) as [u|].
    - assert (E : Qle_bool (free u) 0 = true) by (apply Qle_bool_iff, Hfree).
      rewrite E. cbn. eexists. split; [reflexivity|].
      cbn. rewrite Hc, <- app_assoc. reflexivity.
    - cbn. eexists. split; [reflexivity|].
      cbn. rewrite Hc, <- app_assoc. reflexivity. }
  destruct G as (w' & -> & Hcalls). split; [reflexivity|exact Hcalls].
Qed.

Lemma gate_insufficient_balance_witness :
  let cfg := mkConfig true false (mkRisk 100 1 2 4 200 10) [lit "BTCUSDT"] in
  let svc := mkService cfg 0 1000 0 in
  let ex := mkExchange (fun _ => inr [mkBalance (lit "BTC") 1 0 1])
              (fun _ _ => inr 50000)
              (fun _ _ => inl (lit "rejected")) (fun _ _ => inl (lit "rejected"))
              (fun _ _ => inl (lit "rejected")) in
  let env := mkEnv ex (fun k => N.of_nat k) in
  fst (executeTrade svc (lit "BTCUSDT") (Trade SELL) 1 env world0)
  = inr (failure (lit "Insufficient USDT balance"))
  /\ calls (snd (executeTrade svc (lit "BTCUSDT") (Trade SELL) 1 env world0))
     = calls world0 ++ (if dailyLossBreached svc then [] else [GetBalances])
       ++ [GetBalances].
Proof.
  cbv zeta.
  eapply (@gate_insufficient_balance _ _ _ _ _ _ [mkBalance (lit "BTC") 1 0 1]);
    reflexivity.
Defined.

End GateSafetyFacts.

(* ------------------------------------------------------------------ *)
(** ** Performance tracker: accessors and reset                        *)
(* ------------------------------------------------------------------ *)

Section TrackerAccessFacts.
Import Tracker TrackerAccess.

Lemma ModelType_eqb_eq (a b : ModelType) : ModelType_eqb a b = true <-> a = b.
Proof. destruct a, b; cbn; split; intro H; try reflexivity; discriminate. Qed.

Lemma ModelType_eqb_refl (a : ModelType) : ModelType_eqb a a = true.
Proof. destruct a; reflexivity. Qed.

(** A property of each capability's metric is kept by every sequence of
    calls as soon as it holds initially, follows the update of a recorded
    prediction of the capability, and is insensitive to the other calls and
    to the accuracy field. *)
Section MetricInvariant.
Variable P : ModelType -> list Op -> ModelPerformanceMetrics -> Prop.
Hypothesis P_init : forall t, P t [] (mkMetrics t 0 0 0 None 0 0).
Hypothesis P_type : forall t ops m, P t ops m -> m_modelType m = t.
Hypothesis P_hit : forall t ops m p id,
  i_modelType p = t -> P t ops m ->
  P t (ops ++ [RecordPrediction p id]) (updateMetric m p).
Hypothesis P_miss : forall t ops m p id,
  i_modelType p <> t -> P t ops m -> P t (ops ++ [RecordPrediction p id]) m.
Hypothesis P_other : forall t ops m op,
  (forall p id, op <> RecordPrediction p id) -> P t ops m -> P t (ops ++ [op]) m.
Hypothesis P_accuracy : forall t ops m a, P t ops m -> P t ops (withAccuracy m a).

Definition fourMetrics (ops : list Op) (l : list ModelPerformanceMetrics) : Prop :=
  exists a b c d,
    l = [a; b; c; d]
    /\ P tapas ops a /\ P distilbert ops b /\ P flant5 ops c /\ P bart ops d.

Lemma fourMetrics_initialize (ops : list Op) (s : ModelPerformanceData) :
  (ops = [] /\ metrics s = []) \/ fourMetrics ops (metrics s) ->
  fourMetrics ops (metrics (initializeStore s)).
Proof.
  unfold initializeStore. intros [[-> Hm]|(a & b & c & d & Hl & H)].
  - assert (E : metrics (if isEmpty (connectionStatus s)
                         then mkStore (predictions s) (outcomes s) (metrics s)
                                      initializeConnectionStatus
                         else s) = []).
    { destruct (isEmpty (connectionStatus s)); exact Hm. }
    destruct (isEmpty (connectionStatus s)); cbn [metrics] in *; rewrite E; cbn;
      (do 4 eexists; split; [reflexivity|]; repeat split; apply P_init).
  - assert (E : metrics (if isEmpty (connectionStatus s)
                         then mkStore (predictions s) (outcomes s) (metrics s)
                                      initializeConnectionStatus
                         else s) = [a; b; c; d]).
    { destruct (isEmpty (connectionStatus s)); exact Hl. }
    destruct (isEmpty (connectionStatus s)); cbn [metrics] in *; rewrite E; cbn;
      rewrite ?E; exists a, b, c, d; auto.
Qed.

Lemma fourMetrics_run (ops : list Op) :
  (ops = [] /\ metrics (run ops) = []) \/ fourMetrics ops (metrics (run ops)).
Proof.
  induction ops as [|op ops IH] using rev_ind.
  - left. split; reflexivity.
  - right. rewrite run_snoc.
    apply fourMetrics_initialize in IH.
    destruct IH as (a & b & c & d & Hl & Ha & Hb & Hc & Hd).
    pose proof (P_type Ha) as Ta. pose proof (P_type Hb) as Tb.
    pose proof (P_type Hc) as Tc. pose proof (P_type Hd) as Td.
    destruct op as [p id|o|st now]; cbn [step].
    + unfold recordPrediction. cbn [fst metrics]. rewrite Hl.
      cbn [findIndex]. rewrite Ta, Tb, Tc, Td.
      destruct (i_modelType p) eqn:Hp; cbn;
        [exists (updateMetric a p), b, c, d
        |exists a, (updateMetric b p), c, d
        |exists a, b, (updateMetric c p), d
        |exists a, b, c, (updateMetric d p)];
        (split; [reflexivity|]);
        refine (conj _ (conj _ (conj _ _)));
        first [apply P_hit; [exact Hp|assumption]
              |apply P_miss; [rewrite Hp; discriminate|assumption]].
    + assert (Hno : forall p id, RecordOutcome o <> RecordPrediction p id)
        by discriminate.
      unfold recordOutcome. cbn [metrics]. rewrite Hl.
      destruct (find _ (predictions (initializeStore (run ops)))) as [prediction|].
      2:{ exists a, b, c, d. split; [reflexivity|].
          refine (conj _ (conj _ (conj _ _))); apply P_other; assumption. }
      cbn [findIndex]. rewrite Ta, Tb, Tc, Td.
      destruct (p_modelType prediction);
        cbn [ModelType_eqb option_map nth_error setAt];
        [eexists _, b, c, d|eexists a, _, c, d|eexists a, b, _, d|eexists a, b, c, _];
        (split; [reflexivity|]);
        refine (conj _ (conj _ (conj _ _)));
        first [apply P_accuracy; apply P_other; assumption
              |apply P_other; assumption].
    + assert (Hno : forall p id, UpdateConnectionStatus st now <> RecordPrediction p id)
        by discriminate.
      rewrite updateConnectionStatus_metrics, Hl.
      exists a, b, c, d. split; [reflexivity|].
      refine (conj _ (conj _ (conj _ _))); apply P_other; assumption.
Qed.

Lemma getModelMetrics_invariant (t : ModelType) (ops : list Op) :
  exists m, fst (getModelMetrics t (run ops)) = Some m /\ P t ops m.
Proof.
  unfold getModelMetrics. cbn [fst].
  destruct (@fourMetrics_initialize ops (run ops) (fourMetrics_run ops))
    as (a & b & c & d & Hl & Ha & Hb & Hc & Hd).
  rewrite Hl. cbn [find].
  rewrite (P_type Ha), (P_type Hb), (P_type Hc), (P_type Hd).
  destruct t; cbn; eauto.
Qed.

End MetricInvariant.

Lemma latencySumOf_snoc (t : ModelType) (ops : list Op) p id :
  latencySumOf t (ops ++ [RecordPrediction p id])
  = if ModelType_eqb (i_modelType p) t
    then latencySumOf t ops + i_latency p else latencySumOf t ops.
Proof.
  unfold latencySumOf. rewrite recordedPredictions_app, filter_app, fold_left_app.
  cbn. destruct (ModelType_eqb (i_modelType p) t); reflexivity.
Qed.

Lemma lastTimestampOf_snoc (t : ModelType) (ops : list Op) p id :
  lastTimestampOf t (ops ++ [RecordPrediction p id])
  = if ModelType_eqb (i_modelType p) t
    then i_timestamp p else lastTimestampOf t ops.
Proof.
  unfold lastTimestampOf. rewrite recordedPredictions_app, filter_app, map_app.
  cbn. destruct (ModelType_eqb (i_modelType p) t); cbn.
  - apply last_last.
  - rewrite app_nil_r. reflexivity.
Qed.

Lemma timed_snoc_other (t : ModelType) (ops : list Op) (op : Op) :
  (forall p id, op <> RecordPrediction p id) ->
  latencySumOf t (ops ++ [op]) = latencySumOf t ops
  /\ lastTimestampOf t (ops ++ [op]) = lastTimestampOf t ops.
Proof.
  intro H. unfold latencySumOf, lastTimestampOf. rewrite recordedPredictions_app.
  destruct op as [p id|o|st now]; [exfalso; eapply H; reflexivity| |];
    cbn; rewrite app_nil_r; auto.
Qed.

Lemma getModelMetrics_timed (t : ModelType) (ops : list Op) :
  exists m,
    fst (getModelMetrics t (run ops)) = Some m
    /\ m_modelType m = t
    /\ m_totalPredictions m = countOf t ops
    /\ m_averageLatency m * ofNat (countOf t ops) == latencySumOf t ops
    /\ m_lastUsed m = lastTimestampOf t ops.
Proof.
  apply (getModelMetrics_invariant metricTimed).
  - intro t0. repeat split; cbn; reflexivity.
  - intros t0 ops0 m H. apply H.
  - intros t0 ops0 m p id Hp (Ht & Hn & Ha & Hl).
    assert (E : ModelType_eqb (i_modelType p) t0 = true)
      by (apply ModelType_eqb_eq, Hp).
    unfold metricTimed.
    rewrite countOf_snoc_prediction, latencySumOf_snoc, lastTimestampOf_snoc, E.
    cbn [updateMetric m_modelType m_totalPredictions m_averageLatency m_lastUsed].
    rewrite Hn.
    replace (countOf t0 ops0 + 1)%nat with (S (countOf t0 ops0)) by lia.
    assert (Hpos : ~ ofNat (S (countOf t0 ops0)) == 0).
    { intro H0. pose proof (ofNat_pos (n := S (countOf t0 ops0)) ltac:(lia)) as Hp'.
      rewrite H0 in Hp'. apply (Qlt_irrefl 0 Hp'). }
    repeat split; auto.
    rewrite <- Ha. field. exact Hpos.
  - intros t0 ops0 m p id Hp (Ht & Hn & Ha & Hl).
    assert (E : ModelType_eqb (i_modelType p) t0 = false).
    { destruct (ModelType_eqb (i_modelType p) t0) eqn:E; [|reflexivity].
      apply ModelType_eqb_eq in E. contradiction. }
    unfold metricTimed.
    rewrite countOf_snoc_prediction, latencySumOf_snoc, lastTimestampOf_snoc, E.
    rewrite Nat.add_0_r. auto.
  - intros t0 ops0 m op Hop (Ht & Hn & Ha & Hl).
    destruct (counts_snoc_other t0 ops0 Hop) as [Hc _].
    destruct (timed_snoc_other t0 ops0 Hop) as [Hs Hlast].
    unfold metricTimed. rewrite Hc, Hs, Hlast. auto.
  - intros t0 ops0 m a H. exact H.
Qed.

(** X10. Whatever calls were made on a fresh module, [getModelMetrics]
    finds the metric of every capability (it is never undefined); its
    modelType is that capability, its totalPredictions is the number of
    predictions recorded for the capability, and its lastUsed is the time
    stamp of the latest of them (0 when none was recorded). *)
Theorem metrics_report_count_and_last_use (t : ModelType) (ops : list Op) :
  exists m,
    fst (getModelMetrics t (run ops)) = Some m
    /\ m_modelType m = t
    /\ m_totalPredictions m = countOf t ops
    /\ m_lastUsed m = lastTimestampOf t ops.
Proof.
  destruct (getModelMetrics_timed t ops) as (m & Hm & Ht & Hn & _ & Hl).
  exists m. auto.
Qed.

(** X29. In exact (rational) arithmetic, that is with the rounding of the
    running-average update left out, the averageLatency that
    [getModelMetrics] reports for a capability, times the number of
    predictions recorded for it, is the sum of their latencies. *)
Theorem average_latency_is_the_exact_mean (t : ModelType) (ops : list Op) :
  exists m,
    fst (getModelMetrics t (run ops)) = Some m
    /\ m_averageLatency m * ofNat (countOf t ops) == latencySumOf t ops.
Proof.
  destruct (getModelMetrics_timed t ops) as (m & Hm & _ & _ & Ha & _).
  exists m. auto.
Qed.

(** X11. [getRecentPredictions] returns at most [limit] predictions, all of
    the requested capability and all taken from the log, ordered from the
    newest to the oldest; and no prediction of that capability that it
    leaves out is newer than one it returns. *)
Theorem recent_predictions_are_the_newest
  (t : ModelType) (limit : nat) (s : ModelPerformanceData) :
  let recent := fst (getRecentPredictions t limit s) in
  (length recent <= limit)%nat
  /\ (forall p, In p recent -> p_modelType p = t /\ In p (predictions s))
  /\ StronglySorted (fun a b => p_timestamp b <= p_timestamp a) recent
  /\ (forall p q, In p recent -> In q (predictions s) -> p_modelType q = t ->
                  ~ In q recent -> p_timestamp q <= p_timestamp p).
Proof.
  cbv zeta. unfold getRecentPredictions. cbn [fst].
  rewrite initializeStore_predictions.
  set (byTime := fun a b : ModelPrediction => Qle_bool (p_timestamp b) (p_timestamp a)).
  set (mine := filter (fun p => ModelType_eqb (p_modelType p) t) (predictions s)).
  assert (Htotal : forall x y, byTime x y = false -> byTime y x = true).
  { unfold byTime. intros x y H. apply Qle_bool_iff.
    apply Qlt_le_weak, Qnot_le_lt. intro Hle. apply Qle_bool_iff in Hle. congruence. }
  assert (Htrans : forall x y z, byTime x y = true -> byTime y z = true ->
                                 byTime x z = true).
  { unfold byTime. intros x y z H1 H2. apply Qle_bool_iff in H1, H2.
    apply Qle_bool_iff. eapply Qle_trans; eassumption. }
  assert (Hperm := sortBy_perm byTime mine).
  assert (Hsorted := sortBy_sorted byTime Htotal Htrans mine).
  split; [apply firstn_le_length|]. split; [|split].
  - intros p Hp. apply in_firstn in Hp. apply (Permutation_in _ Hperm) in Hp.
    subst mine. apply filter_In in Hp. destruct Hp as [Hin Ht].
    apply ModelType_eqb_eq in Ht. auto.
  - assert (G : forall k l, StronglySorted (fun a b => byTime a b = true) l ->
                  StronglySorted (fun a b => p_timestamp b <= p_timestamp a)
                                 (firstn k l)).
    { intros k l Hs. revert k. induction Hs as [|x l Hs IH Hx]; intro k.
      - rewrite firstn_nil. constructor.
      - destruct k; cbn; constructor; [apply IH|].
        apply Forall_forall. intros y Hy. apply in_firstn in Hy.
        rewrite Forall_forall in Hx. specialize (Hx y Hy).
        unfold byTime in Hx. apply Qle_bool_iff, Hx. }
    apply G, Hsorted.
  - intros p q Hp Hq Hqt Hnot.
    assert (Hqs : In q (sortBy byTime mine)).
    { apply (Permutation_in _ (Permutation_sym Hperm)).
      subst mine. apply filter_In. split; [exact Hq|].
      apply ModelType_eqb_eq, Hqt. }
    rewrite <- (firstn_skipn limit (sortBy byTime mine)) in Hqs.
    apply in_app_or in Hqs. destruct Hqs as [Hfront|Hback]; [contradiction|].
    assert (Hle : byTime p q = true).
    { eapply sorted_front_before_back; [| exact Hp | exact Hback].
      exact Hsorted. }
    unfold byTime in Hle. apply Qle_bool_iff, Hle.
Qed.

End TrackerAccessFacts.

Section TrackerStatusFacts.
Import Tracker TrackerAccess.

Lemma initializeStore_idempotent (s : ModelPerformanceData) :
  initializeStore (initializeStore s) = initializeStore s.
Proof.
  destruct s as [ps os ms cs]. unfold initializeStore. cbn.
  destruct cs, ms; reflexivity.
Qed.

Lemma step_initialized (s : ModelPerformanceData) (op : Op) :
  step (initializeStore s) op = step s op.
Proof.
  destruct op; cbn [step];
    unfold recordPrediction, recordOutcome, updateConnectionStatus;
    rewrite initializeStore_idempotent; reflexivity.
Qed.

Lemma initializeStore_connectionStatus (s : ModelPerformanceData) :
  connectionStatus (initializeStore s)
  = if isEmpty (connectionStatus s) then initializeConnectionStatus
    else connectionStatus s.
Proof.
  destruct s as [ps os ms cs]. unfold initializeStore. cbn.
  destruct cs, ms; reflexivity.
Qed.

Lemma statusUpdatesOf_app (t : ModelType) (ops ops' : list Op) :
  statusUpdatesOf t (ops ++ ops') = statusUpdatesOf t ops ++ statusUpdatesOf t ops'.
Proof.
  induction ops as [|op ops IH]; [reflexivity|].
  destruct op as [p id|o|st now]; cbn; auto.
  destruct (ModelType_eqb (s_modelType st) t); cbn; rewrite IH; reflexivity.
Qed.

Lemma currentStatus_snoc_other (ops : list Op) (op : Op) (t : ModelType) :
  statusUpdatesOf t [op] = [] -> currentStatus (ops ++ [op]) t = currentStatus ops t.
Proof.
  intro H. unfold currentStatus. rewrite statusUpdatesOf_app, H, app_nil_r.
  reflexivity.
Qed.

Lemma currentStatus_modelType (ops : list Op) (t : ModelType) :
  c_modelType (currentStatus ops t) = t.
Proof.
  unfold currentStatus.
  assert (G : Forall (fun c => c_modelType c = t) (statusUpdatesOf t ops)).
  { induction ops as [|op ops IH]; [constructor|].
    destruct op as [p id|o|st now]; cbn; auto.
    destruct (ModelType_eqb (s_modelType st) t) eqn:E; auto.
    constructor; [apply ModelType_eqb_eq, E|exact IH]. }
  induction G as [|c l Hc G IHG]; [reflexivity|].
  destruct l; [exact Hc|exact IHG].
Qed.

Lemma connectionStatus_run (ops : list Op) :
  connectionStatus (initializeStore (run ops)) = map (currentStatus ops) models.
Proof.
  induction ops as [|op ops IH] using rev_ind; [reflexivity|].
  rewrite run_snoc, initializeStore_connectionStatus.
  destruct op as [p id|o|st now]; cbn [step].
  - unfold recordPrediction. cbn [fst connectionStatus]. rewrite IH. cbn.
    rewrite !currentStatus_snoc_other by reflexivity. reflexivity.
  - unfold recordOutcome. cbn [connectionStatus]. rewrite IH. cbn.
    rewrite !currentStatus_snoc_other by reflexivity. reflexivity.
  - unfold updateConnectionStatus. rewrite IH.
    unfold currentStatus at 1 2 3 4. cbn [map models findIndex].
    fold (currentStatus ops tapas) (currentStatus ops distilbert)
         (currentStatus ops flant5) (currentStatus ops bart).
    rewrite !currentStatus_modelType.
    destruct (s_modelType st) eqn:E; cbn;
      unfold currentStatus; rewrite !statusUpdatesOf_app; cbn;
      rewrite E; cbn; rewrite ?app_nil_r, ?last_last; reflexivity.
Qed.

(** X12. Whatever calls were made on a fresh module, [getConnectionStatus]
    finds the status of every capability (it is never undefined): it is the
    record of the latest [updateConnectionStatus] call for that capability,
    stamped with the clock reading of that call, and the initial record
    (status unknown, lastChecked 0, responseTime 0) when there was none.
    Updates of other capabilities and recorded predictions or outcomes do
    not touch it. *)
Theorem connection_status_is_the_latest_update (t : ModelType) (ops : list Op) :
  fst (getConnectionStatus t (run ops))
  = Some (last (statusUpdatesOf t ops) (mkConnectionStatus t unknown 0 0 None)).
Proof.
  unfold getConnectionStatus. cbn [fst]. rewrite connectionStatus_run.
  cbn [map models find]. rewrite !currentStatus_modelType.
  destruct t; reflexivity.
Qed.

Lemma run_after_clear (ops : list Op) :
  initializeStore (fold_left step ops clearAllData) = initializeStore (run ops).
Proof.
  destruct ops as [|op ops]; [reflexivity|].
  unfold run. cbn [fold_left].
  change clearAllData with (initializeStore serverStore0).
  rewrite step_initialized. reflexivity.
Qed.

(** X13. [clearAllData] is a fresh start: after it, every sequence of
    recording calls leaves each accessor with exactly the answer it gives
    after the same calls on a freshly loaded module. *)
Theorem clearAllData_is_a_fresh_start
  (ops : list Op) (t : ModelType) (limit : nat) :
  getModelMetrics t (fold_left step ops clearAllData) = getModelMetrics t (run ops)
  /\ getConnectionStatus t (fold_left step ops clearAllData)
     = getConnectionStatus t (run ops)
  /\ getRecentPredictions t limit (fold_left step ops clearAllData)
     = getRecentPredictions t limit (run ops).
Proof.
  unfold getModelMetrics, getConnectionStatus, getRecentPredictions.
  rewrite run_after_clear. auto.
Qed.

End TrackerStatusFacts.

(* ------------------------------------------------------------------ *)
(** ** The forced local mode of the pipeline                           *)
(* ------------------------------------------------------------------ *)

Section ForcedFallbackFacts.
Context {F : NumberFormat} {T : TableHandlers}.
Hypothesis toFixed_numberText : forall d q, numberText (toFixed d q) = true.
Hypothesis numberToString_numberText : forall q, numberText (numberToString q) = true.

Lemma toLowerCase_app (a b : str) :
  toLowerCase (a ++ b) = toLowerCase a ++ toLowerCase b.
Proof. apply map_app. Qed.

Lemma toLower_numberChar (c : ascii) : isNumberChar c = true -> toLower c = c.
Proof.
  destruct c as [[] [] [] [] [] [] [] []]; intro H; try reflexivity;
    discriminate H.
Qed.

Lemma toLowerCase_numberText (s : str) : numberText s = true -> toLowerCase s = s.
Proof.
  induction s as [|c s IH]; [reflexivity|].
  intro H. apply andb_true_iff in H. destruct H as [Hc Hs].
  change (toLowerCase (c :: s)) with (toLower c :: toLowerCase s).
  rewrite (toLower_numberChar _ Hc), (IH Hs). reflexivity.
Qed.

Lemma eqb_numberChar (k c : ascii) :
  isNumberChar k = false -> isNumberChar c = true -> Ascii.eqb k c = false.
Proof.
  intros Hk Hc. destruct (Ascii.eqb k c) eqn:E; [|reflexivity].
  apply Ascii.eqb_eq in E. congruence.
Qed.

Lemma matchAfter_hole (k : ascii) (key : str) (rest : str -> option str)
  (h s : str) :
  isNumberChar k = false -> numberText h = true ->
  matchAfter (k :: key) rest (h ++ s) = matchAfter (k :: key) rest s.
Proof.
  intros Hk. induction h as [|c h IH]; [reflexivity|].
  intro H. apply andb_true_iff in H. destruct H as [Hc Hh].
  cbn [app matchAfter startsWith]. rewrite (eqb_numberChar _ _ Hk Hc).
  cbn [andb]. apply IH, Hh.
Qed.

Lemma includes_hole (k : ascii) (needle : str) (h s : str) :
  isNumberChar k = false -> numberText h = true ->
  includes (k :: needle) (h ++ s) = includes (k :: needle) s.
Proof.
  intros Hk. induction h as [|c h IH]; [reflexivity|].
  intro H. apply andb_true_iff in H. destruct H as [Hc Hh].
  cbn [app includes startsWith]. rewrite (eqb_numberChar _ _ Hk Hc).
  cbn [andb orb]. apply IH, Hh.
Qed.

Lemma indicatorLine_lower (marketData : MarketData) :
  exists a b c d e,
    numberText a = true /\ numberText b = true /\ numberText c = true
    /\ numberText d = true /\ numberText e = true
    /\ toLowerCase (indicatorLine marketData)
       = lit "rsi=" ++ a ++ lit ", macd=" ++ b ++ lit ", signal=" ++ c
         ++ lit ", volume=" ++ d ++ lit ", price=" ++ e.
Proof.
  exists (toFixed 2 (rsi marketData)), (toFixed 2 (macd marketData)),
    (toFixed 2 (signal marketData)), (numberToString (volume marketData)),
    (numberToString (price marketData)).
  repeat (split; [first [apply toFixed_numberText|apply numberToString_numberText]|]).
  unfold indicatorLine. rewrite !toLowerCase_app.
  rewrite (toLowerCase_numberText _ (toFixed_numberText 2 (rsi marketData))),
    (toLowerCase_numberText _ (toFixed_numberText 2 (macd marketData))),
    (toLowerCase_numberText _ (toFixed_numberText 2 (signal marketData))),
    (toLowerCase_numberText _ (numberToString_numberText (volume marketData))),
    (toLowerCase_numberText _ (numberToString_numberText (price marketData))).
  reflexivity.
Qed.

Lemma matchAfter_number (k : ascii) (key : str) (rest : str -> option str) (h : str) :
  isNumberChar k = false -> numberText h = true ->
  matchAfter (k :: key) rest h = None.
Proof.
  intros Hk Hh. rewrite <- (app_nil_r h), matchAfter_hole; auto.
Qed.

Lemma includes_number (k : ascii) (needle : str) (h : str) :
  isNumberChar k = false -> numberText h = true ->
  includes (k :: needle) h = false.
Proof.
  intros Hk Hh. rewrite <- (app_nil_r h), includes_hole; auto.
Qed.

Ltac scan_prompt :=
  repeat (cbn;
          rewrite ?matchAfter_hole, ?includes_hole, ?matchAfter_number,
            ?includes_number by (first [reflexivity | assumption]));
  try reflexivity.

(** A line of the shape [RSI=.., MACD=.., Signal=.., Volume=.., Price=..]
    gives the extraction nothing to find: no key is followed by a colon, by
    white space or directly by its number. *)
Lemma indicator_line_is_not_read (a b c d e : str) :
  numberText a = true -> numberText b = true -> numberText c = true ->
  numberText d = true -> numberText e = true ->
  let promptLower :=
    lit "rsi=" ++ a ++ lit ", macd=" ++ b ++ lit ", signal=" ++ c
    ++ lit ", volume=" ++ d ++ lit ", price=" ++ e in
  extractIndicators promptLower = extractIndicators []
  /\ detectConditions promptLower = detectConditions [].
Proof.
  intros Ha Hb Hc Hd He promptLower. subst promptLower. split.
  - unfold extractIndicators, extractNumber.
    f_equal; f_equal; scan_prompt.
  - unfold detectConditions. f_equal; scan_prompt.
Qed.

Lemma fallbackDecisionMaking_forced (marketData : MarketData) :
  fallbackDecisionMaking (indicatorLine marketData) = fallbackDecisionMaking [].
Proof.
  destruct (indicatorLine_lower marketData)
    as (a & b & c & d & e & Ha & Hb & Hc & Hd & He & E).
  destruct (indicator_line_is_not_read a b c d e Ha Hb Hc Hd He) as [Ei Ec].
  unfold fallbackDecisionMaking. cbv zeta.
  rewrite E, Ei, Ec. reflexivity.
Qed.

(** X14. In the forced local mode ([useFallback] true) the decision does not
    depend on the market data: the decision heuristic is handed the line
    [RSI=.., MACD=.., Signal=.., Volume=.., Price=..], in which it finds no
    indicator, so it decides as on an empty prompt, and that decision is
    HOLD.  (The formatter is assumed to print numbers with digits, point,
    sign and exponent mark only.) *)
Theorem forced_local_mode_always_holds
  (remote : Remote) (marketData : MarketData) (newsData : NewsData) :
  let r := analyzeSignals remote marketData newsData true in
  r_decision r = lit "HOLD"
  /\ decisionReasoning r = d_reasoning (fallbackDecisionMaking [])
  /\ decisionUsingFallback r = true.
Proof.
  cbv zeta. unfold analyzeSignals.
  cbn [r_decision decisionReasoning decisionUsingFallback].
  rewrite fallbackDecisionMaking_forced.
  split; [|split]; reflexivity.
Qed.

End ForcedFallbackFacts.

(** The exact-decimal formatter prints number text. *)

Lemma numberText_app (a b : str) : numberText (a ++ b) = numberText a && numberText b.
Proof. apply forallb_app. Qed.

Lemma numberText_uint (u : Decimal.uint) :
  numberText (lit (NilEmpty.string_of_uint u)) = true.
Proof. induction u; cbn; auto. Qed.

Lemma numberText_ZToString (z : Z) : numberText (ZToString z) = true.
Proof. apply numberText_uint. Qed.

Lemma numberText_zeros (k : nat) : numberText (repeat "0"%char k) = true.
Proof. induction k; cbn; auto. Qed.

Lemma numberText_firstn (k : nat) (s : str) :
  numberText s = true -> numberText (firstn k s) = true.
Proof.
  unfold numberText. rewrite !forallb_forall. intros H c Hc.
  apply H. eapply in_firstn, Hc.
Qed.

Lemma numberText_skipn (k : nat) (s : str) :
  numberText s = true -> numberText (skipn k s) = true.
Proof.
  unfold numberText. rewrite !forallb_forall. intros H c Hc.
  apply H. eapply in_skipn, Hc.
Qed.

Lemma digitChar_numberChar (d : Z) :
  (0 <= d <= 9)%Z -> isNumberChar (digitChar d) = true.
Proof.
  intro H.
  assert (E : (d = 0 \/ d = 1 \/ d = 2 \/ d = 3 \/ d = 4 \/ d = 5 \/ d = 6
               \/ d = 7 \/ d = 8 \/ d = 9)%Z) by lia.
  repeat (destruct E as [->|E]; [reflexivity|]). subst d. reflexivity.
Qed.

Lemma numberText_fractionDigits (fuel : nat) (r : Q) :
  0 <= r -> r < 1 -> numberText (fractionDigits fuel r) = true.
Proof.
  revert r. induction fuel as [|fuel IH]; intros r H0 H1; cbn [fractionDigits].
  - reflexivity.
  - destruct (Qeq_bool r 0); [reflexivity|].
    pose proof (Qfloor_le (r * 10)) as Hlo.
    pose proof (Qlt_floor (r * 10)) as Hhi.
    assert (Hd0 : (0 <= Qfloor (r * 10))%Z).
    { change 0%Z with (Qfloor 0). apply Qfloor_resp_le. lra. }
    assert (Hd9 : (Qfloor (r * 10) <= 9)%Z).
    { assert (Hlt : inject_Z (Qfloor (r * 10)) < inject_Z 10).
      { eapply Qle_lt_trans; [exact Hlo|]. change (inject_Z 10) with 10. lra. }
      rewrite <- Zlt_Qlt in Hlt. lia. }
    cbn [numberText forallb].
    rewrite (digitChar_numberChar (conj Hd0 Hd9)). cbn [andb].
    apply IH.
    + lra.
    + rewrite inject_Z_plus in Hhi. change (inject_Z 1) with 1 in Hhi. lra.
Qed.

Lemma exactToFixed_numberText (d : nat) (q : Q) : numberText (exactToFixed d q) = true.
Proof.
  unfold exactToFixed. cbv zeta.
  set (digits := repeat "0"%char _ ++ ZToString _).
  assert (Hd : numberText digits = true).
  { subst digits. rewrite numberText_app, numberText_zeros, numberText_ZToString.
    reflexivity. }
  rewrite !numberText_app.
  rewrite (numberText_firstn _ _ Hd).
  destruct (Qltb q 0); destruct (d =? 0)%nat; cbn [andb]; try reflexivity;
    rewrite numberText_app, (numberText_skipn _ _ Hd); reflexivity.
Qed.

Lemma exactToString_numberText (q : Q) : numberText (exactToString q) = true.
Proof.
  unfold exactToString. cbv zeta.
  set (fraction := fractionDigits 20 _).
  assert (Hf : numberText fraction = true).
  { subst fraction. apply numberText_fractionDigits.
    - pose proof (Qfloor_le (Qabs q)). lra.
    - pose proof (Qlt_floor (Qabs q)) as H.
      rewrite inject_Z_plus in H. change (inject_Z 1) with 1 in H. lra. }
  rewrite !numberText_app, numberText_ZToString.
  destruct (Qltb q 0); destruct (isEmpty fraction); cbn [andb]; try reflexivity;
    rewrite numberText_app, Hf; reflexivity.
Qed.

Lemma forced_local_mode_always_holds_witness :
  let F := exactDecimal in
  let T := Build_TableHandlers
             (fun _ _ reasoning => inr reasoning) (fun _ _ reasoning => inr reasoning)
             (fun _ _ reasoning => inr reasoning) (fun _ _ reasoning => inr reasoning)
             (fun _ _ reasoning => inr reasoning) in
  let overbought := mkMarketData 85 (-3) 1 1500000 65000 in
  let r := analyzeSignals remoteDown overbought mockNewsData true in
  r_decision r = lit "HOLD"
  /\ decisionReasoning r = d_reasoning (fallbackDecisionMaking [])
  /\ decisionUsingFallback r = true.
Proof.
  cbv zeta.
  apply (@forced_local_mode_always_holds exactDecimal _
           exactToFixed_numberText exactToString_numberText).
Defined.

(* ------------------------------------------------------------------ *)
(** ** Sentiment: the keyword heuristic and the remote score           *)
(* ------------------------------------------------------------------ *)

Section SentimentFacts.
Context {F : NumberFormat}.

Lemma scanKeywords_weights (keywords : list (str * Q)) (lowerText : str)
  (sc tw : Q) (matched : list str) :
  let '(sc', tw', _) := scanKeywords keywords lowerText (sc, tw, matched) in
  sc' == sc + weightFound keywords lowerText
  /\ tw' == tw + weightFound keywords lowerText.
Proof.
  unfold scanKeywords, weightFound.
  revert sc tw matched. induction keywords as [|kw kws IH]; intros sc tw matched.
  - cbn. split; ring.
  - cbn [fold_left filter].
    destruct (includes (fst kw) lowerText).
    + specialize (IH (sc + snd kw) (tw + snd kw) (matched ++ [fst kw])).
      destruct (fold_left _ kws _) as [[sc' tw'] m'].
      destruct IH as [H1 H2]. cbn [map fold_right]. rewrite H1, H2. split; ring.
    + apply IH.
Qed.

Lemma weightFound_nonneg (keywords : list (str * Q)) (lowerText : str) :
  Forall (fun kw => 0 < snd kw) keywords -> 0 <= weightFound keywords lowerText.
Proof.
  unfold weightFound. induction 1 as [|kw kws Hkw _ IH]; cbn; [lra|].
  destruct (includes (fst kw) lowerText); cbn; lra.
Qed.


Lemma keyword_weights_positive :
  Forall (fun kw : str * Q => 0 < snd kw) positiveKeywords
  /\ Forall (fun kw : str * Q => 0 < snd kw) negativeKeywords.
Proof.
  split; repeat constructor.
Qed.


(** X16. A remote sentiment answer is never reported as 0: the reported
    score is the score of the POSITIVE label when that is not 0, and the
    neutral 0.5 when it is 0 or when the label is missing.  So the most
    negative answer the remote model can give (POSITIVE 0) is reported as
    neutral. *)
Theorem remote_sentiment_zero_is_neutral
  (remote : Remote) (text : str) (response : list (list LabelScore)) :
  distilbertSst2 remote = Some response ->
  exists r,
    queryDistilBERT remote text = Returned r
    /\ ~ score r == 0
    /\ (forall item, find (hasLabel "POSITIVE") (hd [] response) = Some item ->
          (l_score item == 0 -> score r = 0.5)
          /\ (~ l_score item == 0 -> score r = l_score item))
    /\ (find (hasLabel "POSITIVE") (hd [] response) = None -> score r = 0.5).
Proof.
  intro H. unfold queryDistilBERT. rewrite H. cbv zeta.
  eexists. split; [reflexivity|]. cbn [score].
  destruct (find (hasLabel "POSITIVE") (hd [] response)) as [item|].
  - destruct (Qeq_bool (l_score item) 0) eqn:E.
    + apply Qeq_bool_iff in E. split; [intro H0; discriminate H0|]. split.
      * intros item' [= <-]. split; [reflexivity|]. intro Hne. contradiction.
      * discriminate.
    + apply Qeq_bool_neq in E. split; [exact E|]. split.
      * intros item' [= <-]. split; [intro H0; contradiction|reflexivity].
      * discriminate.
  - split; [intro H0; discriminate H0|]. split; [discriminate|reflexivity].
Qed.

End SentimentFacts.

Lemma remote_sentiment_zero_is_neutral_witness :
  let F := exactDecimal in
  let response := [[mkLabelScore (lit "NEGATIVE") 1; mkLabelScore (lit "POSITIVE") 0]] in
  let remote := mkRemote None None None (Some response) None None None in
  exists r,
    queryDistilBERT remote (lit "Exchange halts withdrawals") = Returned r
    /\ ~ score r == 0
    /\ (forall item, find (hasLabel "POSITIVE") (hd [] response) = Some item ->
          (l_score item == 0 -> score r = 0.5)
          /\ (~ l_score item == 0 -> score r = l_score item))
    /\ (find (hasLabel "POSITIVE") (hd [] response) = None -> score r = 0.5).
Proof.
  cbv zeta.
  apply (@remote_sentiment_zero_is_neutral exactDecimal). reflexivity.
Defined.

(* ------------------------------------------------------------------ *)
(** ** Reading the decision of a remote answer                         *)
(* ------------------------------------------------------------------ *)





(* ------------------------------------------------------------------ *)
(** ** Technical indicators                                            *)
(* ------------------------------------------------------------------ *)

Section RsiFacts.
Import MarketSeries.

Lemma ofNat_ge_1 (n : nat) : (0 < n)%nat -> 1 <= ofNat n.
Proof.
  intro H. unfold ofNat, Qle. cbn. lia.
Qed.

Lemma changesOf_length (closePrices : list Q) :
  length (changesOf closePrices) = (length closePrices - 1)%nat.
Proof.
  induction closePrices as [|p rest IH]; [reflexivity|].
  destruct rest as [|c rest']; [reflexivity|].
  cbn [changesOf length] in *. rewrite IH. lia.
Qed.

Lemma smoothedRSI_length (period : nat) (g l : Q) (changes : list Q) :
  length (smoothedRSI period g l changes) = length changes.
Proof.
  revert g l. induction changes as [|ch rest IH]; intros g l; [reflexivity|].
  cbn [smoothedRSI length]. rewrite IH. reflexivity.
Qed.

Lemma fill_length {A} (n : nat) (x : A) : length (fill n x) = n.
Proof. apply repeat_length. Qed.

Lemma calculateRSI_length (closePrices : list Q) (period : nat) :
  (0 < period)%nat ->
  length (calculateRSI closePrices period) = length closePrices.
Proof.
  intro Hp. unfold calculateRSI.
  destruct (length closePrices <=? period)%nat eqn:E; [apply fill_length|].
  apply Nat.leb_gt in E. cbv zeta.
  rewrite !length_app. cbn [length].
  rewrite fill_length, smoothedRSI_length, length_skipn, changesOf_length. lia.
Qed.

Lemma rsiOf_range (g l : Q) : 0 <= g -> 0 <= l -> 0 <= rsiOf g l /\ rsiOf g l < 100.
Proof.
  intros Hg Hl. unfold rsiOf. cbv zeta.
  set (d := if Qeq_bool l 0 then 0.001 else l).
  assert (Hd : 0 < d).
  { subst d. destruct (Qeq_bool l 0) eqn:E; [reflexivity|].
    apply Qeq_bool_neq in E.
    destruct (Qlt_le_dec 0 l) as [H|H]; [exact H|].
    exfalso. apply E. lra. }
  assert (Hrs : 0 <= g / d) by (apply Qle_shift_div_l; [exact Hd|lra]).
  set (rs := g / d) in *.
  assert (H1 : 0 < 1 + rs) by lra.
  assert (Hq : 0 < 100 / (1 + rs)) by (apply Qlt_shift_div_l; [exact H1|lra]).
  assert (Hq' : 100 / (1 + rs) <= 100) by (apply Qle_shift_div_r; [exact H1|lra]).
  split; lra.
Qed.

Lemma sumGainsLosses_nonneg (changes : list Q) :
  0 <= fst (sumGainsLosses changes) /\ 0 <= snd (sumGainsLosses changes).
Proof.
  unfold sumGainsLosses.
  assert (G : forall acc : Q * Q, 0 <= fst acc -> 0 <= snd acc ->
            let r := fold_left
                       (fun acc change =>
                          if Qgtb change 0 then (fst acc + change, snd acc)
                          else (fst acc, snd acc + Qabs change)) changes acc in
            0 <= fst r /\ 0 <= snd r).
  { induction changes as [|ch rest IH]; intros acc H1 H2; [cbn; auto|].
    cbn [fold_left]. apply IH.
    - destruct (Qgtb ch 0) eqn:E; cbn [fst]; [|exact H1].
      apply Qltb_lt in E. lra.
    - destruct (Qgtb ch 0) eqn:E; cbn [snd]; [exact H2|].
      pose proof (Qabs_nonneg ch). lra. }
  apply (G (0, 0)); cbn; lra.
Qed.

Lemma smoothed_average_nonneg (period : nat) (avg current : Q) :
  (0 < period)%nat -> 0 <= avg -> 0 <= current ->
  0 <= (avg * (ofNat period - 1) + current) / ofNat period.
Proof.
  intros Hp Ha Hc. pose proof (ofNat_ge_1 Hp) as H1.
  apply Qle_shift_div_l; [lra|].
  assert (0 <= avg * (ofNat period - 1)) by (apply Qmult_le_0_compat; lra).
  lra.
Qed.

Lemma smoothedRSI_range (period : nat) (g l : Q) (changes : list Q) :
  (0 < period)%nat -> 0 <= g -> 0 <= l ->
  Forall (fun v => 0 <= v /\ v < 100) (smoothedRSI period g l changes).
Proof.
  intro Hp. revert g l. induction changes as [|ch rest IH]; intros g l Hg Hl.
  - constructor.
  - cbn [smoothedRSI].
    assert (Hg' : 0 <= (g * (ofNat period - 1) + (if Qgtb ch 0 then ch else 0))
                       / ofNat period).
    { apply smoothed_average_nonneg; auto.
      destruct (Qgtb ch 0) eqn:E; [apply Qltb_lt in E|]; lra. }
    assert (Hl' : 0 <= (l * (ofNat period - 1) + (if Qltb ch 0 then Qabs ch else 0))
                       / ofNat period).
    { apply smoothed_average_nonneg; auto.
      destruct (Qltb ch 0); [apply Qabs_nonneg|lra]. }
    constructor; [apply rsiOf_range; assumption|apply IH; assumption].
Qed.

Lemma Forall_fill {A} (P : A -> Prop) (n : nat) (x : A) : P x -> Forall P (fill n x).
Proof. intro H. induction n; cbn; constructor; auto. Qed.

Lemma calculateRSI_range (closePrices : list Q) (period : nat) :
  (0 < period)%nat ->
  Forall (fun v => 0 <= v /\ v < 100) (calculateRSI closePrices period).
Proof.
  intro Hp. unfold calculateRSI.
  destruct (length closePrices <=? period)%nat eqn:E.
  - apply Forall_fill; lra.
  - cbv zeta.
    destruct (sumGainsLosses_nonneg (firstn period (changesOf closePrices)))
      as [Hg Hl].
    pose proof (ofNat_ge_1 Hp) as H1.
    assert (Hg' : 0 <= fst (sumGainsLosses (firstn period (changesOf closePrices)))
                       / ofNat period) by (apply Qle_shift_div_l; lra).
    assert (Hl' : 0 <= snd (sumGainsLosses (firstn period (changesOf closePrices)))
                       / ofNat period) by (apply Qle_shift_div_l; lra).
    change (50 :: fill (period - 1) 50) with (fill (S (period - 1)) 50).
    apply Forall_app. split; [apply Forall_fill; lra|].
    apply Forall_app. split.
    + constructor; [apply rsiOf_range; assumption|constructor].
    + apply smoothedRSI_range; assumption.
Qed.

Lemma nth_error_fill {A} (n i : nat) (x : A) :
  (i < n)%nat -> nth_error (fill n x) i = Some x.
Proof.
  intro Hi. unfold fill.
  rewrite (nth_error_nth' _ x) by (rewrite repeat_length; exact Hi).
  rewrite nth_repeat. reflexivity.
Qed.

Lemma calculateRSI_warmup (closePrices : list Q) (period i : nat) :
  (0 < period)%nat -> (i < period)%nat -> (i < length closePrices)%nat ->
  nth_error (calculateRSI closePrices period) i = Some 50.
Proof.
  intros Hp Hi Hlen. unfold calculateRSI.
  destruct (length closePrices <=? period)%nat eqn:E.
  - apply nth_error_fill, Hlen.
  - cbv zeta.
    change (50 :: fill (period - 1) 50) with (fill (S (period - 1)) 50).
    replace (S (period - 1)) with period by lia.
    rewrite nth_error_app1 by (rewrite fill_length; exact Hi).
    apply nth_error_fill, Hi.
Qed.

(** X18. For a positive period, [calculateRSI] returns one value per
    closing price, every value lies between 0 and 100 (both
    included), and the first [period] values are the neutral 50; with
    no more than [period] prices every value is 50. *)
Theorem rsi_shape_and_range (closePrices : list Q) (period : nat) :
  (0 < period)%nat ->
  length (calculateRSI closePrices period) = length closePrices
  /\ Forall (fun v => 0 <= v /\ v <= 100) (calculateRSI closePrices period)
  /\ (forall i, (i < period)%nat -> (i < length closePrices)%nat ->
                nth_error (calculateRSI closePrices period) i = Some 50)
  /\ ((length closePrices <= period)%nat ->
      calculateRSI closePrices period = fill (length closePrices) 50).
Proof.
  intro Hp. split; [apply calculateRSI_length, Hp|].
  split.
  { apply (Forall_impl _ (P := fun v => 0 <= v /\ v < 100));
      [intros v [H0 H1]; split; [exact H0|apply Qlt_le_weak, H1]
      |apply calculateRSI_range, Hp]. }
  split; [intros i Hi Hlen; apply calculateRSI_warmup; assumption|].
  intro Hle. unfold calculateRSI.
  assert (E : (length closePrices <=? period)%nat = true)
    by (apply Nat.leb_le; exact Hle).
  rewrite E. reflexivity.
Qed.

Lemma rsi_shape_and_range_witness :
  let closePrices := [10; 11; 12; 11; 13; 12] in
  length (calculateRSI closePrices 3) = length closePrices
  /\ Forall (fun v => 0 <= v /\ v <= 100) (calculateRSI closePrices 3)
  /\ (forall i, (i < 3)%nat -> (i < length closePrices)%nat ->
                nth_error (calculateRSI closePrices 3) i = Some 50)
  /\ ((length closePrices <= 3)%nat ->
      calculateRSI closePrices 3 = fill (length closePrices) 50).
Proof.
  cbv zeta. apply rsi_shape_and_range. lia.
Defined.

End RsiFacts.

Section RsiTrendFacts.
Import MarketSeries.

Lemma skipn_fill_app {A} (n : nat) (x : A) (l : list A) :
  skipn n (fill n x ++ l) = l.
Proof.
  rewrite skipn_app, fill_length, Nat.sub_diag.
  rewrite skipn_all2 by (rewrite fill_length; lia). reflexivity.
Qed.

Lemma calculateRSI_after_warmup (closePrices : list Q) (period : nat) :
  (0 < period)%nat ->
  skipn period (calculateRSI closePrices period)
  = if (length closePrices <=? period)%nat then []
    else
      let changes := changesOf closePrices in
      let sums := sumGainsLosses (firstn period changes) in
      let avgGain := fst sums / ofNat period in
      let avgLoss := snd sums / ofNat period in
      rsiOf avgGain avgLoss
      :: smoothedRSI period avgGain avgLoss (skipn period changes).
Proof.
  intro Hp. unfold calculateRSI.
  destruct (length closePrices <=? period)%nat eqn:E.
  - apply Nat.leb_le in E. apply skipn_all2. rewrite fill_length. exact E.
  - cbv zeta.
    change (50 :: fill (period - 1) 50) with (fill (S (period - 1)) 50).
    replace (S (period - 1)) with period by lia.
    apply skipn_fill_app.
Qed.

Lemma rsiOf_zero_gain (g l : Q) : g == 0 -> rsiOf g l == 0.
Proof.
  intro H. unfold rsiOf. cbv zeta. rewrite H.
  assert (E : 0 / (if Qeq_bool l 0 then 0.001 else l) == 0)
    by (unfold Qdiv; ring).
  rewrite E. reflexivity.
Qed.

Lemma sumGains_of_falls (changes : list Q) :
  Forall (fun change => change <= 0) changes ->
  fst (sumGainsLosses changes) = 0.
Proof.
  unfold sumGainsLosses. intro H.
  assert (G : forall acc : Q * Q,
            fst (fold_left
                   (fun acc change =>
                      if Qgtb change 0 then (fst acc + change, snd acc)
                      else (fst acc, snd acc + Qabs change)) changes acc) = fst acc).
  { induction H as [|ch rest Hch _ IH]; intro acc; [reflexivity|].
    cbn [fold_left]. rewrite IH.
    assert (E : Qgtb ch 0 = false) by (apply Qltb_ge; exact Hch).
    rewrite E. reflexivity. }
  apply (G (0, 0)).
Qed.

Lemma smoothedRSI_of_falls (period : nat) (g l : Q) (changes : list Q) :
  g == 0 -> Forall (fun change => change <= 0) changes ->
  Forall (fun v => v == 0) (smoothedRSI period g l changes).
Proof.
  intros Hg H. revert g l Hg.
  induction H as [|ch rest Hch _ IH]; intros g l Hg; [constructor|].
  cbn [smoothedRSI].
  assert (E : Qgtb ch 0 = false) by (apply Qltb_ge; exact Hch).
  rewrite E.
  assert (Hg' : (g * (ofNat period - 1) + 0) / ofNat period == 0).
  { rewrite Hg. unfold Qdiv. ring. }
  constructor; [apply rsiOf_zero_gain, Hg'|apply IH, Hg'].
Qed.

Lemma Forall_firstn_Q (P : Q -> Prop) (k : nat) (l : list Q) :
  Forall P l -> Forall P (firstn k l).
Proof.
  rewrite !Forall_forall. intros H x Hx. apply H. eapply in_firstn, Hx.
Qed.

Lemma Forall_skipn_Q (P : Q -> Prop) (k : nat) (l : list Q) :
  Forall P l -> Forall P (skipn k l).
Proof.
  rewrite !Forall_forall. intros H x Hx. apply H. eapply in_skipn, Hx.
Qed.

Lemma calculateRSI_of_falls (closePrices : list Q) (period : nat) :
  (0 < period)%nat ->
  Forall (fun change => change <= 0) (changesOf closePrices) ->
  Forall (fun v => v == 0) (skipn period (calculateRSI closePrices period)).
Proof.
  intros Hp H. rewrite (calculateRSI_after_warmup closePrices Hp).
  destruct (length closePrices <=? period)%nat; [constructor|].
  cbv zeta.
  rewrite (sumGains_of_falls (Forall_firstn_Q period H)).
  assert (E : 0 / ofNat period == 0) by (unfold Qdiv; ring).
  constructor.
  - apply rsiOf_zero_gain, E.
  - apply smoothedRSI_of_falls; [exact E|]. apply Forall_skipn_Q, H.
Qed.

Lemma nth_error_skipn_Q (k i : nat) (l : list Q) :
  (k <= i)%nat -> nth_error l i = nth_error (skipn k l) (i - k).
Proof.
  intro H. rewrite <- (firstn_skipn k l) at 1.
  destruct (Nat.le_gt_cases (length l) k) as [Hl|Hl].
  - rewrite (skipn_all2 l Hl), app_nil_r.
    rewrite (proj2 (nth_error_None _ _)) by (rewrite length_firstn; lia).
    destruct (i - k)%nat; reflexivity.
  - rewrite nth_error_app2 by (rewrite length_firstn; lia).
    rewrite length_firstn, Nat.min_l by lia. reflexivity.
Qed.

(** X19. When the closing price never rises (flat bars included), every
    RSI value after the warm-up is exactly 0: the value at each index from
    [period] on is 0. *)
Theorem rsi_of_falling_market_is_zero
  (closePrices : list Q) (period i : nat) (v : Q) :
  (0 < period)%nat ->
  Forall (fun change => change <= 0) (changesOf closePrices) ->
  (period <= i)%nat ->
  nth_error (calculateRSI closePrices period) i = Some v ->
  v == 0.
Proof.
  intros Hp H Hi Hv.
  pose proof (calculateRSI_of_falls closePrices Hp H) as Hall.
  rewrite (nth_error_skipn_Q _ Hi) in Hv.
  rewrite Forall_forall in Hall. apply Hall.
  eapply nth_error_In, Hv.
Qed.

Lemma rsi_of_falling_market_is_zero_witness :
  nth_error (calculateRSI [5; 4; 4; 3; 1] 2) 3 = Some (0 # 12) /\ 0 # 12 == 0.
Proof.
  split; [vm_compute; reflexivity|].
  apply (@rsi_of_falling_market_is_zero [5; 4; 4; 3; 1] 2 3 (0 # 12));
    [lia| |lia|vm_compute; reflexivity].
  repeat constructor; unfold Qle; cbn; lia.
Defined.

Lemma hundred_over_antitone (a b : Q) : 0 < a -> a <= b -> 100 / b <= 100 / a.
Proof.
  intros Ha Hab.
  assert (Hb : 0 < b) by lra.
  assert (E : 100 / a - 100 / b == 100 * (b - a) / (a * b)) by (field; split; lra).
  assert (Hn : 0 <= 100 * (b - a) / (a * b)).
  { apply Qle_shift_div_l; [nra|lra]. }
  lra.
Qed.

Lemma rsiOf_no_loss (g l M : Q) :
  0 <= g -> g <= M -> l == 0 -> rsiOf g l <= 100 - 100 / (1 + 1000 * M).
Proof.
  intros H0 HM Hl. unfold rsiOf. cbv zeta.
  assert (E : Qeq_bool l 0 = true) by (apply Qeq_bool_iff, Hl).
  rewrite E.
  assert (Ers : g / 0.001 == 1000 * g) by (field).
  rewrite Ers.
  assert (H : 100 / (1 + 1000 * M) <= 100 / (1 + 1000 * g))
    by (apply hundred_over_antitone; lra).
  lra.
Qed.

Lemma sumGainsLosses_of_rises (changes : list Q) (M : Q) :
  0 <= M ->
  Forall (fun change => 0 <= change /\ change <= M) changes ->
  0 <= fst (sumGainsLosses changes)
  /\ fst (sumGainsLosses changes) <= ofNat (length changes) * M
  /\ snd (sumGainsLosses changes) == 0.
Proof.
  unfold sumGainsLosses. intros HM H.
  assert (G : forall acc : Q * Q,
            let r := fold_left
                       (fun acc change =>
                          if Qgtb change 0 then (fst acc + change, snd acc)
                          else (fst acc, snd acc + Qabs change)) changes acc in
            fst acc <= fst r
            /\ fst r <= fst acc + ofNat (length changes) * M
            /\ snd r == snd acc).
  { induction H as [|ch rest [Hlo Hhi] _ IH]; intro acc.
    - cbn. split; [lra|]. split; [|reflexivity].
      change (ofNat 0) with 0. lra.
    - cbn [fold_left length]. rewrite ofNat_S.
      match goal with |- context [fold_left ?f rest ?a] =>
        specialize (IH a); cbv zeta in IH; destruct IH as (I1 & I2 & I3) end.
      destruct (Qgtb ch 0) eqn:E; cbn [fst snd] in *.
      + split; [lra|]. split; [|exact I3]. nra.
      + apply Qltb_ge in E. assert (Ez : ch == 0) by lra.
        split; [exact I1|]. split; [nra|].
        rewrite I3, Ez. cbn. ring. }
  specialize (G (0, 0)). cbv zeta in G. cbn [fst snd] in G.
  destruct G as (G1 & G2 & G3). split; [exact G1|]. split; [lra|exact G3].
Qed.

Lemma smoothedRSI_of_rises (period : nat) (g l M : Q) (changes : list Q) :
  (0 < period)%nat -> 0 <= g -> g <= M -> l == 0 ->
  Forall (fun change => 0 <= change /\ change <= M) changes ->
  Forall (fun v => v <= 100 - 100 / (1 + 1000 * M))
         (smoothedRSI period g l changes).
Proof.
  intros Hp Hg HM Hl H. revert g l Hg HM Hl.
  pose proof (ofNat_ge_1 Hp) as H1.
  induction H as [|ch rest [Hlo Hhi] _ IH]; intros g l Hg HM Hl; [constructor|].
  cbn [smoothedRSI].
  assert (E : Qltb ch 0 = false) by (apply Qltb_ge; exact Hlo).
  rewrite E.
  set (cg := if Qgtb ch 0 then ch else 0).
  assert (Hcg : 0 <= cg /\ cg <= M).
  { subst cg. destruct (Qgtb ch 0); lra. }
  assert (Hg0 : 0 <= (g * (ofNat period - 1) + cg) / ofNat period).
  { apply smoothed_average_nonneg; tauto. }
  assert (HgM : (g * (ofNat period - 1) + cg) / ofNat period <= M).
  { apply Qle_shift_div_r; [lra|]. nra. }
  assert (Hl' : (l * (ofNat period - 1) + 0) / ofNat period == 0).
  { rewrite Hl. unfold Qdiv. ring. }
  constructor; [apply rsiOf_no_loss; assumption|apply IH; assumption].
Qed.

(** X20. When the closing price never falls and no bar rises by more than
    [M], every RSI value after the warm-up is at most
    100 - 100 / (1 + 1000 M): a loss average of zero is replaced by 0.001,
    so the value of a rising market depends on the size of the price steps
    (it is below 10 for steps of at most 0.0001). *)
Theorem rsi_of_rising_market_is_capped_by_step
  (closePrices : list Q) (period : nat) (M : Q) :
  (0 < period)%nat ->
  Forall (fun change => 0 <= change /\ change <= M) (changesOf closePrices) ->
  Forall (fun v => v <= 100 - 100 / (1 + 1000 * M))
         (skipn period (calculateRSI closePrices period)).
Proof.
  intros Hp H. rewrite (calculateRSI_after_warmup closePrices Hp).
  destruct (length closePrices <=? period)%nat eqn:Elen; [constructor|].
  apply Nat.leb_gt in Elen. cbv zeta.
  pose proof (ofNat_ge_1 Hp) as H1.
  assert (Hne : changesOf closePrices <> []).
  { intro E. pose proof (changesOf_length closePrices) as L.
    rewrite E in L. cbn in L. lia. }
  assert (HM : 0 <= M).
  { destruct (changesOf closePrices) as [|ch rest]; [contradiction|].
    inversion H as [|? ? [Hlo Hhi] _]; subst. lra. }
  destruct (sumGainsLosses_of_rises HM (Forall_firstn_Q period H))
    as (S0 & S1 & S2).
  set (sums := sumGainsLosses (firstn period (changesOf closePrices))) in *.
  assert (Hlen : ofNat (length (firstn period (changesOf closePrices)))
                 <= ofNat period).
  { unfold ofNat. rewrite <- Zle_Qle. apply inj_le, firstn_le_length. }
  assert (Hg0 : 0 <= fst sums / ofNat period) by (apply Qle_shift_div_l; lra).
  assert (HgM : fst sums / ofNat period <= M).
  { apply Qle_shift_div_r; [lra|].
    pose proof (ofNat_nonneg (length (firstn period (changesOf closePrices)))).
    nra. }
  assert (Hl : snd sums / ofNat period == 0).
  { rewrite S2. unfold Qdiv. ring. }
  constructor.
  - apply rsiOf_no_loss; assumption.
  - apply smoothedRSI_of_rises; try assumption. apply Forall_skipn_Q, H.
Qed.

Lemma rsi_of_rising_market_is_capped_by_step_witness :
  Forall (fun v => v <= 100 - 100 / (1 + 1000 * 0.0001))
         (skipn 2 (calculateRSI [0.0010; 0.0011; 0.0012; 0.0013; 0.0014] 2)).
Proof.
  apply rsi_of_rising_market_is_capped_by_step; [lia|].
  repeat constructor; unfold Qle; cbn; lia.
Defined.

End RsiTrendFacts.

Section EmaFacts.
Import MarketSeries.

Lemma emaTail_length (m prev : Q) (data : list Q) :
  length (emaTail m prev data) = length data.
Proof.
  revert prev. induction data as [|x rest IH]; intro prev; [reflexivity|].
  cbn [emaTail length]. rewrite IH. reflexivity.
Qed.

Lemma calculateEMA_length (data : list Q) (period : nat) :
  (0 < period)%nat -> length (calculateEMA data period) = length data.
Proof.
  intro Hp. unfold calculateEMA.
  destruct (length data <? period)%nat eqn:E; [apply fill_length|].
  apply Nat.ltb_ge in E. cbv zeta.
  rewrite !length_app. cbn [length].
  rewrite fill_length, emaTail_length, length_skipn. lia.
Qed.

Lemma multiplier_range (period : nat) :
  (0 < period)%nat ->
  0 <= 2 / (ofNat period + 1) /\ 2 / (ofNat period + 1) <= 1.
Proof.
  intro Hp. pose proof (ofNat_ge_1 Hp) as H1. split.
  - apply Qle_shift_div_l; lra.
  - apply Qle_shift_div_r; lra.
Qed.

(** The values of [calculateEMA] from index [period - 1] on. *)
Lemma calculateEMA_after_warmup (data : list Q) (period : nat) :
  (0 < period)%nat -> (period <= length data)%nat ->
  calculateEMA data period
  = fill (period - 1) 0
    ++ (fold_left Qplus (firstn period data) 0 / ofNat period)
       :: emaTail (2 / (ofNat period + 1))
            (fold_left Qplus (firstn period data) 0 / ofNat period)
            (skipn period data).
Proof.
  intros Hp Hlen. unfold calculateEMA.
  assert (E : (length data <? period)%nat = false) by (apply Nat.ltb_ge; exact Hlen).
  rewrite E. reflexivity.
Qed.

Lemma emaTail_nonneg (m prev : Q) (data : list Q) :
  0 <= m -> m <= 1 -> 0 <= prev ->
  Forall (fun x => 0 <= x) data ->
  Forall (fun x => 0 <= x) (emaTail m prev data).
Proof.
  intros Hm0 Hm1 Hprev H. revert prev Hprev.
  induction H as [|x rest Hx _ IH]; intros prev Hprev; [constructor|].
  cbn [emaTail].
  assert (B : 0 <= x * m + prev * (1 - m)) by nra.
  constructor; [exact B|apply IH, B].
Qed.

Lemma sum_nonneg (data : list Q) (start : Q) :
  0 <= start -> Forall (fun x => 0 <= x) data ->
  0 <= fold_left Qplus data start.
Proof.
  intros Hs H. revert start Hs.
  induction H as [|x rest Hx _ IH]; intros start Hs; [exact Hs|].
  cbn [fold_left]. apply IH. lra.
Qed.

Lemma calculateEMA_warmup (data : list Q) (period i : nat) :
  (0 < period)%nat -> (i < period - 1)%nat -> (i < length data)%nat ->
  nth_error (calculateEMA data period) i = Some 0.
Proof.
  intros Hp Hi Hlen.
  destruct (Nat.lt_ge_cases (length data) period) as [Hlt|Hge].
  - unfold calculateEMA.
    assert (E : (length data <? period)%nat = true) by (apply Nat.ltb_lt; exact Hlt).
    rewrite E. apply nth_error_fill, Hlen.
  - rewrite (calculateEMA_after_warmup data Hp Hge).
    rewrite nth_error_app1 by (rewrite fill_length; exact Hi).
    apply nth_error_fill, Hi.
Qed.

Lemma calculateEMA_short (data : list Q) (period : nat) :
  (length data < period)%nat -> calculateEMA data period = fill (length data) 0.
Proof.
  intro Hlt. unfold calculateEMA.
  assert (E : (length data <? period)%nat = true) by (apply Nat.ltb_lt; exact Hlt).
  rewrite E. reflexivity.
Qed.

Lemma calculateEMA_nonneg (data : list Q) (period : nat) :
  (0 < period)%nat -> Forall (fun x => 0 <= x) data ->
  Forall (fun x => 0 <= x) (calculateEMA data period).
Proof.
  intros Hp H.
  destruct (Nat.lt_ge_cases (length data) period) as [Hlt|Hge].
  - rewrite (calculateEMA_short data Hlt). apply Forall_fill. lra.
  - rewrite (calculateEMA_after_warmup data Hp Hge).
    pose proof (ofNat_ge_1 Hp) as H1.
    destruct (multiplier_range Hp) as [Hm0 Hm1].
    assert (S0 : 0 <= fold_left Qplus (firstn period data) 0).
    { apply sum_nonneg; [lra|]. apply Forall_firstn_Q, H. }
    set (sum := fold_left Qplus (firstn period data) 0) in *.
    assert (B : 0 <= sum / ofNat period) by (apply Qle_shift_div_l; lra).
    apply Forall_app. split; [apply Forall_fill; lra|].
    constructor; [exact B|].
    apply emaTail_nonneg; try assumption. apply Forall_skipn_Q, H.
Qed.

(** X21. For a positive period, [calculateEMA] returns one value per input
    value.  With fewer than [period] values all are 0; in every case the
    values before position [period - 1] are the placeholder 0; and when no
    input value is negative, no returned value is negative. *)
Theorem ema_shape_and_sign (data : list Q) (period : nat) :
  (0 < period)%nat ->
  length (calculateEMA data period) = length data
  /\ ((length data < period)%nat -> calculateEMA data period = fill (length data) 0)
  /\ (forall i, (i < period - 1)%nat -> (i < length data)%nat ->
                nth_error (calculateEMA data period) i = Some 0)
  /\ (Forall (fun x => 0 <= x) data ->
      Forall (fun x => 0 <= x) (calculateEMA data period)).
Proof.
  intro Hp. split; [apply calculateEMA_length, Hp|].
  split; [apply calculateEMA_short|].
  split; [intros i Hi Hlen; apply calculateEMA_warmup; assumption|].
  apply calculateEMA_nonneg, Hp.
Qed.

Lemma ema_shape_and_sign_witness :
  let data := [10; 12; 11; 13; 12] in
  length (calculateEMA data 3) = length data
  /\ ((length data < 3)%nat -> calculateEMA data 3 = fill (length data) 0)
  /\ (forall i, (i < 3 - 1)%nat -> (i < length data)%nat ->
                nth_error (calculateEMA data 3) i = Some 0)
  /\ (Forall (fun x => 0 <= x) data ->
      Forall (fun x => 0 <= x) (calculateEMA data 3)).
Proof.
  cbv zeta. apply ema_shape_and_sign. lia.
Defined.

End EmaFacts.

Section MacdFacts.
Import MarketSeries.

Lemma tabulate_length {A} (n : nat) (f : nat -> A) : length (tabulate n f) = n.
Proof. unfold tabulate. rewrite length_map, length_seq. reflexivity. Qed.

Lemma nth_error_tabulate {A} (n : nat) (f : nat -> A) (i : nat) :
  (i < n)%nat -> nth_error (tabulate n f) i = Some (f i).
Proof.
  intro H. unfold tabulate.
  rewrite nth_error_map, (nth_error_nth' _ 0%nat) by (rewrite length_seq; exact H).
  rewrite seq_nth by exact H. reflexivity.
Qed.

(** X22. For positive fast, slow and signal periods, each of the three
    lines of [calculateMACD] has one value per closing price.  With fewer
    than max(fast, slow) + signal prices all three lines are all 0.  In
    every case the MACD values before position [slow - 1] and the histogram
    values before position [slow + signal - 2] are the placeholder 0. *)
Theorem macd_shape_and_warm_up
  (closePrices : list Q) (fastPeriod slowPeriod signalPeriod : nat) :
  (0 < fastPeriod)%nat -> (0 < slowPeriod)%nat -> (0 < signalPeriod)%nat ->
  let n := length closePrices in
  let m := calculateMACD closePrices fastPeriod slowPeriod signalPeriod in
  length (macdLine m) = n
  /\ length (signalLine m) = n
  /\ length (histogramLine m) = n
  /\ ((n < Nat.max fastPeriod slowPeriod + signalPeriod)%nat ->
      macdLine m = fill n 0 /\ signalLine m = fill n 0
      /\ histogramLine m = fill n 0)
  /\ (forall i, (i < slowPeriod - 1)%nat -> (i < n)%nat ->
                nth_error (macdLine m) i = Some 0)
  /\ (forall i, (i < slowPeriod + signalPeriod - 2)%nat -> (i < n)%nat ->
                nth_error (histogramLine m) i = Some 0).
Proof.
  intros Hf Hsl Hs. cbv zeta. unfold calculateMACD.
  destruct (length closePrices <? Nat.max fastPeriod slowPeriod + signalPeriod)%nat
    eqn:E.
  { cbn [macdLine signalLine histogramLine]. rewrite fill_length.
    repeat split; try reflexivity; intros i _ Hi; apply nth_error_fill, Hi. }
  apply Nat.ltb_ge in E. cbv zeta. cbn [macdLine signalLine histogramLine].
  set (n := length closePrices) in *.
  set (line := tabulate n _).
  assert (Lline : length line = n) by apply tabulate_length.
  split; [exact Lline|].
  split; [rewrite calculateEMA_length by exact Hs; exact Lline|].
  split; [apply tabulate_length|].
  split; [intro Hlt; exfalso; lia|].
  split.
  - intros i Hi Hn. unfold line. rewrite nth_error_tabulate by exact Hn.
    assert (Ei : (i <? slowPeriod - 1)%nat = true) by (apply Nat.ltb_lt; exact Hi).
    rewrite Ei. reflexivity.
  - intros i Hi Hn. rewrite nth_error_tabulate by exact Hn.
    assert (Ei : (i <? slowPeriod + signalPeriod - 2)%nat = true)
      by (apply Nat.ltb_lt; exact Hi).
    rewrite Ei. reflexivity.
Qed.

Lemma macd_shape_and_warm_up_witness :
  let closePrices := [7; 8; 9; 8; 7; 6] in
  let n := length closePrices in
  let m := calculateMACD closePrices 2 3 2 in
  length (macdLine m) = n
  /\ length (signalLine m) = n
  /\ length (histogramLine m) = n
  /\ ((n < Nat.max 2 3 + 2)%nat ->
      macdLine m = fill n 0 /\ signalLine m = fill n 0
      /\ histogramLine m = fill n 0)
  /\ (forall i, (i < 3 - 1)%nat -> (i < n)%nat ->
                nth_error (macdLine m) i = Some 0)
  /\ (forall i, (i < 3 + 2 - 2)%nat -> (i < n)%nat ->
                nth_error (histogramLine m) i = Some 0).
Proof.
  cbv zeta. apply macd_shape_and_warm_up; lia.
Defined.

End MacdFacts.

Section IndicatorFacts.
Import MarketSeries.

Lemma calculateIndicators_bars (data : list Candle) (P : Bar -> Prop) :
  (forall candle index, (index < length data)%nat ->
     let closePrices := closePricesOf data in
     let rsiValues := calculateRSI closePrices 14 in
     let macdData := calculateMACD closePrices 12 26 9 in
     P (mkBar (orNumber (Some (k_openTime candle)) 0)
              (orNumber (parseFloat (k_open candle)) 0)
              (orNumber (parseFloat (k_high candle)) 0)
              (orNumber (parseFloat (k_low candle)) 0)
              (orNumber (parseFloat (k_close candle)) 0)
              (orNumber (parseFloat (k_volume candle)) 0)
              (orNumber (nth_error rsiValues index) 50)
              (orNumber (nth_error (macdLine macdData) index) 0)
              (orNumber (nth_error (signalLine macdData) index) 0)
              (orNumber (nth_error (histogramLine macdData) index) 0))) ->
  Forall P (calculateIndicators data).
Proof.
  intro H. unfold calculateIndicators.
  destruct (isEmpty data); [constructor|]. cbv zeta.
  apply Forall_forall. intros bar Hbar.
  apply in_map_iff in Hbar. destruct Hbar as ([candle index] & <- & Hin).
  apply in_combine_r in Hin. apply in_seq in Hin.
  apply H. lia.
Qed.

Lemma calculateIndicators_length (data : list Candle) :
  length (calculateIndicators data) = length data.
Proof.
  unfold calculateIndicators. destruct data as [|c rest]; [reflexivity|].
  cbn [isEmpty]. cbv zeta.
  rewrite length_map, length_combine, length_seq. apply Nat.min_id.
Qed.

Lemma orNumber_fill_zero (n index : nat) :
  orNumber (nth_error (fill n 0) index) 0 = 0.
Proof.
  destruct (Nat.lt_ge_cases index n) as [H|H].
  - rewrite (nth_error_fill 0 H). reflexivity.
  - rewrite (proj2 (nth_error_None _ _)) by (rewrite fill_length; exact H).
    reflexivity.
Qed.

Lemma firstn_seq_min (k start n : nat) :
  firstn k (seq start n) = seq start (Nat.min k n).
Proof.
  revert start n. induction k as [|k IH]; intros start n; [reflexivity|].
  destruct n as [|n]; [reflexivity|].
  cbn [seq firstn Nat.min]. rewrite IH. reflexivity.
Qed.

(** X23. [calculateIndicators] returns one bar per candle.  The RSI it
    reports is never 0: it is above 0, because a computed 0 is replaced by
    50, and at most 100; it is 50 for each of the first fourteen
    bars; and with fewer than 35 candles the MACD, signal and histogram of
    every bar are 0. *)
Theorem indicators_per_candle (data : list Candle) :
  length (calculateIndicators data) = length data
  /\ Forall (fun bar => 0 < b_rsi bar /\ b_rsi bar <= 100) (calculateIndicators data)
  /\ Forall (fun bar => b_rsi bar = 50) (firstn 14 (calculateIndicators data))
  /\ ((length data < 35)%nat ->
      Forall (fun bar => b_macd bar = 0 /\ b_signal bar = 0 /\ b_histogram bar = 0)
             (calculateIndicators data)).
Proof.
  split; [apply calculateIndicators_length|]. split; [|split].
  - apply calculateIndicators_bars. intros candle index Hi. cbv zeta. cbn [b_rsi].
    pose proof (@calculateRSI_range (closePricesOf data) 14 ltac:(lia)) as Hr.
    destruct (nth_error (calculateRSI (closePricesOf data) 14) index) as [v|] eqn:E;
      cbn [orNumber]; [|split; lra].
    rewrite Forall_forall in Hr. destruct (Hr v (nth_error_In _ _ E)) as [H0 H100].
    destruct (Qeq_bool v 0) eqn:Ez; [split; lra|].
    apply Qeq_bool_neq in Ez. split; [|apply Qlt_le_weak, H100].
    destruct (Qlt_le_dec 0 v) as [Hlt|Hle]; [exact Hlt|].
    exfalso. apply Ez. lra.
  - unfold calculateIndicators. destruct (isEmpty data) eqn:Ee; [constructor|].
    cbv zeta. rewrite firstn_map. apply Forall_forall. intros bar Hbar.
    apply in_map_iff in Hbar. destruct Hbar as ([candle index] & <- & Hin).
    cbn [b_rsi].
    assert (Hidx : (index < 14)%nat /\ (index < length data)%nat).
    { rewrite combine_firstn in Hin. apply in_combine_r in Hin.
      rewrite firstn_seq_min in Hin. apply in_seq in Hin. lia. }
    rewrite (@calculateRSI_warmup (closePricesOf data) 14 index);
      [reflexivity|lia|tauto|].
    unfold closePricesOf. rewrite length_map. tauto.
  - intro Hshort. apply calculateIndicators_bars.
    intros candle index Hi. cbv zeta. cbn [b_macd b_signal b_histogram].
    unfold calculateMACD.
    assert (E : (length (closePricesOf data) <? Nat.max 12 26 + 9)%nat = true).
    { apply Nat.ltb_lt. unfold closePricesOf. rewrite length_map. cbn. lia. }
    rewrite E. cbn [macdLine signalLine histogramLine].
    rewrite !orNumber_fill_zero. auto.
Qed.

Lemma orNumber_rsi_of_falls (rsiValues : list Q) (index : nat) :
  (forall v, nth_error rsiValues index = Some v -> v = 50 \/ v == 0) ->
  orNumber (nth_error rsiValues index) 50 = 50.
Proof.
  intro H. destruct (nth_error rsiValues index) as [v|]; [|reflexivity].
  cbn [orNumber]. destruct (H v eq_refl) as [->|Hz]; [reflexivity|].
  apply Qeq_bool_iff in Hz. rewrite Hz. reflexivity.
Qed.

(** X24. A market that never rises is reported as neutral: when no closing
    price of the candles is above the one before it, every bar carries the
    RSI 50, the computed value 0 being replaced by the default. *)
Theorem falling_market_is_reported_neutral (data : list Candle) :
  Forall (fun change => change <= 0) (changesOf (closePricesOf data)) ->
  Forall (fun bar => b_rsi bar = 50) (calculateIndicators data).
Proof.
  intro H. apply calculateIndicators_bars.
  intros candle index Hi. cbv zeta. cbn [b_rsi].
  apply orNumber_rsi_of_falls. intros v Hv.
  destruct (Nat.lt_ge_cases index 14) as [Hlt|Hge].
  - left.
    rewrite (@calculateRSI_warmup (closePricesOf data) 14 index) in Hv;
      [congruence|lia|exact Hlt|].
    unfold closePricesOf. rewrite length_map. exact Hi.
  - right.
    pose proof (@calculateRSI_of_falls (closePricesOf data) 14 ltac:(lia) H) as Hall.
    rewrite (nth_error_skipn_Q _ Hge) in Hv.
    rewrite Forall_forall in Hall. apply Hall. eapply nth_error_In, Hv.
Qed.

Lemma falling_market_is_reported_neutral_witness :
  let candle := fun close => mkCandle 0 close close close close (lit "1") in
  let data :=
    map candle
      [lit "30.5"; lit "30.1"; lit "29.8"; lit "29.8"; lit "29.0"; lit "28.4";
       lit "27.9"; lit "27.5"; lit "27.5"; lit "26.8"; lit "26.0"; lit "25.1";
       lit "24.9"; lit "24.2"; lit "23.7"; lit "23.0"; lit "22.2"] in
  Forall (fun bar => b_rsi bar = 50) (calculateIndicators data).
Proof.
  cbv zeta. apply falling_market_is_reported_neutral.
  vm_compute. repeat constructor; discriminate.
Defined.

End IndicatorFacts.

(* ------------------------------------------------------------------ *)
(** ** The decision prompt of the pipeline and the risk override       *)
(* ------------------------------------------------------------------ *)

Section PromptFacts.
Context {F : NumberFormat}.
Hypothesis toFixed_numberText : forall d q, numberText (toFixed d q) = true.
Hypothesis numberToString_numberText : forall q, numberText (numberToString q) = true.

(** A key that does not contain the character [c] cannot match across the
    end of a text that is followed by [c]. *)
Lemma startsWith_before (key t s : str) (c : ascii) :
  forallb (fun k => negb (Ascii.eqb k c)) key = true ->
  startsWith key (t ++ c :: s) = startsWith key t.
Proof.
  revert t. induction key as [|k key IH]; intros t Hkey; [reflexivity|].
  cbn [forallb] in Hkey. apply andb_true_iff in Hkey. destruct Hkey as [Hk Hkey].
  destruct t as [|b t]; cbn [app startsWith].
  - apply negb_true_iff in Hk. rewrite Hk. reflexivity.
  - rewrite (IH t Hkey). reflexivity.
Qed.

Lemma includes_suffix (key t : str) :
  includes key t = false ->
  startsWith key t = false
  /\ match t with [] => True | _ :: t' => includes key t' = false end.
Proof.
  intro H. destruct t as [|b t]; cbn [includes] in H.
  - rewrite orb_false_r in H. auto.
  - apply orb_false_iff in H. exact H.
Qed.

Lemma matchAfter_free (k : ascii) (key : str) (rest : str -> option str)
  (h s : str) (c : ascii) :
  forallb (fun x => negb (Ascii.eqb x c)) (k :: key) = true ->
  includes (k :: key) h = false ->
  matchAfter (k :: key) rest (h ++ c :: s) = matchAfter (k :: key) rest (c :: s).
Proof.
  intros Hkey. induction h as [|b h IH]; intro Hfree; [reflexivity|].
  destruct (includes_suffix _ _ Hfree) as [Hstart Htail].
  change ((b :: h) ++ c :: s) with (b :: (h ++ c :: s)).
  cbn [matchAfter].
  change (b :: (h ++ c :: s)) with ((b :: h) ++ c :: s).
  rewrite (startsWith_before _ (b :: h) s c Hkey), Hstart.
  apply IH, Htail.
Qed.

Lemma decisionPrompt_lower (marketData : MarketData) (tapasAnswer : str)
  (sentimentScore : Q) :
  let indent := lit "      " in
  toLowerCase (decisionPrompt marketData tapasAnswer sentimentScore)
  = lit "given the following information, should i buy, sell, or hold?" ++ nl
    ++ indent ++ nl
    ++ indent ++ lit "technical indicators:" ++ nl
    ++ indent ++ lit "- rsi: " ++ toFixed 2 (rsi marketData) ++ nl
    ++ indent ++ lit "- macd: " ++ toFixed 2 (macd marketData) ++ nl
    ++ indent ++ lit "- signal: " ++ toFixed 2 (signal marketData) ++ nl
    ++ indent ++ lit "- current price: " ++ numberToString (price marketData) ++ nl
    ++ indent ++ lit "- volume: " ++ numberToString (volume marketData) ++ nl
    ++ indent ++ nl
    ++ indent ++ lit "market analysis:" ++ nl
    ++ indent ++ lit "- " ++ toLowerCase tapasAnswer ++ nl
    ++ indent ++ nl
    ++ indent ++ lit "news sentiment:" ++ nl
    ++ indent ++ lit "- sentiment score: " ++ toFixed 2 sentimentScore
    ++ lit " (0=negative, 1=positive)" ++ nl
    ++ indent ++ nl
    ++ indent ++ lit "risk level:" ++ nl
    ++ indent ++ lit "- " ++ toFixed 2 (calculateRiskScore marketData sentimentScore)
    ++ lit " (0=low risk, 1=high risk)" ++ nl
    ++ indent.
Proof.
  cbv zeta. unfold decisionPrompt. cbv zeta.
  rewrite !toLowerCase_app.
  rewrite !(toLowerCase_numberText _ (toFixed_numberText 2 _)).
  rewrite !(toLowerCase_numberText _ (numberToString_numberText _)).
  reflexivity.
Qed.

(** X25. The decision prompt of the pipeline never shows its risk score to
    the decision heuristic: the score is printed on the line after the
    heading [Risk Level:], where neither pattern of the extraction finds
    it.  Unless the table answer itself mentions the word risk, the
    heuristic therefore works with the default risk 0.5 whatever the
    computed score is, and its high-risk override (risk above 0.7) does not
    apply. *)
Theorem pipeline_prompt_hides_the_risk
  (marketData : MarketData) (tapasAnswer : str) (sentimentScore : Q) :
  includes (lit "risk") (toLowerCase tapasAnswer) = false ->
  let prompt := decisionPrompt marketData tapasAnswer sentimentScore in
  ind_risk (extractIndicators (toLowerCase prompt)) = parseFloat (lit "0.5")
  /\ gtN (ind_risk (extractIndicators (toLowerCase prompt))) (Some 0.7) = false.
Proof.
  intros Hfree. cbv zeta.
  assert (E : ind_risk (extractIndicators
                 (toLowerCase (decisionPrompt marketData tapasAnswer sentimentScore)))
              = parseFloat (lit "0.5")).
  { pose proof (decisionPrompt_lower marketData tapasAnswer sentimentScore) as L.
    cbv zeta in L. rewrite L. clear L.
    unfold extractIndicators. cbn [ind_risk]. unfold extractNumber.
    assert (Hkey : forallb (fun x => negb (Ascii.eqb x "010"%char)) (lit "risk") = true)
      by reflexivity.
    assert (M1 : forall rest s,
              matchAfter ["r"; "i"; "s"; "k"]%char rest
                (toLowerCase tapasAnswer ++ "010"%char :: s)
              = matchAfter ["r"; "i"; "s"; "k"]%char rest ("010"%char :: s)).
    { intros rest s.
      exact (@matchAfter_free "r"%char (lit "isk") rest (toLowerCase tapasAnswer) s
               "010"%char Hkey Hfree). }
    f_equal.
    repeat (cbn;
            rewrite ?matchAfter_hole, ?matchAfter_number
              by (first [reflexivity | apply toFixed_numberText
                        | apply numberToString_numberText]);
            rewrite ?M1).
    reflexivity. }
  split; [exact E|]. rewrite E. reflexivity.
Qed.

End PromptFacts.

Lemma pipeline_prompt_hides_the_risk_witness :
  let F := exactDecimal in
  let crash := mkMarketData 90 (-5) 2 3000000 100 in
  let prompt := decisionPrompt crash (lit "RSI is 90.00, overbought") 0 in
  ind_risk (extractIndicators (toLowerCase prompt)) = parseFloat (lit "0.5")
  /\ gtN (ind_risk (extractIndicators (toLowerCase prompt))) (Some 0.7) = false.
Proof.
  cbv zeta.
  apply (@pipeline_prompt_hides_the_risk exactDecimal
           exactToFixed_numberText exactToString_numberText).
  reflexivity.
Defined.

(* ------------------------------------------------------------------ *)
(** ** Risk scorer: the effect of the sentiment                        *)
(* ------------------------------------------------------------------ *)

Lemma clamp_inactive (x : Q) : 0 <= x -> x < 1 -> Math_max 0 (Math_min 1 x) = x.
Proof.
  intros H0 H1. unfold Math_min.
  assert (E1 : Qle_bool 1 x = false).
  { destruct (Qle_bool 1 x) eqn:E; [|reflexivity].
    apply Qle_bool_iff in E. lra. }
  rewrite E1. unfold Math_max.
  assert (E0 : Qle_bool 0 x = true) by (apply Qle_bool_iff; exact H0).
  rewrite E0. reflexivity.
Qed.

(** X26. For sentiment scores between 0 and 1 the risk score stays between
    0.25 and 0.8, and it never decreases when the sentiment rises: of two
    sentiments, the more positive one gives a risk score that is at least
    as high. *)
Theorem risk_score_rises_with_sentiment (marketData : MarketData) (s1 s2 : Q) :
  0 <= s1 -> s1 <= s2 -> s2 <= 1 ->
  1 # 4 <= calculateRiskScore marketData s1
  /\ calculateRiskScore marketData s2 <= 4 # 5
  /\ calculateRiskScore marketData s1 <= calculateRiskScore marketData s2.
Proof.
  intros H0 H12 H1. unfold calculateRiskScore. cbv zeta.
  set (base :=
         (if Qgtb (volume marketData) 1000000
          then (if Qgtb (macd marketData) (signal marketData)
                then (if Qgtb (rsi marketData) 70 then 0.5 + 0.1
                      else if Qltb (rsi marketData) 30 then 0.5 - 0.1 else 0.5) - 0.05
                else (if Qgtb (rsi marketData) 70 then 0.5 + 0.1
                      else if Qltb (rsi marketData) 30 then 0.5 - 0.1 else 0.5) + 0.05)
               + 0.05
          else (if Qgtb (macd marketData) (signal marketData)
                then (if Qgtb (rsi marketData) 70 then 0.5 + 0.1
                      else if Qltb (rsi marketData) 30 then 0.5 - 0.1 else 0.5) - 0.05
                else (if Qgtb (rsi marketData) 70 then 0.5 + 0.1
                      else if Qltb (rsi marketData) 30 then 0.5 - 0.1 else 0.5) + 0.05))).
  assert (Hb : 0.35 <= base /\ base <= 0.7).
  { subst base.
    destruct (Qgtb (volume marketData) 1000000),
             (Qgtb (macd marketData) (signal marketData)),
             (Qgtb (rsi marketData) 70), (Qltb (rsi marketData) 30); split; lra. }
  destruct Hb as [Hb0 Hb1].
  rewrite (@clamp_inactive (base + (s1 - 0.5) * 0.2)) by lra.
  rewrite (@clamp_inactive (base + (s2 - 0.5) * 0.2)) by lra.
  split; [lra|]. split; lra.
Qed.

Lemma risk_score_rises_with_sentiment_witness :
  1 # 4 <= calculateRiskScore scenarioSnapshot 0.2
  /\ calculateRiskScore scenarioSnapshot 0.9 <= 4 # 5
  /\ calculateRiskScore scenarioSnapshot 0.2 <= calculateRiskScore scenarioSnapshot 0.9.
Proof.
  apply risk_score_rises_with_sentiment; unfold Qle; cbn; lia.
Defined.

(* ------------------------------------------------------------------ *)
(** ** The risk score the pipeline reports                             *)
(* ------------------------------------------------------------------ *)

Section PipelineRiskFacts.
Context {F : NumberFormat} {T : TableHandlers}.

Lemma calculateRiskScore_band (marketData : MarketData) (s : Q) :
  0 <= s -> s <= 1 ->
  1 # 4 <= calculateRiskScore marketData s /\ calculateRiskScore marketData s <= 4 # 5.
Proof.
  intros H0 H1. unfold calculateRiskScore. cbv zeta.
  match goal with
  | |- context [Math_min 1 (?b + (s - 0.5) * 0.2)] => set (base := b)
  end.
  assert (Hb : 0.35 <= base /\ base <= 0.7).
  { subst base.
    destruct (Qgtb (volume marketData) 1000000),
             (Qgtb (macd marketData) (signal marketData)),
             (Qgtb (rsi marketData) 70), (Qltb (rsi marketData) 30); split; lra. }
  destruct Hb as [Hb0 Hb1].
  rewrite (@clamp_inactive (base + (s - 0.5) * 0.2)) by lra.
  split; lra.
Qed.

Lemma fallbackSentimentAnalysis_range (text : str) :
  0 <= score (fallbackSentimentAnalysis text)
  /\ score (fallbackSentimentAnalysis text) <= 1.
Proof.
  destruct keyword_weights_positive as [Hpos Hneg].
  unfold fallbackSentimentAnalysis.
  set (lowerText := toLowerCase text).
  pose proof (weightFound_nonneg lowerText Hpos) as HP.
  pose proof (weightFound_nonneg lowerText Hneg) as HN.
  pose proof (scanKeywords_weights positiveKeywords lowerText 0 0 []) as H1.
  destruct (scanKeywords positiveKeywords lowerText (0, 0, [])) as [[ps tw1] mp].
  destruct H1 as [Hps Htw1].
  pose proof (scanKeywords_weights negativeKeywords lowerText 0 tw1 []) as H2.
  destruct (scanKeywords negativeKeywords lowerText (0, tw1, [])) as [[ns tw2] mn].
  destruct H2 as [Hns Htw2].
  destruct (Qeq_bool tw2 0) eqn:E0; cbn [score]; [split; lra|].
  apply Qeq_bool_neq in E0.
  assert (Hsum : 0 < ps + ns).
  { destruct (Qlt_le_dec 0 (ps + ns)) as [Hlt|Hle]; [exact Hlt|].
    exfalso. apply E0. rewrite Htw2, Htw1. lra. }
  split.
  - apply Qle_shift_div_l; [exact Hsum|lra].
  - apply Qle_shift_div_r; [exact Hsum|lra].
Qed.

Lemma queryDistilBERT_range (remote : Remote) (text : str) :
  (forall response, distilbertSst2 remote = Some response ->
     Forall (fun item => 0 <= l_score item /\ l_score item <= 1) (hd [] response)) ->
  exists r, queryDistilBERT remote text = Returned r /\ 0 <= score r /\ score r <= 1.
Proof.
  intro H. unfold queryDistilBERT.
  destruct (distilbertSst2 remote) as [response|].
  - specialize (H response eq_refl). cbv zeta.
    eexists. split; [reflexivity|]. cbn [score].
    destruct (find (hasLabel "POSITIVE") (hd [] response)) as [item|] eqn:E;
      [|lra].
    apply find_some in E. destruct E as [Hin _].
    rewrite Forall_forall in H. specialize (H item Hin).
    destruct (Qeq_bool (l_score item) 0); lra.
  - eexists. split; [reflexivity|]. apply fallbackSentimentAnalysis_range.
Qed.

(** X27. Whatever the remote capabilities answer (with sentiment scores
    between 0 and 1, as probabilities are), in the forced local mode or
    not, the risk score that [analyzeSignals] reports lies between 0.25 and
    0.8. *)
Theorem pipeline_risk_score_band
  (remote : Remote) (marketData : MarketData) (newsData : NewsData)
  (useFallback : bool) :
  (forall response, distilbertSst2 remote = Some response ->
     Forall (fun item => 0 <= l_score item /\ l_score item <= 1) (hd [] response)) ->
  1 # 4 <= riskScore (analyzeSignals remote marketData newsData useFallback)
  /\ riskScore (analyzeSignals remote marketData newsData useFallback) <= 4 # 5.
Proof.
  intro H. unfold analyzeSignals. destruct useFallback.
  - cbn [riskScore]. apply calculateRiskScore_band;
      apply fallbackSentimentAnalysis_range.
  - destruct (@queryDistilBERT_range remote (newsText newsData) H) as (r & Er & Hr0 & Hr1).
    rewrite Er.
    destruct (queryTapas remote tapasQuestion (convertMarketDataToTable marketData))
      as [tr|];
      match goal with
      | |- context [queryFLANT5 remote ?p] => destruct (queryFLANT5 remote p) as [fr|]
      end;
      match goal with
      | |- context [queryBART remote ?p] => destruct (queryBART remote p) as [br|]
      end;
      cbn [riskScore]; apply calculateRiskScore_band; assumption.
Qed.

End PipelineRiskFacts.

Lemma pipeline_risk_score_band_witness :
  let F := exactDecimal in
  let T := Build_TableHandlers
             (fun _ _ reasoning => inr reasoning) (fun _ _ reasoning => inr reasoning)
             (fun _ _ reasoning => inr reasoning) (fun _ _ reasoning => inr reasoning)
             (fun _ _ reasoning => inr reasoning) in
  let remote :=
    mkRemote None None None
      (Some [[mkLabelScore (lit "POSITIVE") 1; mkLabelScore (lit "NEGATIVE") 0]])
      None None None in
  1 # 4 <= riskScore (analyzeSignals remote scenarioSnapshot mockNewsData false)
  /\ riskScore (analyzeSignals remote scenarioSnapshot mockNewsData false) <= 4 # 5.
Proof.
  cbv zeta. apply pipeline_risk_score_band.
  intros response [= <-]. cbn [hd].
  repeat constructor; cbn [l_score]; unfold Qle; cbn; lia.
Defined.
